(** * Space shooter: the simulation kernel of [space_shooter.js]

    A shallow embedding of the game's update loop, entity behaviours,
    spawner and collision handler, and the properties of the design
    document that concern them.

    JavaScript numbers that carry continuous quantities (positions,
    velocities, timers, elapsed time, score) are IEEE 754 binary64 values
    and are modelled by Rocq's primitive [float], which is the same format
    with the same rounding.  Numbers that the program only ever uses as
    integers (body ids, the running id, the loop counter, the hit and spawn
    counters, and [health], which starts at 100 and is only ever decreased
    by 50) are modelled by [nat] and [Z]; this is exact below 2^53. *)

From Stdlib Require Import Floats ZArith QArith List Bool Lia Sorted.
Import ListNotations.

Set Warnings "-inexact-float".

(* ------------------------------------------------------------------ *)
(** * JavaScript numbers *)
(* ------------------------------------------------------------------ *)

Module JS.

Open Scope float_scope.

(** [a > b] and [a >= b] on numbers. *)
Definition gtb (a b : float) : bool := b <? a.
Definition geb (a b : float) : bool := b <=? a.

(** [Math.max(a, b)]: NaN if either argument is NaN, otherwise the larger
    one, where +0 counts as larger than -0. *)
Definition Math_max (a b : float) : float :=
  if is_nan a || is_nan b then nan
  else if a <? b then b
  else if b <? a then a
  else if get_sign a then b else a.

(** [Math.min(a, b)]: NaN if either argument is NaN, otherwise the smaller
    one, where -0 counts as smaller than +0. *)
Definition Math_min (a b : float) : float :=
  if is_nan a || is_nan b then nan
  else if a <? b then a
  else if b <? a then b
  else if get_sign a then a else b.

(** The number with integer value [z] (rounded to nearest even when [z]
    needs more than 53 bits). *)
Definition of_Z (z : Z) : float := SF2Prim (binary_normalize prec emax z 0 false).

(** [Math.floor(f)]: the largest integer not above [f]; NaN, the infinities
    and the zeros are returned unchanged. *)
Definition Math_floor (f : float) : float :=
  match Prim2SF f with
  | S754_finite s m e =>
      if (0 <=? e)%Z then f
      else
        let z := Z.shiftr (cond_Zopp s (Zpos m)) (- e) in
        if (z =? 0)%Z then zero else of_Z z
  | _ => f
  end.

(** [Math.sqrt]. *)
Definition Math_sqrt (f : float) : float := sqrt f.

(** A zero or a nonzero finite number, on the specification side. *)
Definition SF_finite (a : spec_float) : bool :=
  match a with
  | S754_zero _ | S754_finite _ _ _ => true
  | _ => false
  end.

(** [Number.isFinite(f)] *)
Definition isFinite (f : float) : bool := SF_finite (Prim2SF f).

End JS.


(* ------------------------------------------------------------------ *)
(** * Data model *)
(* ------------------------------------------------------------------ *)

Open Scope float_scope.

(** The [config] object: canvas size and update rate. *)
Module config.
Definition canvas_size_width : float := 300.
Definition canvas_size_height : float := 500.
Definition update_rate_fps : float := 60.
(** [config.update_rate.seconds = 1 / config.update_rate.fps] *)
Definition update_rate_seconds : float := 1 / update_rate_fps.
End config.

(** [{x, y}] objects. *)
Module Vec.
Record t : Set := mk { x : float; y : float }.
End Vec.

(** [{width, height}] objects. *)
Module Size.
Record t : Set := mk { width : float; height : float }.
End Size.

(** The fields and the world-independent methods of class [Body]. *)
Module Body.

Record t : Set := mk {
  id : nat;
  position : Vec.t;
  velocity : Vec.t;
  size : Size.t;
  health : Z
}.

(** The field initialisers of the class, for a body that got id [i]. *)
Definition fresh (i : nat) : t :=
  mk i (Vec.mk 0 0) (Vec.mk 0 0) (Size.mk 10 10) 100.

Definition with_position (p : Vec.t) (b : t) : t :=
  mk (id b) p (velocity b) (size b) (health b).
Definition with_velocity (v : Vec.t) (b : t) : t :=
  mk (id b) (position b) v (size b) (health b).
Definition with_health (h : Z) (b : t) : t :=
  mk (id b) (position b) (velocity b) (size b) h.
Definition with_size (s : Size.t) (b : t) : t :=
  mk (id b) (position b) (velocity b) s (health b).

(** [get half_size()] *)
Definition half_size (b : t) : Size.t :=
  Size.mk (Size.width (size b) / 2) (Size.height (size b) / 2).

(** [isDead()]: [this.health <= 0] *)
Definition isDead (b : t) : bool := (health b <=? 0)%Z.

(** [update(delta_time)]: move the body by its velocity. *)
Definition update (delta_time : float) (b : t) : t :=
  with_position
    (Vec.mk (Vec.x (position b) + delta_time * Vec.x (velocity b))
            (Vec.y (position b) + delta_time * Vec.y (velocity b)))
    b.

End Body.

(** The [controller] object of a player. *)
Record Controller : Set := mkController {
  move_x : float;
  move_y : float;
  action_1 : bool
}.

(** A [Player] object: its [Body] fields, the controller, the raw key
    state (the key codes currently recorded as pressed) and the projectile
    timer. *)
Record Player : Set := mkPlayer {
  body : Body.t;
  controller : Controller;
  raw_input : list Z;
  timer : float
}.

(** The constant fields [speed] and [spawnRate] of the three classes. *)
Definition Player_speed : float := 7.
Definition Player_spawnRate : float := 0.3.
Definition Enemy_speed : float := 2.
Definition projectile_speed : float := 8.
Definition enemySpawner_spawnRate : float := 0.7.

(** An [enemySpawner] object. *)
Record enemySpawner : Set := mkSpawner { spawner_timer : float }.

(** What the registry [entities] holds under a key.  The player object is
    also referenced by the global [player], so the registry holds a
    reference to that one object.  Enemies and projectiles are referenced
    from the registry (and, while a loop over [Object.values(entities)]
    runs, from its array) and nowhere else, so their objects are kept in
    place: the object is the entry under its id.  Ids are handed out by
    the running counter and not reused within a session, so an entry is
    never overwritten by another object. *)
Inductive Entity : Set :=
  | EPlayer
  | EEnemy (b : Body.t)
  | EProjectile (b : Body.t).

(** The global variables of the script, after the first [start()]. *)
Record World : Set := mkWorld {
  last_time : option float;
  loop_count : nat;
  running_id : nat;
  (** the registry, listed by ascending key as [Object.values] does *)
  entities : list Entity;
  queued_entities_for_removal : list nat;
  player : Player;
  enemy_spawner : option enemySpawner;
  (** [collision_handler != null] *)
  collision_handler : bool;
  hitEnemies : Z;
  timeElasped : float;
  totEnemies : Z;
  score : float
}.

Definition with_last_time (t : option float) (w : World) : World :=
  mkWorld t (loop_count w) (running_id w) (entities w)
    (queued_entities_for_removal w) (player w) (enemy_spawner w)
    (collision_handler w) (hitEnemies w) (timeElasped w) (totEnemies w) (score w).
Definition with_loop_count (n : nat) (w : World) : World :=
  mkWorld (last_time w) n (running_id w) (entities w)
    (queued_entities_for_removal w) (player w) (enemy_spawner w)
    (collision_handler w) (hitEnemies w) (timeElasped w) (totEnemies w) (score w).
Definition with_running_id (n : nat) (w : World) : World :=
  mkWorld (last_time w) (loop_count w) n (entities w)
    (queued_entities_for_removal w) (player w) (enemy_spawner w)
    (collision_handler w) (hitEnemies w) (timeElasped w) (totEnemies w) (score w).
Definition with_entities (es : list Entity) (w : World) : World :=
  mkWorld (last_time w) (loop_count w) (running_id w) es
    (queued_entities_for_removal w) (player w) (enemy_spawner w)
    (collision_handler w) (hitEnemies w) (timeElasped w) (totEnemies w) (score w).
Definition with_queue (q : list nat) (w : World) : World :=
  mkWorld (last_time w) (loop_count w) (running_id w) (entities w)
    q (player w) (enemy_spawner w)
    (collision_handler w) (hitEnemies w) (timeElasped w) (totEnemies w) (score w).
Definition with_player (p : Player) (w : World) : World :=
  mkWorld (last_time w) (loop_count w) (running_id w) (entities w)
    (queued_entities_for_removal w) p (enemy_spawner w)
    (collision_handler w) (hitEnemies w) (timeElasped w) (totEnemies w) (score w).
Definition with_enemy_spawner (s : option enemySpawner) (w : World) : World :=
  mkWorld (last_time w) (loop_count w) (running_id w) (entities w)
    (queued_entities_for_removal w) (player w) s
    (collision_handler w) (hitEnemies w) (timeElasped w) (totEnemies w) (score w).
Definition with_hitEnemies (n : Z) (w : World) : World :=
  mkWorld (last_time w) (loop_count w) (running_id w) (entities w)
    (queued_entities_for_removal w) (player w) (enemy_spawner w)
    (collision_handler w) n (timeElasped w) (totEnemies w) (score w).
Definition with_timeElasped (t : float) (w : World) : World :=
  mkWorld (last_time w) (loop_count w) (running_id w) (entities w)
    (queued_entities_for_removal w) (player w) (enemy_spawner w)
    (collision_handler w) (hitEnemies w) t (totEnemies w) (score w).
Definition with_totEnemies (n : Z) (w : World) : World :=
  mkWorld (last_time w) (loop_count w) (running_id w) (entities w)
    (queued_entities_for_removal w) (player w) (enemy_spawner w)
    (collision_handler w) (hitEnemies w) (timeElasped w) n (score w).
Definition with_score (s : float) (w : World) : World :=
  mkWorld (last_time w) (loop_count w) (running_id w) (entities w)
    (queued_entities_for_removal w) (player w) (enemy_spawner w)
    (collision_handler w) (hitEnemies w) (timeElasped w) (totEnemies w) s.

Definition with_body (b : Body.t) (p : Player) : Player :=
  mkPlayer b (controller p) (raw_input p) (timer p).
Definition with_controller (c : Controller) (p : Player) : Player :=
  mkPlayer (body p) c (raw_input p) (timer p).
Definition with_raw_input (r : list Z) (p : Player) : Player :=
  mkPlayer (body p) (controller p) r (timer p).
Definition with_timer (t : float) (p : Player) : Player :=
  mkPlayer (body p) (controller p) (raw_input p) t.

(** ** The registry *)

(** The [Body] fields of the object a registry entry refers to. *)
Definition Entity_body (p : Player) (e : Entity) : Body.t :=
  match e with
  | EPlayer => body p
  | EEnemy b => b
  | EProjectile b => b
  end.

(** The key an entry is stored under: [entities[this.id] = this]. *)
Definition Entity_id (p : Player) (e : Entity) : nat := Body.id (Entity_body p e).

(** [entities[k] = e]: overwrite the entry under key [k], or insert it
    where ascending key order puts it. *)
Fixpoint entities_set (p : Player) (k : nat) (e : Entity) (es : list Entity)
  : list Entity :=
  match es with
  | [] => [e]
  | e' :: es' =>
      if (Entity_id p e' =? k)%nat then e :: es'
      else if (k <? Entity_id p e')%nat then e :: e' :: es'
      else e' :: entities_set p k e es'
  end.

(** [entities[k]], [None] for [undefined]. *)
Definition entities_get (p : Player) (k : nat) (es : list Entity) : option Entity :=
  find (fun e => (Entity_id p e =? k)%nat) es.

(** [delete entities[k]] *)
Definition entities_delete (p : Player) (k : nat) (es : list Entity) : list Entity :=
  filter (fun e => negb (Entity_id p e =? k)%nat) es.

(** Write the new state [b] of an enemy or projectile object back to the
    entry that holds it. *)
Definition entities_store (b : Body.t) (es : list Entity) : list Entity :=
  map (fun e =>
         match e with
         | EPlayer => EPlayer
         | EEnemy b' => if (Body.id b' =? Body.id b)%nat then EEnemy b else e
         | EProjectile b' => if (Body.id b' =? Body.id b)%nat then EProjectile b else e
         end) es.

(** [Object.values(entities)] *)
Definition Object_values (w : World) : list Entity := entities w.

(** [Body.remove()]: [queued_entities_for_removal.push(this.id)] *)
Definition Body_remove (i : nat) (w : World) : World :=
  with_queue (queued_entities_for_removal w ++ [i]) w.

(* ------------------------------------------------------------------ *)
(** * Input: class [InputHandler] *)
(* ------------------------------------------------------------------ *)

(** The names of the controller states a key can be bound to. *)
Inductive ButtonState : Set := St_action_1.
Inductive AxisState : Set := St_move_x | St_move_y.

(** [key_code_mappings], each table in the order [Object.entries] lists
    it (integer keys ascending). *)
Definition key_code_mappings_button : list (Z * ButtonState) :=
  [(32%Z, St_action_1)].
Definition key_code_mappings_axis : list (Z * (AxisState * float)) :=
  [(65%Z, (St_move_x, -1)); (68%Z, (St_move_x, 1));
   (83%Z, (St_move_y, 1)); (87%Z, (St_move_y, -1))].

Definition set_button (s : ButtonState) (v : bool) (c : Controller) : Controller :=
  match s with
  | St_action_1 => mkController (move_x c) (move_y c) v
  end.

Definition get_axis (s : AxisState) (c : Controller) : float :=
  match s with
  | St_move_x => move_x c
  | St_move_y => move_y c
  end.

Definition set_axis (s : AxisState) (v : float) (c : Controller) : Controller :=
  match s with
  | St_move_x => mkController v (move_y c) (action_1 c)
  | St_move_y => mkController (move_x c) v (action_1 c)
  end.

(** [keydown(event)]: [raw_input[event.keyCode] = true] *)
Definition InputHandler_keydown (keyCode : Z) (p : Player) : Player :=
  with_raw_input (keyCode :: raw_input p) p.

(** [keyup(event)]: [delete raw_input[event.keyCode]] *)
Definition InputHandler_keyup (keyCode : Z) (p : Player) : Player :=
  with_raw_input (filter (fun k => negb (k =? keyCode)%Z) (raw_input p)) p.

(** [raw_input[key_code] === true] *)
Definition raw_input_pressed (key_code : Z) (p : Player) : bool :=
  existsb (Z.eqb key_code) (raw_input p).

(** [resetController()] *)
Definition InputHandler_resetController (p : Player) : Player :=
  let c1 := fold_left (fun c m => set_button (snd m) false c)
                      key_code_mappings_button (controller p) in
  let c2 := fold_left (fun c m => set_axis (fst (snd m)) 0 c)
                      key_code_mappings_axis c1 in
  with_controller c2 p.

(** [pollController()] *)
Definition InputHandler_pollController (p : Player) : Player :=
  let p0 := InputHandler_resetController p in
  let c1 := fold_left
              (fun c m => if raw_input_pressed (fst m) p0
                          then set_button (snd m) true c else c)
              key_code_mappings_button (controller p0) in
  let c2 := fold_left
              (fun c m => if raw_input_pressed (fst m) p0
                          then set_axis (fst (snd m))
                                        (get_axis (fst (snd m)) c + snd (snd m)) c
                          else c)
              key_code_mappings_axis c1 in
  with_controller c2 p0.

(* ------------------------------------------------------------------ *)
(** * Bodies: classes [projectile], [Player], [Enemy] *)
(* ------------------------------------------------------------------ *)

(** [Math.min(Math.max(0, v), bound)], the clipping every class uses. *)
Definition clip (v bound : float) : float := JS.Math_min (JS.Math_max 0 v) bound.

(** [new projectile()].  The [Body] constructor takes the next id and
    registers the object; then the position is read from [entities[0]].
    [None] is the TypeError raised when [entities[0]] is undefined. *)
Definition new_projectile (w : World) : option World :=
  let i := running_id w in
  let w1 := with_running_id (S i) w in
  let w2 := with_entities
              (entities_set (player w1) i (EProjectile (Body.fresh i)) (entities w1)) w1 in
  match entities_get (player w2) 0 (entities w2) with
  | None => None
  | Some e0 =>
      let p0 := Body.position (Entity_body (player w2) e0) in
      let b := Body.with_position (Vec.mk (Vec.x p0) (Vec.y p0 - 25)) (Body.fresh i) in
      Some (with_entities (entities_store b (entities w2)) w2)
  end.

(** [projectile.update(delta_time)]; the inherited [update] is not called. *)
Definition projectile_update (b : Body.t) (w : World) : World :=
  let v := Vec.mk (Vec.x (Body.velocity b)) (projectile_speed * -1) in
  let b1 := Body.with_velocity v b in
  let b2 := Body.with_position
              (Vec.mk (Vec.x (Body.position b1))
                      (Vec.y (Body.position b1) + Vec.y (Body.velocity b1))) b1 in
  let w1 := with_entities (entities_store b2 (entities w)) w in
  if Vec.y (Body.position b2) <? clip (Vec.y (Body.position b2)) config.canvas_size_height
  then Body_remove (Body.id b2) w1
  else w1.

(** The first two statements of [Enemy.update]: set the velocity and add
    it to the position. *)
Definition Enemy_advance (b : Body.t) : Body.t :=
  let b1 := Body.with_velocity
              (Vec.mk (Vec.x (Body.velocity b)) (Enemy_speed * 1)) b in
  Body.with_position
    (Vec.mk (Vec.x (Body.position b1))
            (Vec.y (Body.position b1) + Vec.y (Body.velocity b1))) b1.

(** [Enemy.update(delta_time)] *)
Definition Enemy_update (delta_time : float) (b : Body.t) (w : World) : World :=
  let b2 := Enemy_advance b in
  let w1 :=
    if JS.gtb (Vec.y (Body.position b2))
              (clip (Vec.y (Body.position b2)) config.canvas_size_height)
    then Body_remove (Body.id b2) w
    else w in
  let b3 := Body.update delta_time b2 in
  with_entities (entities_store b3 (entities w1)) w1.

(** The movement part of [Player.update]: the six-way cascade on the
    controller axes.  The four diagonal branches have the same body;
    [this.speed**2] is written as a product, which is the same number. *)
Definition Player_move_diagonal (c : Controller) (b : Body.t) : Body.t :=
  let d := JS.Math_sqrt (Player_speed * Player_speed + Player_speed * Player_speed) in
  let vx := d * move_x c in
  let vy := d * move_y c in
  let px := Vec.x (Body.position b) + vx / 2 in
  let py := Vec.y (Body.position b) + vy / 2 in
  Body.with_velocity (Vec.mk 0 0) (Body.with_position (Vec.mk px py) b).

Definition Player_move (c : Controller) (b : Body.t) : Body.t :=
  if move_y c =? 0 then
    let vx := Player_speed * move_x c in
    let px := Vec.x (Body.position b) + vx in
    Body.with_velocity (Vec.mk 0 (Vec.y (Body.velocity b)))
      (Body.with_position (Vec.mk px (Vec.y (Body.position b))) b)
  else if move_x c =? 0 then
    let vy := Player_speed * move_y c in
    let py := Vec.y (Body.position b) + vy in
    Body.with_velocity (Vec.mk (Vec.x (Body.velocity b)) 0)
      (Body.with_position (Vec.mk (Vec.x (Body.position b)) py) b)
  else if (move_x c =? 1) && (move_y c =? 1) then Player_move_diagonal c b
  else if (move_x c =? 1) && (move_y c =? -1) then Player_move_diagonal c b
  else if (move_x c =? -1) && (move_y c =? 1) then Player_move_diagonal c b
  else if (move_x c =? -1) && (move_y c =? -1) then Player_move_diagonal c b
  else b.

(** The last two statements of [Player.update]: clip to the screen. *)
Definition Player_clip (b : Body.t) : Body.t :=
  Body.with_position
    (Vec.mk (clip (Vec.x (Body.position b)) config.canvas_size_width)
            (clip (Vec.y (Body.position b)) config.canvas_size_height))
    b.

(** The projectile timer of [Player.update]. *)
Definition Player_fire (delta_time : float) (w : World) : option World :=
  let t := timer (player w) + delta_time in
  if JS.geb t Player_spawnRate then
    let w1 := with_player (with_timer 0 (player w)) w in
    if action_1 (controller (player w1)) then new_projectile w1 else Some w1
  else Some (with_player (with_timer t (player w)) w).

(** [Player.update(delta_time)] on the object [player]: move, run the
    projectile timer, integrate, clip.  (The health text it writes to the
    page is outside the model.) *)
Definition Player_update (delta_time : float) (w : World) : option World :=
  let p := player w in
  let w1 := with_player (with_body (Player_move (controller p) (body p)) p) w in
  match Player_fire delta_time w1 with
  | None => None
  | Some w2 =>
      let p2 := player w2 in
      Some (with_player
              (with_body (Player_clip (Body.update delta_time (body p2))) p2) w2)
  end.

(** [new Enemy()], where [rnd] is what [Math.random()] returns. *)
Definition new_Enemy (rnd : float) (w : World) : World :=
  let i := running_id w in
  let b := Body.with_position
             (Vec.mk (config.canvas_size_width * rnd)
                     (config.canvas_size_height - 500))
             (Body.fresh i) in
  with_entities (entities_set (player w) i (EEnemy b) (entities w))
    (with_running_id (S i) w).

(* ------------------------------------------------------------------ *)
(** * Class [enemySpawner] *)
(* ------------------------------------------------------------------ *)

(** [enemySpawner.update(delta_time)] on the spawner [s]. *)
Definition enemySpawner_update (delta_time rnd : float) (s : enemySpawner) (w : World)
  : World :=
  let t := spawner_timer s + delta_time in
  if JS.geb t enemySpawner_spawnRate then
    let w1 := with_enemy_spawner (Some (mkSpawner 0)) w in
    let w2 := new_Enemy rnd w1 in
    with_totEnemies (totEnemies w2 + 1) w2
  else with_enemy_spawner (Some (mkSpawner t)) w.

(* ------------------------------------------------------------------ *)
(** * Class [collisionHandler] *)
(* ------------------------------------------------------------------ *)

(** [checkCollision(entity1, entity2)]; the missing [return] of the
    source yields [undefined], which the caller's [&&] treats as false. *)
Definition checkCollision (entity1 entity2 : Body.t) : bool :=
  (Vec.x (Body.position entity1) <? Vec.x (Body.position entity2) + 12) &&
  JS.gtb (Vec.x (Body.position entity1) + 12) (Vec.x (Body.position entity2)) &&
  (Vec.y (Body.position entity1) <? Vec.y (Body.position entity2) + 12) &&
  JS.gtb (Vec.y (Body.position entity1) + 12) (Vec.y (Body.position entity2)).

(** [entity.health = entity.health - 50] on the object an entry refers to. *)
Definition Entity_damage (e : Entity) (w : World) : World :=
  match e with
  | EPlayer =>
      let p := player w in
      with_player (with_body (Body.with_health (Body.health (body p) - 50) (body p)) p) w
  | EEnemy b | EProjectile b =>
      with_entities
        (map (fun e' =>
                match e' with
                | EPlayer => EPlayer
                | EEnemy b' =>
                    if (Body.id b' =? Body.id b)%nat
                    then EEnemy (Body.with_health (Body.health b' - 50) b') else e'
                | EProjectile b' =>
                    if (Body.id b' =? Body.id b)%nat
                    then EProjectile (Body.with_health (Body.health b' - 50) b') else e'
                end) (entities w)) w
  end.

(** The body of the inner callback of [collisionHandler.update], for one
    ordered pair. *)
Definition collision_resolve (entity1 entity2 : Entity) (w : World) : World :=
  let b1 := Entity_body (player w) entity1 in
  let b2 := Entity_body (player w) entity2 in
  if checkCollision b1 b2 && negb (Body.id b1 =? Body.id b2)%nat then
    if (Body.id b1 =? 0)%nat then
      Body_remove (Body.id b2) (Entity_damage entity1 w)
    else if (Body.id b2 =? 0)%nat then
      Body_remove (Body.id b1) w
    else
      Body_remove (Body.id b2)
        (Body_remove (Body.id b1) (with_hitEnemies (hitEnemies w + 1) w))
  else w.

(** [collisionHandler.update(delta_time)]: both loops run over
    [Object.values(entities)]. *)
Definition collisionHandler_update (w : World) : World :=
  fold_left
    (fun w1 entity1 =>
       fold_left (fun w2 entity2 => collision_resolve entity1 entity2 w2)
                 (Object_values w1) w1)
    (Object_values w) w.

(* ------------------------------------------------------------------ *)
(** * Main section: [start], [update], [draw], [loop] *)
(* ------------------------------------------------------------------ *)

(** The first six assignments of [start()]. *)
Definition start_reset (w : World) : World :=
  with_totEnemies 0
    (with_timeElasped 0
       (with_hitEnemies 0
          (with_running_id 0
             (with_queue [] (with_entities [] w))))).

(** [new Player()]: the [Body] constructor takes the next id and registers
    the object, the [Player] constructor resets timer, controller and raw
    input and places the player. *)
Definition new_Player (w : World) : World :=
  let i := running_id w in
  let b := Body.with_position
             (Vec.mk (config.canvas_size_width / 2) (config.canvas_size_height - 100))
             (Body.fresh i) in
  let p := mkPlayer b (mkController 0 0 false) [] 0 in
  with_player p
    (with_entities (entities_set p i EPlayer (entities w))
       (with_running_id (S i) w)).

(** [start()] *)
Definition start (w : World) : World :=
  let w1 := new_Player (start_reset w) in
  mkWorld (last_time w1) (loop_count w1) (running_id w1) (entities w1)
    (queued_entities_for_removal w1) (player w1) (Some (mkSpawner 0)) true
    (hitEnemies w1) (timeElasped w1) (totEnemies w1) (score w1).

(** The script's globals when [start()] is first called: nothing is read
    from them but [last_time], [loop_count] and [score]; the player is a
    placeholder that [start] replaces. *)
Definition globals0 : World :=
  mkWorld None 0 0 [] [] (mkPlayer (Body.fresh 0) (mkController 0 0 false) [] 0)
    None false 0 0 0 0.

(** One call of an entity's [update], dispatched on its class. *)
Definition Entity_update (delta_time : float) (e : Entity) (w : World) : option World :=
  match e with
  | EPlayer => Player_update delta_time w
  | EEnemy b => Some (Enemy_update delta_time b w)
  | EProjectile b => Some (projectile_update b w)
  end.

(** [Object.values(entities).forEach(entity => entity.update(delta_time))]
    over the array [snapshot] that [Object.values] returned. *)
Fixpoint forEach_update (delta_time : float) (snapshot : list Entity) (w : World)
  : option World :=
  match snapshot with
  | [] => Some w
  | e :: rest =>
      match Entity_update delta_time e w with
      | None => None
      | Some w' => forEach_update delta_time rest w'
      end
  end.

(** [queued_entities_for_removal.forEach(id => delete entities[id])], then
    the queue is replaced by an empty one. *)
Definition flush_removals (w : World) : World :=
  with_queue []
    (with_entities
       (fold_left (fun es i => entities_delete (player w) i es)
                  (queued_entities_for_removal w) (entities w)) w).

(** [update] up to and including the spawner call. *)
Definition update_simulate (delta_time rnd : float) (w : World) : option World :=
  let w1 := with_player (InputHandler_pollController (player w)) w in
  match forEach_update delta_time (Object_values w1) w1 with
  | None => None
  | Some w2 =>
      let w3 := if collision_handler w2 then collisionHandler_update w2 else w2 in
      let w4 := flush_removals w3 in
      Some match enemy_spawner w4 with
           | Some s => enemySpawner_update delta_time rnd s w4
           | None => w4
           end
  end.

(** [update] up to the spawner call: poll, entity updates, collision
    resolution, removal.  Its result is the state the spawner call of the
    step finds. *)
Definition update_to_flush (delta_time : float) (w : World) : option World :=
  let w1 := with_player (InputHandler_pollController (player w)) w in
  match forEach_update delta_time (Object_values w1) w1 with
  | None => None
  | Some w2 =>
      let w3 := if collision_handler w2 then collisionHandler_update w2 else w2 in
      Some (flush_removals w3)
  end.

(** [player.isDead() && player.controller.action_1] *)
Definition restart_requested (w : World) : bool :=
  Body.isDead (body (player w)) && action_1 (controller (player w)).

(** The rest of [update]: restart, elapsed time and score. *)
Definition update_bookkeeping (delta_time : float) (w : World) : World :=
  let w1 := if restart_requested w then start w else w in
  let w2 := if negb (Body.isDead (body (player w1)))
            then with_timeElasped (timeElasped w1 + delta_time) w1 else w1 in
  with_score
    (JS.Math_floor (30 * (JS.of_Z (hitEnemies w2) / 2) + timeElasped w2)) w2.

(** [update(delta_time)]; [rnd] is the value of [Math.random()] should the
    spawner create an enemy in this call; [None] is an uncaught TypeError. *)
Definition update (delta_time rnd : float) (w : World) : option World :=
  match update_simulate delta_time rnd w with
  | None => None
  | Some w' => Some (update_bookkeeping delta_time w')
  end.

(** What [draw(graphics)] does to the globals: on the game-over screen it
    stops the spawner.  Painting is outside the model. *)
Definition draw (w : World) : World :=
  if Body.isDead (body (player w)) then with_enemy_spawner None w else w.

(** How a call of [loop] ends. *)
Inductive Outcome (A : Type) : Type :=
  | Returns (a : A)
  | Throws
  | OutOfFuel.
Arguments Returns {A} a.
Arguments Throws {A}.
Arguments OutOfFuel {A}.

(** One pass through the body of the [while] loop of [loop], but for the
    local [delta_time]: update, draw, note the time, count the pass.  The
    step with loop count [n] draws [rnd n] if it calls [Math.random()]. *)
Definition loop_body (rnd : nat -> float) (curr_time : float) (w : World)
  : option World :=
  match update config.update_rate_seconds (rnd (loop_count w)) w with
  | None => None
  | Some w1 =>
      let w2 := draw w1 in
      Some (with_loop_count (S (loop_count w2))
              (with_last_time (Some curr_time) w2))
  end.

(** The [while] loop of [loop], with [fuel] bounding the iterations.  The
    result carries the final value of the local [delta_time]. *)
Fixpoint loop_while (fuel : nat) (rnd : nat -> float) (curr_time delta_time : float)
  (w : World) : Outcome (World * float) :=
  if JS.gtb delta_time config.update_rate_seconds then
    match fuel with
    | O => OutOfFuel
    | S fuel' =>
        match loop_body rnd curr_time w with
        | None => Throws
        | Some w' =>
            loop_while fuel' rnd curr_time
              (delta_time - config.update_rate_seconds) w'
        end
    end
  else Returns (w, delta_time).

(** [n] passes through the loop body. *)
Fixpoint run_steps (n : nat) (rnd : nat -> float) (curr_time : float) (w : World)
  : option World :=
  match n with
  | O => Some w
  | S n' =>
      match loop_body rnd curr_time w with
      | None => None
      | Some w' => run_steps n' rnd curr_time w'
      end
  end.

(** [loop(curr_time)], [curr_time] in milliseconds. *)
Definition loop (fuel : nat) (rnd : nat -> float) (curr_time : float) (w : World)
  : Outcome (World * float) :=
  let curr_time := curr_time / 1000 in
  let last := match last_time w with None => curr_time | Some t => t end in
  let w1 := with_last_time (Some last) w in
  let delta_time := curr_time - last in
  loop_while fuel rnd curr_time delta_time w1.

(* ------------------------------------------------------------------ *)
(** * The collision test as a box overlap *)
(* ------------------------------------------------------------------ *)

(** An axis-aligned box, by its lower and upper bound on each axis. *)
Record Box : Set := mkBox {
  lo_x : float; hi_x : float;
  lo_y : float; hi_y : float
}.

(** Two boxes overlap when on each axis each one starts before the other
    ends. *)
Definition boxes_overlap (a b : Box) : bool :=
  (lo_x a <? hi_x b) && (lo_x b <? hi_x a) &&
  (lo_y a <? hi_y b) && (lo_y b <? hi_y a).

(** Follows the design document: the box with half-extent [h] per side
    centred on [p]. *)
Definition box_centred (h : float) (p : Vec.t) : Box :=
  mkBox (Vec.x p - h) (Vec.x p + h) (Vec.y p - h) (Vec.y p + h).

(** The box of width and height [side] whose lower corner is [p]. *)
Definition box_anchored (side : float) (p : Vec.t) : Box :=
  mkBox (Vec.x p) (Vec.x p + side) (Vec.y p) (Vec.y p + side).

(* ------------------------------------------------------------------ *)
(** * Notions used in the statements *)
(* ------------------------------------------------------------------ *)

(** The values an axis can take. *)
Definition axis_value (v : float) : Prop := In v [-1; 0; 1].

(** A point of the canvas, borders included. *)
Definition in_canvas (p : Vec.t) : Prop :=
  (0 <=? Vec.x p) = true /\ (Vec.x p <=? config.canvas_size_width) = true
  /\ (0 <=? Vec.y p) = true /\ (Vec.y p <=? config.canvas_size_height) = true.

(** [r] is [v] clamped to the interval from 0 to [bound]: 0 if [v] is at
    most 0, [bound] if [v] is at least [bound], and [v] itself if it lies
    strictly between.  (For a [v] that is not a number none of the three
    cases applies.) *)
Definition clamped (v bound r : float) : Prop :=
  ((v <=? 0) = true -> r = 0)
  /\ ((0 <? v) = true /\ (v <? bound) = true -> r = v)
  /\ ((bound <=? v) = true -> r = bound).

(** The state the player object is in between steps: velocity at rest,
    position on the canvas, axes at -1, 0 or 1. *)
Definition player_tidy (w : World) : Prop :=
  Body.velocity (body (player w)) = Vec.mk 0 0
  /\ in_canvas (Body.position (body (player w)))
  /\ axis_value (move_x (controller (player w)))
  /\ axis_value (move_y (controller (player w))).

(** Two states of a body that differ at most in [health], and not even
    there unless the body has id 0. *)
Definition same_body_but_health (b b' : Body.t) : Prop :=
  Body.id b' = Body.id b
  /\ Body.position b' = Body.position b
  /\ Body.velocity b' = Body.velocity b
  /\ Body.size b' = Body.size b
  /\ (Body.id b <> 0%nat -> Body.health b' = Body.health b).

(** The same for registry entries: same class, same object up to health. *)
Definition same_entity_but_health (e e' : Entity) : Prop :=
  match e, e' with
  | EPlayer, EPlayer => True
  | EEnemy b, EEnemy b' => same_body_but_health b b'
  | EProjectile b, EProjectile b' => same_body_but_health b b'
  | _, _ => False
  end.

(** What a run of collision resolution may change between [w] and [w']:
    the health of an id-0 object (downwards, in steps of 50, for the
    player), the removal queue (extended by nonzero ids) and the hit
    counter (upwards). *)
Record collision_frame (w w' : World) : Prop := mkFrame {
  cf_entities : Forall2 same_entity_but_health (entities w) (entities w');
  cf_player_body : same_body_but_health (body (player w)) (body (player w'));
  cf_controller : controller (player w') = controller (player w);
  cf_raw_input : raw_input (player w') = raw_input (player w);
  cf_timer : timer (player w') = timer (player w);
  cf_health : exists k : nat,
      Body.health (body (player w'))
        = (Body.health (body (player w)) - 50 * Z.of_nat k)%Z;
  cf_queue : exists added : list nat,
      queued_entities_for_removal w' = queued_entities_for_removal w ++ added
      /\ ~ In 0%nat added;
  cf_hits : (hitEnemies w <= hitEnemies w')%Z;
  cf_last_time : last_time w' = last_time w;
  cf_loop_count : loop_count w' = loop_count w;
  cf_running_id : running_id w' = running_id w;
  cf_enemy_spawner : enemy_spawner w' = enemy_spawner w;
  cf_collision_handler : collision_handler w' = collision_handler w;
  cf_timeElasped : timeElasped w' = timeElasped w;
  cf_totEnemies : totEnemies w' = totEnemies w;
  cf_score : score w' = score w
}.

(** The ordered pairs the two nested loops visit, in order. *)
Definition visits (w : World) : list (Entity * Entity) :=
  list_prod (Object_values w) (Object_values w).

(** The visit of an ordered pair runs the last branch of the resolution:
    the two collide, have different ids, and neither id is 0. *)
Definition hit_visit (p : Player) (v : Entity * Entity) : bool :=
  checkCollision (Entity_body p (fst v)) (Entity_body p (snd v))
  && negb (Entity_id p (fst v) =? Entity_id p (snd v))%nat
  && negb (Entity_id p (fst v) =? 0)%nat
  && negb (Entity_id p (snd v) =? 0)%nat.

(** The visit is one of the two orderings of the entities with ids [a]
    and [b]. *)
Definition visit_of (p : Player) (a b : nat) (v : Entity * Entity) : bool :=
  ((Entity_id p (fst v) =? a)%nat && (Entity_id p (snd v) =? b)%nat)
  || ((Entity_id p (fst v) =? b)%nat && (Entity_id p (snd v) =? a)%nat).

(** The visit of an ordered pair runs the first branch of the resolution
    on the player object: entity 1 is the player, with id 0, and collides
    with an entity of another id. *)
Definition damage_visit (p : Player) (v : Entity * Entity) : bool :=
  match fst v with
  | EPlayer =>
      checkCollision (body p) (Entity_body p (snd v))
      && negb (Body.id (body p) =? Entity_id p (snd v))%nat
      && (Body.id (body p) =? 0)%nat
  | _ => false
  end.

(** An entry that is not the player has a nonzero id. *)
Definition entity_nonzero (e : Entity) : Prop :=
  match e with
  | EPlayer => True
  | EEnemy b | EProjectile b => Body.id b <> 0%nat
  end.

(** The registry of a running session: the player has id 0 and is
    registered, no other entry has id 0, the next id is not 0, and id 0 is
    not queued for removal. *)
Definition registry_ok (w : World) : Prop :=
  Body.id (body (player w)) = 0%nat
  /\ In EPlayer (entities w)
  /\ Forall entity_nonzero (entities w)
  /\ running_id w <> 0%nat
  /\ ~ In 0%nat (queued_entities_for_removal w).

(** What the update of one entity, and so the whole first loop of
    [update], leaves alone: the player's id, the spawner and the spawn
    counter; and it adds no enemy to the registry. *)
Record entity_phase (w w' : World) : Prop := mkPhase {
  ep_player_id : Body.id (body (player w')) = Body.id (body (player w));
  ep_spawner : enemy_spawner w' = enemy_spawner w;
  ep_handler : collision_handler w' = collision_handler w;
  ep_totEnemies : totEnemies w' = totEnemies w;
  ep_loop_count : loop_count w' = loop_count w;
  ep_enemies : forall b', In (EEnemy b') (entities w') ->
      exists b, In (EEnemy b) (entities w) /\ Body.id b = Body.id b'
}.

(** The states a session passes through between two steps: after
    [start()], after a key event, after [loop] has noted the time, and
    after one iteration of its [while] loop (update, draw, counters). *)
Inductive reachable : World -> Prop :=
  | reach_start : reachable (start globals0)
  | reach_keydown (w : World) (k : Z) :
      reachable w ->
      reachable (with_player (InputHandler_keydown k (player w)) w)
  | reach_keyup (w : World) (k : Z) :
      reachable w ->
      reachable (with_player (InputHandler_keyup k (player w)) w)
  | reach_time (w : World) (t : float) :
      reachable w -> reachable (with_last_time (Some t) w)
  | reach_step (w w' : World) (rnd : nat -> float) (t : float) :
      reachable w -> loop_body rnd t w = Some w' -> reachable w'.

(* ------------------------------------------------------------------ *)
(** * Further notions *)
(* ------------------------------------------------------------------ *)

(** What an axis reads when the key that pulls it down and the key that
    pushes it up are, or are not, held. *)
Definition axis_net (neg pos : bool) : float :=
  match neg, pos with
  | true, true => 0
  | true, false => -1
  | false, true => 1
  | false, false => 0
  end.

(** The visit of an ordered pair queues its first entity: the two collide,
    have different ids, and the first is not id 0. *)
Definition queues_first (p : Player) (v : Entity * Entity) : bool :=
  checkCollision (Entity_body p (fst v)) (Entity_body p (snd v))
  && negb (Entity_id p (fst v) =? Entity_id p (snd v))%nat
  && negb (Entity_id p (fst v) =? 0)%nat.

(** The keys of the registry, in the order [Object.values] lists them. *)
Definition keys (w : World) : list nat :=
  map (Entity_id (player w)) (entities w).

(** The keys are strictly ascending and all below the next id. *)
Definition keys_ok (w : World) : Prop :=
  StronglySorted lt (keys w) /\ Forall (fun k => (k < running_id w)%nat) (keys w).

(** The spawner call of [update], [n] times in a row at the fixed step. *)
Fixpoint spawner_calls (n : nat) (rnd : float) (w : World) : World :=
  match n with
  | O => w
  | S n' =>
      let w' := spawner_calls n' rnd w in
      match enemy_spawner w' with
      | Some s => enemySpawner_update config.update_rate_seconds rnd s w'
      | None => w'
      end
  end.

(** A timer after [n] additions of the fixed step. *)
Fixpoint timer_after (n : nat) (t : float) : float :=
  match n with
  | O => t
  | S n' => timer_after n' t + config.update_rate_seconds
  end.

(* ------------------------------------------------------------------ *)
(** * Facts about binary64 numbers *)
(* ------------------------------------------------------------------ *)

Module FloatFacts.

Open Scope float_scope.

(** The mantissa comparison of the specification, with the lemmas of
    [Pos] restated on the constant the specification uses. *)
Lemma mant_compare_antisym (p q : positive) :
  PosDef.Pos.compare_cont Eq p q = CompOpp (PosDef.Pos.compare_cont Eq q p).
Proof. exact (ZC4 p q). Qed.

Lemma mant_compare_refl (p : positive) : PosDef.Pos.compare_cont Eq p p = Eq.
Proof. exact (Pos.compare_cont_refl p Eq). Qed.

Lemma SFcompare_antisym (a b : spec_float) :
  SFcompare b a = option_map CompOpp (SFcompare a b).
Proof.
  destruct a as [sa|sa| |sa ma ea], b as [sb|sb| |sb mb eb];
    try destruct sa; try destruct sb; try reflexivity;
    simpl; rewrite (Z.compare_antisym ea eb);
    destruct (ea ?= eb)%Z eqn:E; simpl; try reflexivity;
    rewrite (mant_compare_antisym mb ma);
    destruct (PosDef.Pos.compare_cont Eq ma mb); reflexivity.
Qed.

Lemma SFcompare_refl (a : spec_float) :
  a <> S754_nan -> SFcompare a a = Some Eq.
Proof.
  destruct a as [s|s| |s m e]; try destruct s; intros H;
    try reflexivity; try congruence;
    simpl; rewrite Z.compare_refl, mant_compare_refl; reflexivity.
Qed.

Lemma SFcompare_nan_l (a : spec_float) : SFcompare S754_nan a = None.
Proof. reflexivity. Qed.

Lemma SFcompare_nan_r (a : spec_float) : SFcompare a S754_nan = None.
Proof. destruct a as [s|s| |s m e]; reflexivity. Qed.

Lemma SFcompare_some (a b : spec_float) :
  a <> S754_nan -> b <> S754_nan -> exists c, SFcompare a b = Some c.
Proof.
  destruct a as [sa|sa| |sa ma ea], b as [sb|sb| |sb mb eb];
    intros Ha Hb; try congruence; simpl; eexists; reflexivity.
Qed.

(** [is_nan] recognises exactly the NaN of the specification. *)
Lemma is_nan_spec (f : float) :
  is_nan f = true <-> Prim2SF f = S754_nan.
Proof.
  unfold is_nan. rewrite FloatAxioms.eqb_spec. unfold SFeqb. split.
  - intros H. destruct (Prim2SF f) as [s|s| |s m e] eqn:E; try reflexivity;
      rewrite SFcompare_refl in H by congruence; discriminate.
  - intros ->. reflexivity.
Qed.

Lemma is_nan_false (f : float) :
  is_nan f = false <-> Prim2SF f <> S754_nan.
Proof.
  rewrite <- is_nan_spec. destruct (is_nan f); split; congruence.
Qed.

Lemma ltb_irrefl (a : float) : (a <? a) = false.
Proof.
  rewrite ltb_spec. unfold SFltb.
  destruct (Prim2SF a) as [s|s| |s m e] eqn:E; try reflexivity;
    rewrite SFcompare_refl by congruence; reflexivity.
Qed.

Lemma ltb_asym (a b : float) : (a <? b) = true -> (b <? a) = false.
Proof.
  rewrite !ltb_spec. unfold SFltb.
  rewrite (SFcompare_antisym (Prim2SF a) (Prim2SF b)).
  destruct (SFcompare (Prim2SF a) (Prim2SF b)) as [[ | | ]|]; simpl; congruence.
Qed.

Lemma ltb_leb (a b : float) : (a <? b) = true -> (a <=? b) = true.
Proof.
  rewrite ltb_spec, leb_spec. unfold SFltb, SFleb.
  destruct (SFcompare (Prim2SF a) (Prim2SF b)) as [[ | | ]|]; congruence.
Qed.

Lemma leb_refl (a : float) : is_nan a = false -> (a <=? a) = true.
Proof.
  intros H. apply is_nan_false in H.
  rewrite leb_spec. unfold SFleb. rewrite SFcompare_refl by assumption. reflexivity.
Qed.

(** Two numbers neither of which is below the other compare equal. *)
Lemma not_ltb_leb (a b : float) :
  is_nan a = false -> is_nan b = false ->
  (a <? b) = false -> (b <? a) = false -> (a <=? b) = true /\ (b <=? a) = true.
Proof.
  intros Ha Hb. apply is_nan_false in Ha. apply is_nan_false in Hb.
  rewrite !ltb_spec, !leb_spec. unfold SFltb, SFleb.
  rewrite (SFcompare_antisym (Prim2SF a) (Prim2SF b)).
  destruct (SFcompare_some _ _ Ha Hb) as [c ->].
  destruct c; simpl; intros; split; congruence.
Qed.

Lemma ltb_nan_l (a b : float) : is_nan a = true -> (a <? b) = false.
Proof.
  intros H. apply is_nan_spec in H. rewrite ltb_spec. unfold SFltb. rewrite H.
  reflexivity.
Qed.

Lemma ltb_nan_r (a b : float) : is_nan b = true -> (a <? b) = false.
Proof.
  intros H. apply is_nan_spec in H. rewrite ltb_spec. unfold SFltb. rewrite H.
  rewrite SFcompare_nan_r. reflexivity.
Qed.

(** Anything above a positive number is positive. *)
Lemma ltb_pos_trans (c a : float) :
  (0 <? c) = true -> (c <? a) = true -> (0 <? a) = true.
Proof.
  rewrite !ltb_spec. unfold SFltb.
  change (Prim2SF 0) with (S754_zero false).
  destruct (Prim2SF c) as [sc|sc| |sc mc ec], (Prim2SF a) as [sa|sa| |sa ma ea];
    try destruct sc; try destruct sa; simpl; try congruence;
    destruct (ec ?= ea)%Z; try congruence;
    destruct (PosDef.Pos.compare_cont Eq mc ma); simpl; congruence.
Qed.


Lemma ltb_not_nan_r (a b : float) : (a <? b) = true -> is_nan b = false.
Proof.
  intros H. destruct (is_nan b) eqn:E; [|reflexivity].
  rewrite (ltb_nan_r a b E) in H. discriminate.
Qed.

(** *** Rounding never produces NaN *)

Lemma iter_pos_invariant (A : Type) (P : A -> Prop) (f : A -> A) :
  (forall a, P a -> P (f a)) ->
  forall n a, P a -> P (SpecFloat.iter_pos f n a).
Proof.
  intros Hf. induction n as [n IH|n IH|]; intros a Ha; simpl; auto.
Qed.

Lemma shr_1_nonneg (mrs : shr_record) :
  (0 <= shr_m mrs)%Z -> (0 <= shr_m (shr_1 mrs))%Z.
Proof.
  destruct mrs as [m r s]. simpl.
  destruct m as [|[p|p|]|[p|p|]]; simpl; lia.
Qed.

Lemma shr_nonneg (mrs : shr_record) (e n : Z) :
  (0 <= shr_m mrs)%Z -> (0 <= shr_m (fst (shr mrs e n)))%Z.
Proof.
  intros H. unfold shr. destruct n as [|p|p]; simpl; try assumption.
  apply iter_pos_invariant with (P := fun r => (0 <= shr_m r)%Z);
    auto using shr_1_nonneg.
Qed.

Lemma shr_fexp_nonneg (m e : Z) (l : location) :
  (0 <= m)%Z -> (0 <= shr_m (fst (shr_fexp prec emax m e l)))%Z.
Proof.
  intros H. unfold shr_fexp. apply shr_nonneg.
  destruct l as [|[ | | ]]; simpl; assumption.
Qed.

Lemma round_nearest_even_nonneg (m : Z) (l : location) :
  (0 <= m)%Z -> (0 <= round_nearest_even m l)%Z.
Proof.
  intros H. destruct l as [|[ | | ]]; simpl; try assumption.
  - destruct (Z.even m); lia.
  - lia.
Qed.

Lemma binary_round_aux_not_nan (sx : bool) (mx ex : Z) (lx : location) :
  (0 <= mx)%Z -> binary_round_aux prec emax sx mx ex lx <> S754_nan.
Proof.
  intros H. unfold binary_round_aux.
  pose proof (shr_fexp_nonneg mx ex lx H) as H1.
  destruct (shr_fexp prec emax mx ex lx) as [mrs' e'].
  simpl in H1.
  pose proof (shr_fexp_nonneg _ e' loc_Exact
                (round_nearest_even_nonneg _ (loc_of_shr_record mrs') H1)) as H2.
  destruct (shr_fexp prec emax _ e' loc_Exact) as [mrs'' e''].
  simpl in H2.
  destruct (shr_m mrs'') as [|p|p]; try discriminate.
  - destruct (e'' <=? emax - prec)%Z; discriminate.
  - lia.
Qed.

Lemma binary_normalize_not_nan (m e : Z) (sz : bool) :
  binary_normalize prec emax m e sz <> S754_nan.
Proof.
  unfold binary_normalize, binary_round.
  destruct m as [|p|p]; try discriminate;
    destruct (shl_align _ _ _) as [mz ez];
    apply binary_round_aux_not_nan; lia.
Qed.

Lemma SFadd_finite_not_nan (a b : spec_float) :
  a <> S754_nan -> JS.SF_finite b = true -> SF64add a b <> S754_nan.
Proof.
  unfold SF64add, SFadd.
  destruct a as [sa|sa| |sa ma ea], b as [sb|sb| |sb mb eb];
    intros Ha Hb; try discriminate; try congruence.
  - destruct sa, sb; discriminate.
  - apply binary_normalize_not_nan.
Qed.

(** Adding a finite number to a number gives a number. *)
Lemma add_finite_not_nan (a b : float) :
  is_nan a = false -> JS.isFinite b = true -> is_nan (a + b) = false.
Proof.
  intros Ha Hb. apply is_nan_false. rewrite add_spec.
  apply SFadd_finite_not_nan; [apply is_nan_false; assumption|assumption].
Qed.

(** A finite number times zero is a zero. *)
Lemma mul_zero_finite (a : float) :
  JS.isFinite a = true -> JS.isFinite (a * 0) = true.
Proof.
  unfold JS.isFinite. rewrite mul_spec.
  change (Prim2SF 0) with (S754_zero false).
  destruct (Prim2SF a) as [sa|sa| |sa ma ea]; intros H; try discriminate; reflexivity.
Qed.

(** *** [Math.max], [Math.min] and clipping *)

Lemma Math_max_0 (v : float) :
  is_nan v = false ->
  JS.Math_max 0 v = if 0 <? v then v else 0.
Proof.
  intros Hv. unfold JS.Math_max. rewrite Hv. simpl.
  destruct (0 <? v); [reflexivity|].
  destruct (v <? 0); reflexivity.
Qed.

Lemma Math_max_nan_r (a v : float) : is_nan v = true -> JS.Math_max a v = nan.
Proof.
  intros Hv. unfold JS.Math_max. rewrite Hv, orb_true_r. reflexivity.
Qed.

Lemma Math_min_nan_l (b : float) : JS.Math_min nan b = nan.
Proof. reflexivity. Qed.

End FloatFacts.

Import FloatFacts.

(* ------------------------------------------------------------------ *)
(** * Clipping to the canvas *)
(* ------------------------------------------------------------------ *)

Lemma clip_nan (v bound : float) : is_nan v = true -> clip v bound = nan.
Proof.
  intros Hv. unfold clip. rewrite (Math_max_nan_r 0 v Hv). apply Math_min_nan_l.
Qed.

(** The three outcomes of clipping a number against a positive bound. *)
Lemma clip_cases (v bound : float) :
  is_nan v = false -> (0 <? bound) = true ->
  (clip v bound = v /\ (0 <? v) = true /\ (bound <? v) = false)
  \/ (clip v bound = bound /\ (0 <? v) = true /\ (v <? bound) = false)
  \/ (clip v bound = 0 /\ (0 <? v) = false).
Proof.
  intros Hv Hb. pose proof (ltb_not_nan_r _ _ Hb) as Hnb.
  unfold clip. rewrite (Math_max_0 v Hv).
  destruct (0 <? v) eqn:E0.
  - unfold JS.Math_min. rewrite Hv, Hnb. simpl.
    destruct (v <? bound) eqn:E1.
    + left. auto using ltb_asym.
    + destruct (bound <? v) eqn:E2.
      * right; left. auto.
      * destruct (get_sign v); [left|right; left]; auto.
  - right; right. unfold JS.Math_min. rewrite Hnb, Hb. simpl. auto.
Qed.

(** A clipped number lies between 0 and the bound. *)
Lemma clip_bounds (v bound : float) :
  is_nan v = false -> (0 <? bound) = true ->
  (0 <=? clip v bound) = true /\ (clip v bound <=? bound) = true.
Proof.
  intros Hv Hb. pose proof (ltb_not_nan_r _ _ Hb) as Hnb.
  destruct (clip_cases v bound Hv Hb) as [(-> & H0 & H1)|[(-> & H0 & H1)|(-> & H0)]].
  - split; [apply ltb_leb; assumption|].
    destruct (v <? bound) eqn:E; [apply ltb_leb; assumption|].
    apply (not_ltb_leb v bound Hv Hnb E H1).
  - split; [apply ltb_leb; assumption|apply leb_refl; assumption].
  - split; [reflexivity|apply ltb_leb; assumption].
Qed.

(** A number exceeds its clipped value exactly when it exceeds the bound. *)
Lemma gtb_clip (v bound : float) :
  (0 <? bound) = true -> JS.gtb v (clip v bound) = (bound <? v).
Proof.
  intros Hb. unfold JS.gtb. destruct (is_nan v) eqn:Hv.
  - rewrite (clip_nan v bound Hv), (ltb_nan_r bound v Hv).
    apply ltb_nan_l. reflexivity.
  - destruct (clip_cases v bound Hv Hb) as [(-> & H0 & H1)|[(-> & H0 & H1)|(-> & H0)]].
    + rewrite ltb_irrefl, H1. reflexivity.
    + reflexivity.
    + rewrite H0. symmetry. destruct (bound <? v) eqn:E; [|reflexivity].
      rewrite (ltb_pos_trans bound v Hb E) in H0. discriminate.
Qed.

Lemma ltb_not_leb (a b : float) : (a <? b) = true -> (b <=? a) = false.
Proof.
  rewrite ltb_spec, leb_spec. unfold SFltb, SFleb.
  rewrite (SFcompare_antisym (Prim2SF a) (Prim2SF b)).
  destruct (SFcompare (Prim2SF a) (Prim2SF b)) as [[ | | ]|]; simpl; congruence.
Qed.

(** Anything at least a positive number is positive. *)
Lemma leb_pos_trans (c a : float) :
  (0 <? c) = true -> (c <=? a) = true -> (0 <? a) = true.
Proof.
  rewrite !ltb_spec, leb_spec. unfold SFltb, SFleb.
  change (Prim2SF 0) with (S754_zero false).
  destruct (Prim2SF c) as [sc|sc| |sc mc ec], (Prim2SF a) as [sa|sa| |sa ma ea];
    try destruct sc; try destruct sa; simpl; try congruence;
    destruct (ec ?= ea)%Z; try congruence;
    destruct (PosDef.Pos.compare_cont Eq mc ma); simpl; congruence.
Qed.

(** A number that compares equal to a positive number is that number. *)
Lemma leb_antisym_pos (b v : float) :
  (0 <? b) = true -> (b <=? v) = true -> (b <? v) = false -> v = b.
Proof.
  rewrite !ltb_spec, leb_spec. unfold SFltb, SFleb.
  change (Prim2SF 0) with (S754_zero false).
  intros H0 H1 H2. apply Prim2SF_inj.
  destruct (Prim2SF b) as [sb|sb| |sb mb eb], (Prim2SF v) as [sv|sv| |sv mv ev];
    try destruct sb; try destruct sv; simpl in *; try congruence.
  destruct (eb ?= ev)%Z eqn:E; try congruence.
  apply Z.compare_eq in E. subst ev.
  destruct (PosDef.Pos.compare_cont Eq mb mv) eqn:M; try congruence.
  apply (Pos.compare_eq mb mv) in M. subst mv. reflexivity.
Qed.

(** Clipping against a positive bound clamps: the three cases of
    [clamped], which between them cover every number. *)
Lemma clip_clamped (v bound : float) :
  (0 <? bound) = true -> clamped v bound (clip v bound).
Proof.
  intros Hb. unfold clamped. destruct (is_nan v) eqn:Hv.
  - assert (L1 : (v <=? 0) = false).
    { destruct (v <=? 0) eqn:E; [|reflexivity].
      exfalso. apply is_nan_spec in Hv.
      rewrite leb_spec in E. unfold SFleb in E. rewrite Hv in E. discriminate. }
    assert (L2 : (bound <=? v) = false).
    { destruct (bound <=? v) eqn:E; [|reflexivity].
      pose proof (leb_pos_trans _ _ Hb E) as P.
      rewrite (ltb_nan_r 0 v Hv) in P. discriminate. }
    rewrite L1, L2, (ltb_nan_r 0 v Hv).
    split; [discriminate|]. split; [intros [? _]; discriminate|discriminate].
  - destruct (clip_cases v bound Hv Hb) as [(-> & H0 & H1)|[(-> & H0 & H1)|(-> & H0)]].
    + split; [rewrite (ltb_not_leb _ _ H0); discriminate|].
      split; [reflexivity|].
      intros H. apply leb_antisym_pos; assumption.
    + split; [rewrite (ltb_not_leb _ _ H0); discriminate|].
      split; [rewrite H1; intros [_ ?]; discriminate|reflexivity].
    + split; [reflexivity|].
      split; [rewrite H0; intros [? _]; discriminate|].
      intros H. rewrite (leb_pos_trans _ _ Hb H) in H0. discriminate.
Qed.

(** Every number falls under one of the three cases of [clamped]. *)
Lemma clamped_total (v bound : float) :
  is_nan v = false -> is_nan bound = false ->
  (v <=? 0) = true
  \/ ((0 <? v) = true /\ (v <? bound) = true)
  \/ (bound <=? v) = true.
Proof.
  intros Hv Hb.
  destruct (0 <? v) eqn:E0.
  - destruct (v <? bound) eqn:E1; [auto|].
    destruct (bound <? v) eqn:E2; [right; right; apply ltb_leb; exact E2|].
    right; right. apply (not_ltb_leb v bound Hv Hb E1 E2).
  - destruct (v <? 0) eqn:E1; [left; apply ltb_leb; exact E1|].
    left. apply (not_ltb_leb 0 v eq_refl Hv E0 E1).
Qed.

(* ------------------------------------------------------------------ *)
(** * The collision test *)
(* ------------------------------------------------------------------ *)

(** The collision test reads nothing of an entity but its position. *)
Lemma checkCollision_position (e1 e2 e1' e2' : Body.t) :
  Body.position e1 = Body.position e1' ->
  Body.position e2 = Body.position e2' ->
  checkCollision e1 e2 = checkCollision e1' e2'.
Proof.
  intros H1 H2. unfold checkCollision. rewrite H1, H2. reflexivity.
Qed.

(** The test gives the same answer on the swapped pair. *)
Lemma checkCollision_sym (e1 e2 : Body.t) :
  checkCollision e1 e2 = checkCollision e2 e1.
Proof.
  unfold checkCollision, JS.gtb.
  destruct (Vec.x (Body.position e1) <? Vec.x (Body.position e2) + 12),
           (Vec.x (Body.position e2) <? Vec.x (Body.position e1) + 12),
           (Vec.y (Body.position e1) <? Vec.y (Body.position e2) + 12),
           (Vec.y (Body.position e2) <? Vec.y (Body.position e1) + 12);
    reflexivity.
Qed.

(** C1, as the design document states it, fails: two entities 15 units
    apart on the x axis have overlapping boxes of half-extent 12 (the boxes
    reach 24 units), but [checkCollision] reports no collision. *)
Lemma C1_half_extent_12_fails :
  let e1 := Body.with_position (Vec.mk 0 0) (Body.fresh 1) in
  let e2 := Body.with_position (Vec.mk 15 0) (Body.fresh 2) in
  boxes_overlap (box_centred 12 (Body.position e1)) (box_centred 12 (Body.position e2))
    = true
  /\ checkCollision e1 e2 = false.
Proof. split; vm_compute; reflexivity. Qed.

(** C1 (amended): [checkCollision] reports a collision exactly when the two
    boxes of width and height 12 whose lower corners are the two positions
    overlap (so the positions are less than 12 apart on both axes, a box of
    half-extent 6 around each), and the answer does not depend on the
    entities' [size], hence not on [half_size]. *)
Theorem C1_checkCollision_boxes (e1 e2 : Body.t) :
  checkCollision e1 e2
    = boxes_overlap (box_anchored 12 (Body.position e1))
                    (box_anchored 12 (Body.position e2))
  /\ forall s1 s2 : Size.t,
       checkCollision (Body.with_size s1 e1) (Body.with_size s2 e2)
         = checkCollision e1 e2.
Proof.
  split.
  - unfold checkCollision, boxes_overlap, box_anchored, JS.gtb. simpl. reflexivity.
  - intros s1 s2. apply checkCollision_position; reflexivity.
Qed.

(* ------------------------------------------------------------------ *)
(** * Storing an updated body in the registry *)
(* ------------------------------------------------------------------ *)

Lemma entities_store_enemy (b b' : Body.t) (es : list Entity) :
  Body.id b' = Body.id b ->
  In (EEnemy b) es -> In (EEnemy b') (entities_store b' es).
Proof.
  intros Hid Hin. unfold entities_store. apply in_map_iff.
  exists (EEnemy b). split; [|assumption].
  rewrite Hid, Nat.eqb_refl. reflexivity.
Qed.

(* ------------------------------------------------------------------ *)
(** * Enemy behaviour *)
(* ------------------------------------------------------------------ *)

(** The two assignments at the top of [Enemy.update] put the velocity at
    2 downwards and move the enemy by it. *)
Lemma Enemy_advance_spec (b : Body.t) :
  Body.position (Enemy_advance b)
    = Vec.mk (Vec.x (Body.position b)) (Vec.y (Body.position b) + 2)
  /\ Body.velocity (Enemy_advance b) = Vec.mk (Vec.x (Body.velocity b)) 2
  /\ Body.id (Enemy_advance b) = Body.id b.
Proof. repeat split. Qed.

(** C4, as stated, fails: a freshly spawned enemy (y = 0) is at
    y = 2 + 2/60 after one update with the fixed step, not at y = 2,
    because [super.update] integrates the velocity that the direct
    assignment has already applied. *)
Lemma C4_enemy_step_is_not_2 :
  let w := new_Enemy 0.5 (start globals0) in
  let b := Body.with_position (Vec.mk 150 0) (Body.fresh 1) in
  entities w = [EPlayer; EEnemy b]
  /\ exists b', entities (Enemy_update config.update_rate_seconds b w)
                  = [EPlayer; EEnemy b']
       /\ (Vec.y (Body.position b') =? Vec.y (Body.position b) + 2) = false
       /\ Vec.y (Body.position b') = 2 + config.update_rate_seconds * 2.
Proof.
  split; [vm_compute; reflexivity|].
  eexists. split; [vm_compute; reflexivity|].
  split; vm_compute; reflexivity.
Qed.

(** C4 (amended): on every update an enemy stored in the registry first
    moves down by 2, is queued for removal exactly when its y, so advanced,
    exceeds the canvas height, and is then moved by [delta_time] times its
    velocity, which adds [delta_time * 2] to y: the step is
    2 + 2 * delta_time, and the removal check sees y + 2. *)
Theorem C4_enemy_update (delta_time : float) (b : Body.t) (w : World) :
  In (EEnemy b) (entities w) ->
  let y := Vec.y (Body.position b) in
  let w' := Enemy_update delta_time b w in
  (exists b',
      In (EEnemy b') (entities w')
      /\ Body.id b' = Body.id b
      /\ Vec.y (Body.position b') = (y + 2) + delta_time * 2
      /\ Vec.x (Body.position b')
           = Vec.x (Body.position b) + delta_time * Vec.x (Body.velocity b))
  /\ queued_entities_for_removal w'
       = if config.canvas_size_height <? y + 2
         then queued_entities_for_removal w ++ [Body.id b]
         else queued_entities_for_removal w.
Proof.
  intros Hin y w'. split.
  - exists (Body.update delta_time (Enemy_advance b)).
    split; [|repeat split].
    subst w'. unfold Enemy_update.
    set (b3 := Body.update delta_time (Enemy_advance b)).
    destruct (JS.gtb _ _); simpl; apply entities_store_enemy with (b := b);
      auto.
  - subst w'. unfold Enemy_update.
    rewrite gtb_clip by reflexivity.
    change (Vec.y (Body.position (Enemy_advance b))) with (y + 2).
    destruct (config.canvas_size_height <? y + 2); reflexivity.
Qed.

(** The hypothesis of C4 holds for the first enemy of a session. *)
Lemma C4_enemy_update_witness :
  let w := new_Enemy 0.5 (start globals0) in
  let b := Body.with_position (Vec.mk 150 0) (Body.fresh 1) in
  queued_entities_for_removal (Enemy_update config.update_rate_seconds b w)
    = if config.canvas_size_height <? Vec.y (Body.position b) + 2
      then queued_entities_for_removal w ++ [Body.id b]
      else queued_entities_for_removal w.
Proof.
  intros w b.
  apply (C4_enemy_update config.update_rate_seconds b w).
  vm_compute. right. left. reflexivity.
Defined.

(* ------------------------------------------------------------------ *)
(** * Player behaviour *)
(* ------------------------------------------------------------------ *)

(** Polling leaves every axis at -1, 0 or 1, whatever keys are down. *)
Lemma pollController_axes (p : Player) :
  axis_value (move_x (controller (InputHandler_pollController p)))
  /\ axis_value (move_y (controller (InputHandler_pollController p))).
Proof.
  unfold InputHandler_pollController, axis_value. simpl.
  unfold raw_input_pressed. simpl.
  destruct (existsb (Z.eqb 32) (raw_input p)),
           (existsb (Z.eqb 65) (raw_input p)),
           (existsb (Z.eqb 68) (raw_input p)),
           (existsb (Z.eqb 83) (raw_input p)),
           (existsb (Z.eqb 87) (raw_input p));
    simpl; split; vm_compute; tauto.
Qed.

(** The timer part of [Player.update] touches neither the player's body
    nor its controller. *)
Lemma Player_fire_player (delta_time : float) (w w' : World) :
  Player_fire delta_time w = Some w' ->
  body (player w') = body (player w)
  /\ controller (player w') = controller (player w)
  /\ raw_input (player w') = raw_input (player w).
Proof.
  unfold Player_fire.
  destruct (JS.geb _ _).
  - simpl. destruct (action_1 (controller (player w))).
    + unfold new_projectile. simpl.
      destruct (entities_get _ _ _); [|discriminate].
      intros H. injection H as <-. simpl. auto.
    + intros H. injection H as <-. simpl. auto.
  - intros H. injection H as <-. simpl. auto.
Qed.

(** What [Player.update] does to the player's own body: move, integrate,
    clip. *)
Lemma Player_update_body (delta_time : float) (w w' : World) :
  Player_update delta_time w = Some w' ->
  body (player w')
    = Player_clip (Body.update delta_time
                     (Player_move (controller (player w)) (body (player w)))).
Proof.
  unfold Player_update.
  destruct (Player_fire delta_time _) as [w2|] eqn:E; [|discriminate].
  intros H. injection H as <-. simpl.
  apply Player_fire_player in E. destruct E as (-> & _). reflexivity.
Qed.

(** The diagonal displacement [Math.sqrt(speed**2 + speed**2)] is
    speed times the square root of 2. *)
Lemma Player_diagonal_speed :
  JS.Math_sqrt (Player_speed * Player_speed + Player_speed * Player_speed)
    = Player_speed * JS.Math_sqrt 2.
Proof. vm_compute. reflexivity. Qed.

(** C5: with both axes in {-1, 0, 1} and the velocity at rest, the
    movement of [Player.update] falls into exactly one of: [move_y == 0]
    (x moves by speed * move_x, which is no move when [move_x] is 0 too),
    [move_x == 0] (y moves by speed * move_y), or one of the four
    diagonals (each axis moves by speed * sqrt 2 * move_axis, halved).  The
    velocity is back at zero afterwards, so the integration that follows
    adds [delta_time * 0], and this is the body [Player.update] clips. *)
Theorem C5_player_move (delta_time : float) (c : Controller) (b : Body.t) :
  axis_value (move_x c) -> axis_value (move_y c) ->
  Body.velocity b = Vec.mk 0 0 ->
  let x := Vec.x (Body.position b) in
  let y := Vec.y (Body.position b) in
  let b' := Player_move c b in
  (move_y c = 0 ->
     Body.position b' = Vec.mk (x + Player_speed * move_x c) y)
  /\ (move_y c <> 0 -> move_x c = 0 ->
     Body.position b' = Vec.mk x (y + Player_speed * move_y c))
  /\ (move_x c <> 0 -> move_y c <> 0 ->
     Body.position b'
       = Vec.mk (x + Player_speed * JS.Math_sqrt 2 * move_x c / 2)
                (y + Player_speed * JS.Math_sqrt 2 * move_y c / 2))
  /\ Body.velocity b' = Vec.mk 0 0
  /\ Body.position (Body.update delta_time b')
       = Vec.mk (Vec.x (Body.position b') + delta_time * 0)
                (Vec.y (Body.position b') + delta_time * 0)
  /\ forall w w', body (player w) = b -> controller (player w) = c ->
       Player_update delta_time w = Some w' ->
       body (player w') = Player_clip (Body.update delta_time b').
Proof.
  intros Hx Hy Hv x y b'.
  assert (Hvel : Body.velocity b' = Vec.mk 0 0).
  { subst b'. destruct c as [mx my a], b as [i p v s h].
    unfold axis_value in Hx, Hy. simpl in Hx, Hy, Hv. subst v.
    destruct Hx as [<-|[<-|[<-|[]]]]; destruct Hy as [<-|[<-|[<-|[]]]];
      reflexivity. }
  repeat split.
  - intros H0. subst b'. unfold Player_move. rewrite H0. reflexivity.
  - intros Hn H0. subst b' x y. destruct c as [mx my a].
    unfold axis_value in Hy. simpl in Hy, Hn, H0 |- *. subst mx.
    destruct Hy as [<-|[<-|[<-|[]]]]; try reflexivity.
    contradiction Hn. reflexivity.
  - intros Hnx Hny. subst b' x y. destruct c as [mx my a].
    unfold axis_value in Hx, Hy. simpl in Hx, Hy, Hnx, Hny |- *.
    unfold Player_move, Player_move_diagonal.
    rewrite Player_diagonal_speed. simpl.
    destruct Hx as [<-|[<-|[<-|[]]]]; destruct Hy as [<-|[<-|[<-|[]]]];
      try reflexivity; try (contradiction Hnx; reflexivity);
      try (contradiction Hny; reflexivity).
  - exact Hvel.
  - unfold Body.update. simpl. rewrite Hvel. reflexivity.
  - intros w w' Hb Hc Hu. apply Player_update_body in Hu.
    rewrite Hu, Hb, Hc. reflexivity.
Qed.

(** C5 applies to the player of a fresh session holding right and down. *)
Lemma C5_player_move_witness :
  let c := mkController 1 1 false in
  let b := body (player (start globals0)) in
  Body.velocity (Player_move c b) = Vec.mk 0 0.
Proof.
  intros c b.
  apply (C5_player_move config.update_rate_seconds c b).
  - unfold axis_value. simpl. auto.
  - unfold axis_value. simpl. auto.
  - reflexivity.
Defined.

(** After the movement cascade the player's coordinates are still numbers
    and its velocity is at rest. *)
Lemma Player_move_not_nan (c : Controller) (b : Body.t) :
  axis_value (move_x c) -> axis_value (move_y c) ->
  Body.velocity b = Vec.mk 0 0 ->
  is_nan (Vec.x (Body.position b)) = false ->
  is_nan (Vec.y (Body.position b)) = false ->
  is_nan (Vec.x (Body.position (Player_move c b))) = false
  /\ is_nan (Vec.y (Body.position (Player_move c b))) = false
  /\ Body.velocity (Player_move c b) = Vec.mk 0 0.
Proof.
  intros Hx Hy Hv Nx Ny.
  destruct c as [mx my a], b as [i [px py] v s h].
  unfold axis_value in Hx, Hy. simpl in Hx, Hy, Hv, Nx, Ny. subst v.
  destruct Hx as [<-|[<-|[<-|[]]]]; destruct Hy as [<-|[<-|[<-|[]]]];
    (split; [|split; [|reflexivity]]);
    first [ exact Nx | exact Ny
          | apply add_finite_not_nan; [assumption|reflexivity] ].
Qed.

(** After [Player.update] the player's position lies on the canvas.  It
    holds for every position whose coordinates are numbers (clipping maps
    NaN to NaN), for every controller state the input handler can
    produce, with the velocity at rest as the update leaves it, and any
    finite [delta_time]. *)
Lemma Player_update_in_canvas (delta_time : float) (w w' : World) :
  Player_update delta_time w = Some w' ->
  axis_value (move_x (controller (player w))) ->
  axis_value (move_y (controller (player w))) ->
  Body.velocity (body (player w)) = Vec.mk 0 0 ->
  is_nan (Vec.x (Body.position (body (player w)))) = false ->
  is_nan (Vec.y (Body.position (body (player w)))) = false ->
  JS.isFinite delta_time = true ->
  in_canvas (Body.position (body (player w')))
  /\ Body.velocity (body (player w')) = Vec.mk 0 0.
Proof.
  intros Hu Hx Hy Hv Nx Ny Hdt.
  apply Player_update_body in Hu. rewrite Hu.
  destruct (Player_move_not_nan _ _ Hx Hy Hv Nx Ny) as (Mx & My & Mv).
  unfold Player_clip, Body.update, in_canvas. simpl. rewrite Mv. simpl.
  pose proof (mul_zero_finite delta_time Hdt) as Hz.
  destruct (clip_bounds _ config.canvas_size_width
              (add_finite_not_nan _ _ Mx Hz) eq_refl) as [Hx0 Hx1].
  destruct (clip_bounds _ config.canvas_size_height
              (add_finite_not_nan _ _ My Hz) eq_refl) as [Hy0 Hy1].
  auto.
Qed.

(** Without the hypothesis that the coordinate is a number the clipping
    does nothing: NaN stays NaN. *)
Lemma Player_clip_nan (b : Body.t) :
  is_nan (Vec.x (Body.position b)) = true ->
  Vec.x (Body.position (Player_clip b)) = nan.
Proof. intros H. unfold Player_clip. simpl. apply clip_nan. assumption. Qed.

(* ------------------------------------------------------------------ *)
(** * The frame of collision resolution *)
(* ------------------------------------------------------------------ *)

Lemma same_body_but_health_refl (b : Body.t) : same_body_but_health b b.
Proof. unfold same_body_but_health. auto. Qed.

Lemma same_body_but_health_trans (b1 b2 b3 : Body.t) :
  same_body_but_health b1 b2 -> same_body_but_health b2 b3 ->
  same_body_but_health b1 b3.
Proof.
  unfold same_body_but_health.
  intros (Hi & Hp & Hv & Hs & Hh) (Hi' & Hp' & Hv' & Hs' & Hh').
  repeat split; try congruence.
  intros Hn. rewrite Hh' by congruence. auto.
Qed.

Lemma same_entity_but_health_refl (e : Entity) : same_entity_but_health e e.
Proof. destruct e; simpl; auto using same_body_but_health_refl. Qed.

Lemma same_entity_but_health_trans (e1 e2 e3 : Entity) :
  same_entity_but_health e1 e2 -> same_entity_but_health e2 e3 ->
  same_entity_but_health e1 e3.
Proof.
  destruct e1, e2, e3; simpl; try tauto; apply same_body_but_health_trans.
Qed.

Lemma same_entities_refl (es : list Entity) :
  Forall2 same_entity_but_health es es.
Proof. induction es; constructor; auto using same_entity_but_health_refl. Qed.

Lemma same_entities_trans (es1 es2 es3 : list Entity) :
  Forall2 same_entity_but_health es1 es2 ->
  Forall2 same_entity_but_health es2 es3 ->
  Forall2 same_entity_but_health es1 es3.
Proof.
  intros H. revert es3. induction H as [|e1 e2 l1 l2 He Hl IH]; intros es3 H3.
  - inversion H3. constructor.
  - inversion H3 as [|e2' e3 l2' l3 He' Hl']; subst. constructor.
    + eapply same_entity_but_health_trans; eassumption.
    + apply IH. assumption.
Qed.

Lemma collision_frame_refl (w : World) : collision_frame w w.
Proof.
  constructor; auto using same_entities_refl, same_body_but_health_refl.
  - exists 0%nat. simpl. lia.
  - exists []. rewrite app_nil_r. auto.
  - lia.
Qed.

Lemma collision_frame_trans (w1 w2 w3 : World) :
  collision_frame w1 w2 -> collision_frame w2 w3 -> collision_frame w1 w3.
Proof.
  intros [] []. constructor; try congruence.
  - eapply same_entities_trans; eassumption.
  - eapply same_body_but_health_trans; eassumption.
  - destruct cf_health0 as [k Hk], cf_health1 as [k' Hk'].
    exists (k + k')%nat. lia.
  - destruct cf_queue0 as (a & Ha & Na), cf_queue1 as (a' & Ha' & Na').
    exists (a ++ a'). split.
    + rewrite Ha', Ha, app_assoc. reflexivity.
    + rewrite in_app_iff. tauto.
  - lia.
Qed.

(** Queueing a nonzero id is within the frame. *)
Lemma Body_remove_frame (i : nat) (w : World) :
  i <> 0%nat -> collision_frame w (Body_remove i w).
Proof.
  intros Hi. constructor; simpl;
    auto using same_entities_refl, same_body_but_health_refl.
  - exists 0%nat. simpl. lia.
  - exists [i]. split; [reflexivity|]. simpl. intuition congruence.
  - lia.
Qed.

(** Counting a hit is within the frame. *)
Lemma with_hitEnemies_frame (w : World) :
  collision_frame w (with_hitEnemies (hitEnemies w + 1) w).
Proof.
  constructor; simpl; auto using same_entities_refl, same_body_but_health_refl.
  - exists 0%nat. simpl. lia.
  - exists []. rewrite app_nil_r. auto.
  - lia.
Qed.

(** Damaging an object with id 0 is within the frame. *)
Lemma Entity_damage_frame (e : Entity) (w : World) :
  Entity_id (player w) e = 0%nat -> collision_frame w (Entity_damage e w).
Proof.
  intros Hid. destruct e as [|b|b]; unfold Entity_id in Hid; simpl in Hid.
  - constructor; simpl; auto using same_entities_refl.
    + unfold same_body_but_health. simpl. repeat split. intros Hn. contradiction.
    + exists 1%nat. simpl. lia.
    + exists []. rewrite app_nil_r. auto.
    + lia.
  - constructor; simpl; auto using same_body_but_health_refl.
    + induction (entities w) as [|e es IH]; simpl; constructor; auto.
      destruct e as [|b'|b']; simpl; auto.
      * destruct (Body.id b' =? Body.id b)%nat eqn:E; simpl.
        -- apply Nat.eqb_eq in E. unfold same_body_but_health. simpl.
           repeat split. intros Hn. congruence.
        -- apply same_body_but_health_refl.
      * destruct (Body.id b' =? Body.id b)%nat eqn:E; simpl.
        -- apply Nat.eqb_eq in E. unfold same_body_but_health. simpl.
           repeat split. intros Hn. congruence.
        -- apply same_body_but_health_refl.
    + exists 0%nat. simpl. lia.
    + exists []. rewrite app_nil_r. auto.
    + lia.
  - constructor; simpl; auto using same_body_but_health_refl.
    + induction (entities w) as [|e es IH]; simpl; constructor; auto.
      destruct e as [|b'|b']; simpl; auto.
      * destruct (Body.id b' =? Body.id b)%nat eqn:E; simpl.
        -- apply Nat.eqb_eq in E. unfold same_body_but_health. simpl.
           repeat split. intros Hn. congruence.
        -- apply same_body_but_health_refl.
      * destruct (Body.id b' =? Body.id b)%nat eqn:E; simpl.
        -- apply Nat.eqb_eq in E. unfold same_body_but_health. simpl.
           repeat split. intros Hn. congruence.
        -- apply same_body_but_health_refl.
    + exists 0%nat. simpl. lia.
    + exists []. rewrite app_nil_r. auto.
    + lia.
Qed.

(** Resolving one ordered pair is within the frame. *)
Lemma collision_resolve_frame (e1 e2 : Entity) (w : World) :
  collision_frame w (collision_resolve e1 e2 w).
Proof.
  unfold collision_resolve.
  destruct (checkCollision _ _ && negb _) eqn:C;
    [|apply collision_frame_refl].
  apply andb_prop in C. destruct C as [_ C].
  apply negb_true_iff, Nat.eqb_neq in C.
  destruct (Body.id (Entity_body (player w) e1) =? 0)%nat eqn:E1.
  - apply Nat.eqb_eq in E1.
    eapply collision_frame_trans; [apply Entity_damage_frame; exact E1|].
    apply Body_remove_frame. congruence.
  - apply Nat.eqb_neq in E1.
    destruct (Body.id (Entity_body (player w) e2) =? 0)%nat eqn:E2.
    + apply Body_remove_frame. assumption.
    + apply Nat.eqb_neq in E2.
      eapply collision_frame_trans; [apply with_hitEnemies_frame|].
      eapply collision_frame_trans; apply Body_remove_frame; assumption.
Qed.

Lemma collision_inner_frame (e1 : Entity) (l : list Entity) (w : World) :
  collision_frame w
    (fold_left (fun w2 e2 => collision_resolve e1 e2 w2) l w).
Proof.
  revert w. induction l as [|e2 l IH]; intros w; simpl.
  - apply collision_frame_refl.
  - eapply collision_frame_trans; [apply collision_resolve_frame|apply IH].
Qed.

Lemma collision_outer_frame (l : list Entity) (w : World) :
  collision_frame w
    (fold_left
       (fun w1 e1 =>
          fold_left (fun w2 e2 => collision_resolve e1 e2 w2) (Object_values w1) w1)
       l w).
Proof.
  revert w. induction l as [|e1 l IH]; intros w; simpl.
  - apply collision_frame_refl.
  - eapply collision_frame_trans; [apply collision_inner_frame|apply IH].
Qed.

Lemma collisionHandler_update_frame (w : World) :
  collision_frame w (collisionHandler_update w).
Proof. apply collision_outer_frame. Qed.

(** Entries that are the same up to health are stored under the same
    keys. *)
Lemma same_entities_ids (p p' : Player) (l l' : list Entity) :
  Body.id (body p') = Body.id (body p) ->
  Forall2 same_entity_but_health l l' ->
  map (Entity_id p') l' = map (Entity_id p) l.
Proof.
  intros Hid H. induction H as [|e e' l l' He Hl IH]; simpl; [reflexivity|].
  f_equal; [|exact IH].
  destruct e, e'; simpl in He; try contradiction; unfold Entity_id; simpl.
  - assumption.
  - destruct He as (H & _). assumption.
  - destruct He as (H & _). assumption.
Qed.

(* ------------------------------------------------------------------ *)
(** * The player's health through a step *)
(* ------------------------------------------------------------------ *)

Lemma Player_move_health (c : Controller) (b : Body.t) :
  Body.health (Player_move c b) = Body.health b.
Proof.
  unfold Player_move, Player_move_diagonal.
  repeat match goal with |- context [if ?c then _ else _] => destruct c end;
    reflexivity.
Qed.

Lemma Enemy_update_player (delta_time : float) (b : Body.t) (w : World) :
  player (Enemy_update delta_time b w) = player w.
Proof. unfold Enemy_update. destruct (JS.gtb _ _); reflexivity. Qed.

Lemma projectile_update_player (b : Body.t) (w : World) :
  player (projectile_update b w) = player w.
Proof. unfold projectile_update. destruct (_ <? _); reflexivity. Qed.

Lemma Entity_update_health (delta_time : float) (e : Entity) (w w' : World) :
  Entity_update delta_time e w = Some w' ->
  Body.health (body (player w')) = Body.health (body (player w)).
Proof.
  destruct e as [|b|b]; simpl; intros H.
  - apply Player_update_body in H. rewrite H. simpl. apply Player_move_health.
  - injection H as <-. rewrite Enemy_update_player. reflexivity.
  - injection H as <-. rewrite projectile_update_player. reflexivity.
Qed.

Lemma forEach_update_health (delta_time : float) (l : list Entity) (w w' : World) :
  forEach_update delta_time l w = Some w' ->
  Body.health (body (player w')) = Body.health (body (player w)).
Proof.
  revert w. induction l as [|e l IH]; simpl; intros w H.
  - injection H as <-. reflexivity.
  - destruct (Entity_update delta_time e w) as [w1|] eqn:E; [|discriminate].
    rewrite (IH _ H). eapply Entity_update_health. eassumption.
Qed.

Lemma enemySpawner_update_player (delta_time rnd : float) (s : enemySpawner)
  (w : World) :
  player (enemySpawner_update delta_time rnd s w) = player w.
Proof. unfold enemySpawner_update. destruct (JS.geb _ _); reflexivity. Qed.

(** Up to the restart check, a step takes the player's health down by a
    multiple of 50 and changes it in no other way. *)
Lemma update_simulate_health (delta_time rnd : float) (w w1 : World) :
  update_simulate delta_time rnd w = Some w1 ->
  exists k : nat,
    Body.health (body (player w1))
      = (Body.health (body (player w)) - 50 * Z.of_nat k)%Z.
Proof.
  unfold update_simulate.
  destruct (forEach_update _ _ _) as [w2|] eqn:E; [|discriminate].
  intros H. injection H as <-.
  apply forEach_update_health in E. simpl in E.
  assert (H3 : exists k : nat,
             Body.health (body (player (if collision_handler w2
                                        then collisionHandler_update w2 else w2)))
             = (Body.health (body (player w)) - 50 * Z.of_nat k)%Z).
  { destruct (collision_handler w2).
    - destruct (cf_health _ _ (collisionHandler_update_frame w2)) as [k Hk].
      exists k. rewrite Hk, E. reflexivity.
    - exists 0%nat. rewrite E. simpl. lia. }
  destruct H3 as [k Hk]. exists k. rewrite <- Hk.
  match goal with
  | |- context [enemy_spawner ?x] => destruct (enemy_spawner x)
  end; [|reflexivity].
  rewrite enemySpawner_update_player. reflexivity.
Qed.

(* ------------------------------------------------------------------ *)
(** * Counting hits *)
(* ------------------------------------------------------------------ *)

Lemma filter_map_pair (f : Entity * Entity -> bool) (e1 : Entity) (l : list Entity) :
  length (filter f (map (fun e2 => (e1, e2)) l))
    = length (filter (fun e2 => f (e1, e2)) l).
Proof.
  induction l as [|e l IH]; simpl; [reflexivity|].
  destruct (f (e1, e)); simpl; congruence.
Qed.

(** A quantity that every visit of a certain kind changes by the same
    amount, and no other visit changes, is changed by a run of
    [collisionHandler.update] by that amount times the number of such
    visits, provided the kind of a visit depends only on what the run
    leaves unchanged. *)
Section VisitCount.

Variable counted : Player -> Entity * Entity -> bool.
Variable measure : World -> Z.
Variable amount : Z.

Hypothesis counted_frame :
  forall (p p' : Player) (e1 e2 e1' e2' : Entity),
    same_body_but_health (body p) (body p') ->
    same_entity_but_health e1 e1' -> same_entity_but_health e2 e2' ->
    counted p' (e1', e2') = counted p (e1, e2).

Hypothesis resolve_measure :
  forall (e1 e2 : Entity) (w : World),
    measure (collision_resolve e1 e2 w)
      = (measure w + if counted (player w) (e1, e2) then amount else 0)%Z.

Lemma counted_player (p p' : Player) (v : Entity * Entity) :
  same_body_but_health (body p) (body p') -> counted p' v = counted p v.
Proof.
  intros H. destruct v as [e1 e2].
  apply counted_frame; auto using same_entity_but_health_refl.
Qed.

Lemma inner_count (e1 : Entity) (l : list Entity) (w : World) :
  measure (fold_left (fun w2 e2 => collision_resolve e1 e2 w2) l w)
    = (measure w
       + amount
         * Z.of_nat (length (filter (fun e2 => counted (player w) (e1, e2)) l)))%Z.
Proof.
  revert w. induction l as [|e2 l IH]; intros w; simpl; [lia|].
  rewrite IH, resolve_measure.
  rewrite (filter_ext _ (fun e => counted (player w) (e1, e))).
  - destruct (counted (player w) (e1, e2)); simpl length; lia.
  - intros e. apply counted_player.
    apply (cf_player_body _ _ (collision_resolve_frame e1 e2 w)).
Qed.

Lemma count_frame (p p' : Player) (l es es' : list Entity) :
  same_body_but_health (body p) (body p') ->
  Forall2 same_entity_but_health es es' ->
  length (filter (counted p') (list_prod l es'))
    = length (filter (counted p) (list_prod l es)).
Proof.
  intros Hp Hes. induction l as [|e1 l IH]; simpl; [reflexivity|].
  rewrite !filter_app, !length_app, IH. f_equal.
  rewrite !filter_map_pair.
  clear IH. induction Hes as [|e2 e2' es es' He Hl IHl]; simpl; [reflexivity|].
  rewrite (counted_frame p p' e1 e2 e1 e2' Hp (same_entity_but_health_refl e1) He).
  destruct (counted p (e1, e2)); simpl; congruence.
Qed.

Lemma outer_count (l : list Entity) (w : World) :
  measure
    (fold_left
       (fun w1 e1 =>
          fold_left (fun w2 e2 => collision_resolve e1 e2 w2) (Object_values w1) w1)
       l w)
    = (measure w
       + amount
         * Z.of_nat (length (filter (counted (player w))
                                    (list_prod l (Object_values w)))))%Z.
Proof.
  revert w. induction l as [|e1 l IH]; intros w; simpl; [lia|].
  rewrite IH, inner_count.
  rewrite filter_app, length_app, filter_map_pair.
  pose proof (collision_inner_frame e1 (Object_values w) w) as F.
  unfold Object_values in *.
  rewrite (count_frame (player w) _ l (entities w) _
             (cf_player_body _ _ F) (cf_entities _ _ F)).
  lia.
Qed.

Lemma update_count (w : World) :
  measure (collisionHandler_update w)
    = (measure w
       + amount * Z.of_nat (length (filter (counted (player w)) (visits w))))%Z.
Proof. apply outer_count. Qed.

End VisitCount.

(** ** The hit counter *)

Lemma collision_resolve_hits (e1 e2 : Entity) (w : World) :
  hitEnemies (collision_resolve e1 e2 w)
    = (hitEnemies w + if hit_visit (player w) (e1, e2) then 1 else 0)%Z.
Proof.
  unfold collision_resolve, hit_visit, Entity_id. simpl.
  destruct (checkCollision _ _); simpl; [|lia].
  destruct (Body.id (Entity_body (player w) e1)
            =? Body.id (Entity_body (player w) e2))%nat; simpl; [lia|].
  destruct (Body.id (Entity_body (player w) e1) =? 0)%nat; simpl.
  - destruct e1; simpl; lia.
  - destruct (Body.id (Entity_body (player w) e2) =? 0)%nat; simpl; lia.
Qed.

(** Ids and positions are all a visit's kind depends on. *)
Lemma same_entity_geometry (p p' : Player) (e e' : Entity) :
  same_body_but_health (body p) (body p') -> same_entity_but_health e e' ->
  Body.id (Entity_body p' e') = Body.id (Entity_body p e)
  /\ Body.position (Entity_body p' e') = Body.position (Entity_body p e).
Proof.
  intros (Hi & Hp & _) H. destruct e, e'; simpl in H; try contradiction; simpl.
  - auto.
  - destruct H as (? & ? & _). auto.
  - destruct H as (? & ? & _). auto.
Qed.

Lemma hit_visit_frame (p p' : Player) (e1 e2 e1' e2' : Entity) :
  same_body_but_health (body p) (body p') ->
  same_entity_but_health e1 e1' -> same_entity_but_health e2 e2' ->
  hit_visit p' (e1', e2') = hit_visit p (e1, e2).
Proof.
  intros Hp H1 H2.
  destruct (same_entity_geometry p p' _ _ Hp H1) as [I1 P1].
  destruct (same_entity_geometry p p' _ _ Hp H2) as [I2 P2].
  unfold hit_visit, Entity_id. simpl. rewrite I1, I2.
  rewrite (checkCollision_position _ _ _ _ P1 P2). reflexivity.
Qed.

Lemma hit_visit_player (p p' : Player) (v : Entity * Entity) :
  same_body_but_health (body p) (body p') -> hit_visit p' v = hit_visit p v.
Proof. apply (counted_player hit_visit hit_visit_frame). Qed.

(** The hit counter grows by one for every visit that counts. *)
Lemma collisionHandler_update_hits (w : World) :
  hitEnemies (collisionHandler_update w)
    = (hitEnemies w
       + Z.of_nat (length (filter (hit_visit (player w)) (visits w))))%Z.
Proof.
  rewrite (update_count hit_visit hitEnemies 1 hit_visit_frame
             collision_resolve_hits w).
  lia.
Qed.

(** C10, as stated, fails: collision resolution also writes the hit
    counter.  In a registry with the player and, away from the player, an
    enemy and a projectile that overlap, one run takes the counter from 0
    to 2. *)
Lemma C10_hit_counter_changes :
  let e := EEnemy (Body.with_position (Vec.mk 10 10) (Body.fresh 1)) in
  let s := EProjectile (Body.with_position (Vec.mk 12 15) (Body.fresh 2)) in
  let w := with_entities [EPlayer; e; s] (start globals0) in
  hitEnemies w = 0%Z
  /\ hitEnemies (collisionHandler_update w) = 2%Z
  /\ hitEnemies (collisionHandler_update w) <> hitEnemies w.
Proof.
  intros e s w.
  assert (H : hitEnemies (collisionHandler_update w) = 2%Z)
    by (vm_compute; reflexivity).
  split; [reflexivity|]. split; [exact H|]. rewrite H. discriminate.
Qed.

(** C10 (amended): [collisionHandler.update] has no effect beyond the
    health of an id-0 object, the removal queue and the hit counter.  It
    leaves the registry with the same entries in the same order, each the
    same object with position, velocity and size unchanged and, unless
    its id is 0, health unchanged; the same holds for the player object,
    whose controller, raw input and timer are unchanged too.  Ids are
    only appended to the removal queue, nothing is deleted.  The hit
    counter grows by one for each visit of a colliding pair of different
    ids neither of which is 0.  Every other global is unchanged. *)
Theorem C10_collision_frame (w : World) :
  let w' := collisionHandler_update w in
  Forall2 same_entity_but_health (entities w) (entities w')
  /\ same_body_but_health (body (player w)) (body (player w'))
  /\ map (Entity_id (player w')) (entities w')
       = map (Entity_id (player w)) (entities w)
  /\ (exists added, queued_entities_for_removal w'
                      = queued_entities_for_removal w ++ added)
  /\ hitEnemies w'
       = (hitEnemies w
          + Z.of_nat (length (filter (hit_visit (player w)) (visits w))))%Z
  /\ controller (player w') = controller (player w)
  /\ raw_input (player w') = raw_input (player w)
  /\ timer (player w') = timer (player w)
  /\ last_time w' = last_time w
  /\ loop_count w' = loop_count w
  /\ running_id w' = running_id w
  /\ enemy_spawner w' = enemy_spawner w
  /\ collision_handler w' = collision_handler w
  /\ totEnemies w' = totEnemies w
  /\ timeElasped w' = timeElasped w
  /\ score w' = score w.
Proof.
  intros w'. pose proof (collisionHandler_update_hits w) as Hh.
  destruct (collisionHandler_update_frame w) as [].
  fold w' in cf_entities0, cf_player_body0, cf_queue0, Hh.
  split; [assumption|]. split; [assumption|].
  split; [|split; [|split; [exact Hh|repeat split; assumption]]].
  - apply same_entities_ids; [|assumption].
    destruct cf_player_body0 as (Hid & _). assumption.
  - destruct cf_queue0 as (a & Ha & _). exists a. assumption.
Qed.

(** ** The player's health *)

Lemma collision_resolve_damage (e1 e2 : Entity) (w : World) :
  Body.health (body (player (collision_resolve e1 e2 w)))
    = (Body.health (body (player w))
       + if damage_visit (player w) (e1, e2) then -50 else 0)%Z.
Proof.
  unfold collision_resolve, damage_visit, Entity_id.
  destruct e1 as [|b1|b1]; simpl.
  - destruct (checkCollision _ _); simpl; [|lia].
    destruct (Body.id (body (player w))
              =? Body.id (Entity_body (player w) e2))%nat; simpl; [lia|].
    destruct (Body.id (body (player w)) =? 0)%nat; simpl; [lia|].
    destruct (Body.id (Entity_body (player w) e2) =? 0)%nat; simpl; lia.
  - destruct (checkCollision _ _ && negb _); simpl; [|lia].
    destruct (Body.id b1 =? 0)%nat; simpl; [lia|].
    destruct (Body.id (Entity_body (player w) e2) =? 0)%nat; simpl; lia.
  - destruct (checkCollision _ _ && negb _); simpl; [|lia].
    destruct (Body.id b1 =? 0)%nat; simpl; [lia|].
    destruct (Body.id (Entity_body (player w) e2) =? 0)%nat; simpl; lia.
Qed.

Lemma damage_visit_frame (p p' : Player) (e1 e2 e1' e2' : Entity) :
  same_body_but_health (body p) (body p') ->
  same_entity_but_health e1 e1' -> same_entity_but_health e2 e2' ->
  damage_visit p' (e1', e2') = damage_visit p (e1, e2).
Proof.
  intros Hp H1 H2.
  destruct (same_entity_geometry p p' _ _ Hp H2) as [I2 P2].
  destruct Hp as (Hi & Hpos & _).
  unfold damage_visit, Entity_id.
  destruct e1, e1'; simpl in H1; try contradiction; simpl; try reflexivity.
  rewrite I2, Hi.
  rewrite (checkCollision_position _ _ (body p) (Entity_body p e2) Hpos P2).
  reflexivity.
Qed.

(** The player loses 50 health for every visit that starts from the
    player and collides, and nothing else. *)
Lemma collisionHandler_update_damage (w : World) :
  Body.health (body (player (collisionHandler_update w)))
    = (Body.health (body (player w))
       - 50 * Z.of_nat (length (filter (damage_visit (player w)) (visits w))))%Z.
Proof.
  rewrite (update_count damage_visit (fun w => Body.health (body (player w)))
             (-50) damage_visit_frame collision_resolve_damage w).
  lia.
Qed.

(** ** The two visits of an unordered pair *)

Lemma filter_andb (A : Type) (f g : A -> bool) (l : list A) :
  filter (fun v => f v && g v) l = filter g (filter f l).
Proof.
  induction l as [|a l IH]; simpl; [reflexivity|].
  destruct (f a); simpl; [destruct (g a)|]; congruence.
Qed.

Lemma length_filter_orb (A : Type) (f g : A -> bool) (l : list A) :
  (forall v, f v && g v = false) ->
  length (filter (fun v => f v || g v) l)
    = (length (filter f l) + length (filter g l))%nat.
Proof.
  intros D. induction l as [|a l IH]; simpl; [reflexivity|].
  specialize (D a). destruct (f a), (g a); simpl in *; try discriminate; lia.
Qed.

Lemma filter_list_prod (A : Type) (f1 f2 : A -> bool) (l1 l2 : list A) :
  filter (fun v => f1 (fst v) && f2 (snd v)) (list_prod l1 l2)
    = list_prod (filter f1 l1) (filter f2 l2).
Proof.
  induction l1 as [|a l1 IH]; simpl; [reflexivity|].
  rewrite filter_app, IH.
  assert (M : filter (fun v => f1 (fst v) && f2 (snd v)) (map (fun y => (a, y)) l2)
              = if f1 a then map (fun y => (a, y)) (filter f2 l2) else []).
  { clear IH. induction l2 as [|b l2 IH2]; simpl.
    - destruct (f1 a); reflexivity.
    - rewrite IH2. destruct (f1 a); simpl; [|reflexivity].
      destruct (f2 b); reflexivity. }
  rewrite M. destruct (f1 a); reflexivity.
Qed.

(** In a registry, which holds one entry per key, selecting by the key of
    an entry selects that entry. *)
Lemma filter_id_unique (p : Player) (es : list Entity) (e : Entity) :
  NoDup (map (Entity_id p) es) -> In e es ->
  filter (fun e' => (Entity_id p e' =? Entity_id p e)%nat) es = [e].
Proof.
  induction es as [|a es IH]; simpl; intros N H; [contradiction|].
  inversion N as [|k ks Hk Hks]; subst.
  assert (Hz : forall k', ~ In k' (map (Entity_id p) es) ->
              filter (fun e' => (Entity_id p e' =? k')%nat) es = []).
  { clear. intros k'. induction es as [|b es IHs]; simpl; intros H; [reflexivity|].
    destruct (Entity_id p b =? k')%nat eqn:E.
    - apply Nat.eqb_eq in E. tauto.
    - apply IHs. tauto. }
  destruct H as [->|H].
  - rewrite Nat.eqb_refl. rewrite (Hz _ Hk). reflexivity.
  - destruct (Entity_id p a =? Entity_id p e)%nat eqn:E.
    + apply Nat.eqb_eq in E. exfalso. apply Hk. rewrite E.
      apply in_map. assumption.
    + apply IH; assumption.
Qed.

Lemma hit_visit_sym (p : Player) (e1 e2 : Entity) :
  hit_visit p (e2, e1) = hit_visit p (e1, e2).
Proof.
  unfold hit_visit. simpl.
  rewrite (checkCollision_sym (Entity_body p e2) (Entity_body p e1)).
  rewrite (Nat.eqb_sym (Entity_id p e2) (Entity_id p e1)).
  destruct (checkCollision _ _), (Entity_id p e1 =? Entity_id p e2)%nat,
    (Entity_id p e1 =? 0)%nat, (Entity_id p e2 =? 0)%nat; reflexivity.
Qed.

(** One ordering of a pair of distinct entries is visited once. *)
Lemma ordered_visit_once (p : Player) (es : list Entity) (e1 e2 : Entity) :
  NoDup (map (Entity_id p) es) -> In e1 es -> In e2 es ->
  filter (fun v => (Entity_id p (fst v) =? Entity_id p e1)%nat
                   && (Entity_id p (snd v) =? Entity_id p e2)%nat)
         (list_prod es es)
    = [(e1, e2)].
Proof.
  intros N H1 H2.
  rewrite (filter_list_prod Entity
             (fun e => (Entity_id p e =? Entity_id p e1)%nat)
             (fun e => (Entity_id p e =? Entity_id p e2)%nat)).
  rewrite (filter_id_unique p es e1 N H1), (filter_id_unique p es e2 N H2).
  reflexivity.
Qed.

(** A colliding pair of distinct non-player entries accounts for exactly
    two of the visits that count. *)
Lemma pair_visits_count (p : Player) (es : list Entity) (e1 e2 : Entity) :
  NoDup (map (Entity_id p) es) -> In e1 es -> In e2 es ->
  hit_visit p (e1, e2) = true ->
  length (filter (fun v => hit_visit p v
                           && visit_of p (Entity_id p e1) (Entity_id p e2) v)
                 (list_prod es es)) = 2%nat.
Proof.
  intros N H1 H2 Hh.
  assert (Hne : (Entity_id p e1 =? Entity_id p e2)%nat = false).
  { unfold hit_visit in Hh. simpl in Hh.
    destruct (Entity_id p e1 =? Entity_id p e2)%nat; [|reflexivity].
    rewrite andb_false_r in Hh. discriminate. }
  set (s12 := fun v : Entity * Entity =>
                (Entity_id p (fst v) =? Entity_id p e1)%nat
                && (Entity_id p (snd v) =? Entity_id p e2)%nat).
  set (s21 := fun v : Entity * Entity =>
                (Entity_id p (fst v) =? Entity_id p e2)%nat
                && (Entity_id p (snd v) =? Entity_id p e1)%nat).
  rewrite (filter_ext _ (fun v => (s12 v && hit_visit p v) || (s21 v && hit_visit p v))).
  - rewrite length_filter_orb.
    + rewrite !filter_andb. unfold s12, s21.
      rewrite (ordered_visit_once p es e1 e2 N H1 H2).
      rewrite (ordered_visit_once p es e2 e1 N H2 H1).
      cbn [filter]. rewrite (hit_visit_sym p e1 e2), Hh. reflexivity.
    + intros [a b]. unfold s12, s21. simpl.
      destruct (Entity_id p a =? Entity_id p e1)%nat eqn:E1; simpl; [|reflexivity].
      destruct (Entity_id p a =? Entity_id p e2)%nat eqn:E2; simpl;
        [|rewrite !andb_false_r; reflexivity].
      apply Nat.eqb_eq in E1, E2. apply Nat.eqb_neq in Hne. congruence.
  - intros v. unfold visit_of, s12, s21.
    destruct (hit_visit p v); simpl; [|rewrite !andb_false_r; reflexivity].
    rewrite !andb_true_r. reflexivity.
Qed.

(** ** Both entities of a counted visit are queued *)

Lemma Entity_id_player (p p' : Player) (e : Entity) :
  Body.id (body p') = Body.id (body p) -> Entity_id p' e = Entity_id p e.
Proof. intros H. destruct e; unfold Entity_id; simpl; auto. Qed.

Lemma frame_queue_mono (w w' : World) (i : nat) :
  collision_frame w w' ->
  In i (queued_entities_for_removal w) -> In i (queued_entities_for_removal w').
Proof.
  intros F H. destruct (cf_queue _ _ F) as (a & -> & _).
  apply in_or_app. left. assumption.
Qed.

Lemma frame_ids (w w' : World) (e : Entity) :
  collision_frame w w' -> Entity_id (player w') e = Entity_id (player w) e.
Proof.
  intros F. apply Entity_id_player.
  destruct (cf_player_body _ _ F) as (H & _). assumption.
Qed.

Lemma collision_resolve_queues (e1 e2 : Entity) (w : World) :
  hit_visit (player w) (e1, e2) = true ->
  In (Entity_id (player w) e1)
     (queued_entities_for_removal (collision_resolve e1 e2 w))
  /\ In (Entity_id (player w) e2)
        (queued_entities_for_removal (collision_resolve e1 e2 w)).
Proof.
  unfold hit_visit, collision_resolve, Entity_id. simpl. intros H.
  apply andb_prop in H. destruct H as [H N2].
  apply andb_prop in H. destruct H as [H N1].
  rewrite H. apply negb_true_iff in N1, N2. rewrite N1, N2. simpl.
  rewrite !in_app_iff. simpl. auto.
Qed.

Lemma collision_inner_queues (e1 e2 : Entity) (l : list Entity) (w : World) :
  In e2 l -> hit_visit (player w) (e1, e2) = true ->
  let w' := fold_left (fun w2 e => collision_resolve e1 e w2) l w in
  In (Entity_id (player w) e1) (queued_entities_for_removal w')
  /\ In (Entity_id (player w) e2) (queued_entities_for_removal w').
Proof.
  revert w. induction l as [|a l IH]; simpl; intros w Hin Hh; [contradiction|].
  pose proof (collision_resolve_frame e1 a w) as F.
  destruct Hin as [->|Hin].
  - destruct (collision_resolve_queues e1 e2 w Hh) as [Q1 Q2].
    split; eapply frame_queue_mono;
      try apply collision_inner_frame; assumption.
  - rewrite <- (frame_ids _ _ e1 F), <- (frame_ids _ _ e2 F).
    apply IH; [assumption|].
    rewrite (hit_visit_player _ _ _ (cf_player_body _ _ F)). assumption.
Qed.

(** An entry with a nonzero key is literally unchanged within the frame. *)
Lemma same_entities_In (p : Player) (l l' : list Entity) (e : Entity) :
  Forall2 same_entity_but_health l l' ->
  In e l -> Entity_id p e <> 0%nat -> In e l'.
Proof.
  intros H. induction H as [|a a' l l' Ha Hl IH]; simpl; intros Hin Hn;
    [contradiction|].
  destruct Hin as [->|Hin]; [left|right; auto].
  unfold Entity_id in Hn.
  destruct e as [|b|b], a' as [|b'|b']; simpl in Ha, Hn; try contradiction;
    try reflexivity;
    destruct Ha as (Hi & Hp & Hv & Hs & Hh); specialize (Hh Hn);
    destruct b, b'; simpl in *; subst; reflexivity.
Qed.

Lemma hit_visit_nonzero (p : Player) (e1 e2 : Entity) :
  hit_visit p (e1, e2) = true ->
  Entity_id p e1 <> 0%nat /\ Entity_id p e2 <> 0%nat
  /\ Entity_id p e1 <> Entity_id p e2.
Proof.
  unfold hit_visit. simpl. intros H.
  apply andb_prop in H. destruct H as [H N2].
  apply andb_prop in H. destruct H as [H N1].
  apply andb_prop in H. destruct H as [H N].
  apply negb_true_iff, Nat.eqb_neq in N, N1, N2. auto.
Qed.

Lemma collision_outer_queues (e1 e2 : Entity) (l : list Entity) (w : World) :
  In e1 l -> In e2 (Object_values w) -> hit_visit (player w) (e1, e2) = true ->
  let w' := fold_left
              (fun w1 e =>
                 fold_left (fun w2 e' => collision_resolve e e' w2)
                           (Object_values w1) w1)
              l w in
  In (Entity_id (player w) e1) (queued_entities_for_removal w')
  /\ In (Entity_id (player w) e2) (queued_entities_for_removal w').
Proof.
  revert w. induction l as [|a l IH]; simpl; intros w H1 H2 Hh; [contradiction|].
  pose proof (collision_inner_frame a (Object_values w) w) as F.
  destruct H1 as [->|H1].
  - destruct (collision_inner_queues e1 e2 (Object_values w) w H2 Hh) as [Q1 Q2].
    split; eapply frame_queue_mono;
      try apply collision_outer_frame; assumption.
  - rewrite <- (frame_ids _ _ e1 F), <- (frame_ids _ _ e2 F).
    apply IH; [assumption| |].
    + unfold Object_values in *.
      apply (same_entities_In (player w) _ _ e2 (cf_entities _ _ F) H2).
      apply (hit_visit_nonzero _ _ _ Hh).
    + rewrite (hit_visit_player _ _ _ (cf_player_body _ _ F)). assumption.
Qed.

(** C3: in a registry (one entry per key), take two entries that collide,
    have different ids, neither of them 0.  One run of
    [collisionHandler.update] visits the pair in both orders, each of the
    two visits runs the hit branch, the hit counter grows by one per
    counted visit, exactly two of the counted visits are visits of this
    pair, and afterwards both ids are in the removal queue. *)
Theorem C3_pair_hits (w : World) (e1 e2 : Entity) :
  let p := player w in
  NoDup (map (Entity_id p) (entities w)) ->
  In e1 (entities w) -> In e2 (entities w) ->
  Entity_id p e1 <> Entity_id p e2 ->
  Entity_id p e1 <> 0%nat -> Entity_id p e2 <> 0%nat ->
  checkCollision (Entity_body p e1) (Entity_body p e2) = true ->
  let w' := collisionHandler_update w in
  In (e1, e2) (visits w) /\ In (e2, e1) (visits w)
  /\ hit_visit p (e1, e2) = true /\ hit_visit p (e2, e1) = true
  /\ hitEnemies w'
       = (hitEnemies w + Z.of_nat (length (filter (hit_visit p) (visits w))))%Z
  /\ length (filter (fun v => hit_visit p v
                              && visit_of p (Entity_id p e1) (Entity_id p e2) v)
                    (visits w)) = 2%nat
  /\ In (Entity_id p e1) (queued_entities_for_removal w')
  /\ In (Entity_id p e2) (queued_entities_for_removal w').
Proof.
  intros p N H1 H2 Hne Hn1 Hn2 Hc w'.
  assert (Hh : hit_visit p (e1, e2) = true).
  { unfold hit_visit. simpl. rewrite Hc.
    apply Nat.eqb_neq in Hne, Hn1, Hn2. rewrite Hne, Hn1, Hn2. reflexivity. }
  split; [apply in_prod; assumption|].
  split; [apply in_prod; assumption|].
  split; [exact Hh|].
  split; [rewrite hit_visit_sym; exact Hh|].
  split; [apply collisionHandler_update_hits|].
  split; [apply pair_visits_count; assumption|].
  apply (collision_outer_queues e1 e2 (Object_values w) w H1 H2 Hh).
Qed.

(** C3 applies to a registry with the player, and an enemy and a
    projectile that overlap away from the player: the run adds 2 to the
    hit counter and queues both. *)
Lemma C3_pair_hits_witness :
  let e := EEnemy (Body.with_position (Vec.mk 10 10) (Body.fresh 1)) in
  let s := EProjectile (Body.with_position (Vec.mk 12 15) (Body.fresh 2)) in
  let w := with_entities [EPlayer; e; s] (start globals0) in
  hitEnemies (collisionHandler_update w) = 2%Z
  /\ In 1%nat (queued_entities_for_removal (collisionHandler_update w))
  /\ In 2%nat (queued_entities_for_removal (collisionHandler_update w)).
Proof.
  intros e s w.
  destruct (C3_pair_hits w e s) as (_ & _ & _ & _ & Hc & _ & Q1 & Q2).
  - simpl. repeat constructor; simpl; intuition discriminate.
  - simpl. auto.
  - simpl. auto.
  - discriminate.
  - discriminate.
  - discriminate.
  - vm_compute. reflexivity.
  - split; [|split; assumption]. rewrite Hc. vm_compute. reflexivity.
Defined.

(** C2: when the player (entity 1 of the pair, id 0) collides with another
    entity, resolving the pair takes exactly 50 off the player's health
    and queues the other entity.  A run of collision resolution takes 50
    off the player's health for each such visit and changes it in no
    other way, and it never queues id 0.  No other part of a step changes
    the health, so without a restart the health after a step is at most
    the health before and a dead player stays dead; only [start()] puts
    it back to 100. *)
Theorem C2_player_health :
  (forall (w : World) (e2 : Entity),
      Body.id (body (player w)) = 0%nat ->
      Entity_id (player w) e2 <> 0%nat ->
      checkCollision (body (player w)) (Entity_body (player w) e2) = true ->
      let w' := collision_resolve EPlayer e2 w in
      Body.health (body (player w')) = (Body.health (body (player w)) - 50)%Z
      /\ queued_entities_for_removal w'
           = queued_entities_for_removal w ++ [Entity_id (player w) e2])
  /\ (forall w : World,
        Body.health (body (player (collisionHandler_update w)))
          = (Body.health (body (player w))
             - 50 * Z.of_nat (length (filter (damage_visit (player w))
                                             (visits w))))%Z
        /\ exists added : list nat,
             queued_entities_for_removal (collisionHandler_update w)
               = queued_entities_for_removal w ++ added
             /\ ~ In 0%nat added)
  /\ (forall (delta_time rnd : float) (w w1 : World),
        update_simulate delta_time rnd w = Some w1 ->
        restart_requested w1 = false ->
        exists w', update delta_time rnd w = Some w'
          /\ (Body.health (body (player w')) <= Body.health (body (player w)))%Z
          /\ (Body.isDead (body (player w)) = true ->
              Body.isDead (body (player w')) = true
              /\ Body.isDead (body (player (draw w'))) = true))
  /\ (forall w : World, Body.health (body (player (start w))) = 100%Z).
Proof.
  split; [|split; [|split]].
  - intros w e2 H0 H2 Hc w'. subst w'. unfold collision_resolve.
    simpl. rewrite Hc. unfold Entity_id in H2.
    apply Nat.eqb_neq in H2. rewrite H0. rewrite Nat.eqb_sym in H2.
    rewrite H2. simpl. split; reflexivity.
  - intros w. split; [apply collisionHandler_update_damage|].
    apply (cf_queue _ _ (collisionHandler_update_frame w)).
  - intros delta_time rnd w w1 Hs Hr.
    unfold update. rewrite Hs. eexists. split; [reflexivity|].
    destruct (update_simulate_health _ _ _ _ Hs) as [k Hk].
    assert (Hp : Body.health (body (player (update_bookkeeping delta_time w1)))
                 = Body.health (body (player w1))).
    { unfold update_bookkeeping. rewrite Hr.
      destruct (negb (Body.isDead (body (player w1)))); reflexivity. }
    split; [rewrite Hp, Hk; lia|].
    unfold Body.isDead, draw. intros Hd. apply Z.leb_le in Hd.
    assert (Hd' : (Body.health (body (player (update_bookkeeping delta_time w1)))
                   <=? 0)%Z = true) by (apply Z.leb_le; rewrite Hp, Hk; lia).
    split; [exact Hd'|].
    unfold Body.isDead. rewrite Hd'. simpl. exact Hd'.
  - intros w. reflexivity.
Qed.

(** C2 applies to a session in which an enemy has reached the player:
    resolving the pair leaves the player at health 50 and queues the
    enemy. *)
Lemma C2_player_health_witness :
  let b := Body.with_position (Vec.mk 150 400) (Body.fresh 1) in
  let w := with_entities [EPlayer; EEnemy b] (start globals0) in
  Body.health (body (player (collision_resolve EPlayer (EEnemy b) w))) = 50%Z
  /\ queued_entities_for_removal (collision_resolve EPlayer (EEnemy b) w) = [1%nat]
  /\ exists w', update config.update_rate_seconds 0.5 w = Some w'
       /\ (Body.health (body (player w')) <= 100)%Z.
Proof.
  intros b w.
  destruct C2_player_health as (Hpair & _ & Hstep & _).
  destruct (Hpair w (EEnemy b)) as [Hh Hq];
    [reflexivity | discriminate | reflexivity | ].
  split; [exact Hh|]. split; [exact Hq|].
  eassert (E : update_simulate config.update_rate_seconds 0.5 w = Some _)
    by (vm_compute; reflexivity).
  destruct (Hstep _ _ _ _ E) as (w' & Hu & Hle & _); [reflexivity|].
  exists w'. split; [exact Hu|exact Hle].
Defined.

(* ------------------------------------------------------------------ *)
(** * Restart *)
(* ------------------------------------------------------------------ *)

(** C7: in a step at whose restart check the player is dead and
    [action_1] is set, [update] calls [start()].  Its six assignments leave
    the registry and the removal queue empty and the id counter, the hit
    counter, the elapsed time and the spawn counter at 0; the player it
    then creates gets id 0 and is the only entry of the registry.  The
    score is recomputed from the reset counters before the step ends, so
    the step ends with hit counter, spawn counter and score at 0, and with
    the elapsed time at the one step counted for the new, live player. *)
Theorem C7_restart (rnd : float) (w w1 : World) :
  update_simulate config.update_rate_seconds rnd w = Some w1 ->
  Body.isDead (body (player w1)) = true ->
  action_1 (controller (player w1)) = true ->
  (entities (start_reset w1) = []
   /\ queued_entities_for_removal (start_reset w1) = []
   /\ running_id (start_reset w1) = 0%nat
   /\ hitEnemies (start_reset w1) = 0%Z
   /\ timeElasped (start_reset w1) = 0
   /\ totEnemies (start_reset w1) = 0%Z)
  /\ (Body.id (body (player (start w1))) = 0%nat
      /\ entities (start w1) = [EPlayer]
      /\ timeElasped (start w1) = 0)
  /\ exists w',
       update config.update_rate_seconds rnd w = Some w'
       /\ w' = update_bookkeeping config.update_rate_seconds w1
       /\ entities w' = [EPlayer]
       /\ queued_entities_for_removal w' = []
       /\ player w' = player (start w1)
       /\ Body.health (body (player w')) = 100%Z
       /\ running_id w' = 1%nat
       /\ hitEnemies w' = 0%Z
       /\ totEnemies w' = 0%Z
       /\ score w' = 0
       /\ timeElasped w' = config.update_rate_seconds.
Proof.
  intros Hs Hd Ha.
  split; [repeat split|]. split; [repeat split|].
  eexists. split; [unfold update; rewrite Hs; reflexivity|].
  split; [reflexivity|].
  unfold update_bookkeeping, restart_requested. rewrite Hd, Ha. simpl.
  repeat split.
Qed.

(** C7 applies to a session whose player has lost all health while space
    is held down. *)
Lemma C7_restart_witness :
  let p := player (start globals0) in
  let w := with_player
             (with_raw_input [32%Z]
                (with_body (Body.with_health 0 (body p)) p))
             (with_totEnemies 5 (with_hitEnemies 4 (start globals0))) in
  exists w', update config.update_rate_seconds 0.5 w = Some w'
             /\ hitEnemies w' = 0%Z /\ totEnemies w' = 0%Z /\ score w' = 0.
Proof.
  intros p w.
  eassert (E : update_simulate config.update_rate_seconds 0.5 w = Some _)
    by (vm_compute; reflexivity).
  destruct (C7_restart 0.5 w _ E) as (_ & _ & w' & Hu & _ & _ & _ & _ & _ & _ & Hh & Ht & Hsc & _);
    [reflexivity|reflexivity|].
  exists w'. auto.
Defined.

(* ------------------------------------------------------------------ *)
(** * The invariant of a session *)
(* ------------------------------------------------------------------ *)

Lemma entity_phase_refl (w : World) : entity_phase w w.
Proof. constructor; auto. intros b' H. exists b'. auto. Qed.

Lemma entity_phase_trans (w1 w2 w3 : World) :
  entity_phase w1 w2 -> entity_phase w2 w3 -> entity_phase w1 w3.
Proof.
  intros [] []. constructor; try congruence.
  intros b3 H3. destruct (ep_enemies1 b3 H3) as (b2 & H2 & E2).
  destruct (ep_enemies0 b2 H2) as (b1 & H1 & E1).
  exists b1. split; [assumption|congruence].
Qed.

(** ** Registry operations *)

Lemma entities_set_In (p : Player) (k : nat) (e x : Entity) (es : list Entity) :
  In x (entities_set p k e es) -> x = e \/ In x es.
Proof.
  induction es as [|a es IH]; simpl.
  - intros [<-|[]]. auto.
  - destruct (Entity_id p a =? k)%nat; [|destruct (k <? Entity_id p a)%nat].
    + simpl. intros [<-|H]; auto.
    + simpl. intros [<-|[<-|H]]; auto.
    + simpl. intros [<-|H]; auto. destruct (IH H); auto.
Qed.

Lemma entities_set_keep (p : Player) (k : nat) (e x : Entity) (es : list Entity) :
  In x es -> Entity_id p x <> k -> In x (entities_set p k e es).
Proof.
  induction es as [|a es IH]; simpl; [tauto|].
  intros [->|H] Hn.
  - apply Nat.eqb_neq in Hn. rewrite Hn.
    destruct (k <? Entity_id p x)%nat; simpl; auto.
  - destruct (Entity_id p a =? k)%nat; [|destruct (k <? Entity_id p a)%nat];
      simpl; auto.
Qed.

Lemma entities_store_In (b : Body.t) (x : Entity) (es : list Entity) :
  In x (entities_store b es) ->
  In x es
  \/ (x = EEnemy b /\ exists b0, In (EEnemy b0) es /\ Body.id b0 = Body.id b)
  \/ (x = EProjectile b
      /\ exists b0, In (EProjectile b0) es /\ Body.id b0 = Body.id b).
Proof.
  unfold entities_store. rewrite in_map_iff. intros (a & Ha & Hin).
  destruct a as [|b'|b'].
  - subst x. auto.
  - destruct (Body.id b' =? Body.id b)%nat eqn:E; subst x; auto.
    apply Nat.eqb_eq in E. right; left. split; [reflexivity|]. exists b'. auto.
  - destruct (Body.id b' =? Body.id b)%nat eqn:E; subst x; auto.
    apply Nat.eqb_eq in E. right; right. split; [reflexivity|]. exists b'. auto.
Qed.

Lemma entities_store_player (b : Body.t) (es : list Entity) :
  In EPlayer es -> In EPlayer (entities_store b es).
Proof.
  intros H. unfold entities_store. apply in_map_iff. exists EPlayer. auto.
Qed.

Lemma entities_store_nonzero (b : Body.t) (es : list Entity) :
  Forall entity_nonzero es -> Forall entity_nonzero (entities_store b es).
Proof.
  rewrite !Forall_forall. intros H x Hx.
  destruct (entities_store_In b x es Hx) as [Hin|[(-> & b0 & H0 & E)|(-> & b0 & H0 & E)]].
  - auto.
  - specialize (H _ H0). simpl in *. congruence.
  - specialize (H _ H0). simpl in *. congruence.
Qed.

Lemma entities_store_enemies (b : Body.t) (b' : Body.t) (es : list Entity) :
  In (EEnemy b') (entities_store b es) ->
  exists b0, In (EEnemy b0) es /\ Body.id b0 = Body.id b'.
Proof.
  intros H.
  destruct (entities_store_In b _ es H) as [Hin|[(E & b0 & H0 & Hid)|(E & _)]].
  - exists b'. auto.
  - injection E as ->. exists b0. auto.
  - discriminate.
Qed.

Lemma entities_get_some (p : Player) (k : nat) (e : Entity) (es : list Entity) :
  In e es -> Entity_id p e = k -> exists e0, entities_get p k es = Some e0.
Proof.
  intros Hin Hk. unfold entities_get.
  destruct (find _ es) as [e0|] eqn:F; [eauto|].
  pose proof (find_none _ _ F e Hin) as Hf. simpl in Hf.
  apply Nat.eqb_neq in Hf. contradiction.
Qed.

Lemma flush_In (p : Player) (q : list nat) (x : Entity) (es : list Entity) :
  In x (fold_left (fun l i => entities_delete p i l) q es) -> In x es.
Proof.
  revert es. induction q as [|i q IH]; simpl; intros es H; [assumption|].
  apply IH in H. unfold entities_delete in H. apply filter_In in H. tauto.
Qed.

Lemma flush_keep (p : Player) (q : list nat) (x : Entity) (es : list Entity) :
  In x es -> ~ In (Entity_id p x) q ->
  In x (fold_left (fun l i => entities_delete p i l) q es).
Proof.
  revert es. induction q as [|i q IH]; simpl; intros es H Hn; [assumption|].
  apply IH; [|tauto].
  unfold entities_delete. apply filter_In. split; [assumption|].
  apply negb_true_iff, Nat.eqb_neq. intros E. apply Hn. left. congruence.
Qed.

(** ** The update of one entity keeps the invariant *)

Lemma Body_remove_ok (i : nat) (w : World) :
  i <> 0%nat -> registry_ok w -> registry_ok (Body_remove i w).
Proof.
  intros Hi (H0 & Hp & Hn & Hr & Hq). repeat split; simpl; auto.
  rewrite in_app_iff. simpl. intuition congruence.
Qed.

Lemma store_ok (b : Body.t) (w : World) :
  registry_ok w ->
  registry_ok (with_entities (entities_store b (entities w)) w)
  /\ entity_phase w (with_entities (entities_store b (entities w)) w).
Proof.
  intros (H0 & Hp & Hn & Hr & Hq). split.
  - split; [exact H0|]. split; [apply entities_store_player; exact Hp|].
    split; [apply entities_store_nonzero; exact Hn|]. split; assumption.
  - constructor; simpl; auto. intros b'. apply entities_store_enemies.
Qed.

Lemma Body_remove_phase (i : nat) (w : World) : entity_phase w (Body_remove i w).
Proof. constructor; simpl; auto. intros b' H. exists b'. auto. Qed.

Lemma Enemy_update_ok (delta_time : float) (b : Body.t) (w : World) :
  Body.id b <> 0%nat -> registry_ok w ->
  registry_ok (Enemy_update delta_time b w)
  /\ entity_phase w (Enemy_update delta_time b w).
Proof.
  intros Hb Hw. unfold Enemy_update.
  destruct (JS.gtb _ _).
  - destruct (store_ok (Body.update delta_time (Enemy_advance b))
                (Body_remove (Body.id (Enemy_advance b)) w)
                (Body_remove_ok _ w Hb Hw)) as [H1 H2].
    split; [exact H1|].
    eapply entity_phase_trans; [apply Body_remove_phase|exact H2].
  - apply store_ok. assumption.
Qed.

Lemma projectile_update_ok (b : Body.t) (w : World) :
  Body.id b <> 0%nat -> registry_ok w ->
  registry_ok (projectile_update b w) /\ entity_phase w (projectile_update b w).
Proof.
  intros Hb Hw. unfold projectile_update.
  match goal with
  | |- context [entities_store ?b2 _] =>
      destruct (store_ok b2 w Hw) as [H1 H2]
  end.
  destruct (_ <? _).
  - split; [apply Body_remove_ok; assumption|].
    eapply entity_phase_trans; [exact H2|apply Body_remove_phase].
  - split; assumption.
Qed.

Lemma new_projectile_ok (w : World) :
  registry_ok w ->
  exists w', new_projectile w = Some w'
    /\ registry_ok w' /\ entity_phase w w' /\ player w' = player w.
Proof.
  intros (H0 & Hp & Hn & Hr & Hq). unfold new_projectile.
  set (i := running_id w).
  set (w2 := with_entities _ (with_running_id (S i) w)).
  assert (Hp2 : In EPlayer (entities w2)).
  { subst w2. simpl. apply entities_set_keep; [assumption|].
    unfold Entity_id. simpl. rewrite H0. subst i. auto. }
  destruct (entities_get_some (player w2) 0 EPlayer (entities w2) Hp2)
    as [e0 He0]; [exact H0|].
  rewrite He0. eexists. split; [reflexivity|].
  assert (Hw2 : registry_ok w2).
  { repeat split; simpl; auto.
    rewrite Forall_forall. intros x Hx.
    apply entities_set_In in Hx. destruct Hx as [->|Hx].
    - simpl. exact Hr.
    - rewrite Forall_forall in Hn. auto. }
  assert (Ph : entity_phase w w2).
  { constructor; simpl; auto. intros b' Hb'.
    apply entities_set_In in Hb'. destruct Hb' as [E|Hb']; [discriminate|].
    exists b'. auto. }
  match goal with
  | |- context [entities_store ?b _] => destruct (store_ok b w2 Hw2) as [H1 H2]
  end.
  split; [exact H1|]. split; [|reflexivity].
  eapply entity_phase_trans; eassumption.
Qed.

Lemma Player_move_id (c : Controller) (b : Body.t) :
  Body.id (Player_move c b) = Body.id b.
Proof.
  unfold Player_move, Player_move_diagonal.
  repeat match goal with |- context [if ?c then _ else _] => destruct c end;
    reflexivity.
Qed.

(** Replacing the player's body by one with the same id. *)
Lemma with_body_ok (b : Body.t) (w : World) :
  Body.id b = Body.id (body (player w)) -> registry_ok w ->
  registry_ok (with_player (with_body b (player w)) w)
  /\ entity_phase w (with_player (with_body b (player w)) w).
Proof.
  intros Hb (H0 & Hp & Hn & Hr & Hq). split.
  - repeat split; simpl; auto. congruence.
  - constructor; simpl; auto. intros b' H. exists b'. auto.
Qed.

Lemma with_timer_ok (t : float) (w : World) :
  registry_ok w ->
  registry_ok (with_player (with_timer t (player w)) w)
  /\ entity_phase w (with_player (with_timer t (player w)) w).
Proof.
  intros (H0 & Hp & Hn & Hr & Hq). split.
  - repeat split; simpl; auto.
  - constructor; simpl; auto. intros b' H. exists b'. auto.
Qed.

Lemma Player_fire_ok (delta_time : float) (w : World) :
  registry_ok w ->
  exists w', Player_fire delta_time w = Some w'
    /\ registry_ok w' /\ entity_phase w w'.
Proof.
  intros Hw. unfold Player_fire. destruct (JS.geb _ _).
  - destruct (with_timer_ok 0 w Hw) as [H1 H2].
    destruct (action_1 _).
    + destruct (new_projectile_ok _ H1) as (w' & E & Hok & Hph & _).
      exists w'. split; [exact E|]. split; [exact Hok|].
      eapply entity_phase_trans; eassumption.
    + eexists. split; [reflexivity|]. split; assumption.
  - eexists. split; [reflexivity|]. apply with_timer_ok. assumption.
Qed.

Lemma Player_update_ok (delta_time : float) (w : World) :
  registry_ok w ->
  exists w', Player_update delta_time w = Some w'
    /\ registry_ok w' /\ entity_phase w w'.
Proof.
  intros Hw. unfold Player_update.
  destruct (with_body_ok (Player_move (controller (player w)) (body (player w))) w
              (Player_move_id _ _) Hw) as [H1 P1].
  destruct (Player_fire_ok delta_time _ H1) as (w2 & E & H2 & P2).
  rewrite E. eexists. split; [reflexivity|].
  destruct (with_body_ok (Player_clip (Body.update delta_time (body (player w2)))) w2
              eq_refl H2) as [H3 P3].
  split; [exact H3|].
  eapply entity_phase_trans; [exact P1|].
  eapply entity_phase_trans; eassumption.
Qed.

Lemma Entity_update_ok (delta_time : float) (e : Entity) (w : World) :
  entity_nonzero e -> registry_ok w ->
  exists w', Entity_update delta_time e w = Some w'
    /\ registry_ok w' /\ entity_phase w w'.
Proof.
  intros He Hw. destruct e as [|b|b]; simpl in *.
  - apply Player_update_ok. assumption.
  - eexists. split; [reflexivity|]. apply Enemy_update_ok; assumption.
  - eexists. split; [reflexivity|]. apply projectile_update_ok; assumption.
Qed.

Lemma forEach_update_ok (delta_time : float) (l : list Entity) (w : World) :
  Forall entity_nonzero l -> registry_ok w ->
  exists w', forEach_update delta_time l w = Some w'
    /\ registry_ok w' /\ entity_phase w w'.
Proof.
  intros Hl. revert w. induction Hl as [|e l He Hl IH]; intros w Hw; simpl.
  - exists w. auto using entity_phase_refl.
  - destruct (Entity_update_ok delta_time e w He Hw) as (w1 & E & H1 & P1).
    rewrite E. destruct (IH w1 H1) as (w' & E' & H' & P').
    exists w'. split; [exact E'|]. split; [exact H'|].
    eapply entity_phase_trans; eassumption.
Qed.

(** ** A whole step keeps the invariant and never throws *)

Lemma same_entities_player (l l' : list Entity) :
  Forall2 same_entity_but_health l l' -> In EPlayer l -> In EPlayer l'.
Proof.
  intros H. induction H as [|a a' l l' Ha Hl IH]; simpl; [tauto|].
  intros [->|Hin]; [|auto].
  destruct a'; simpl in Ha; try contradiction. auto.
Qed.

Lemma same_entities_nonzero (l l' : list Entity) :
  Forall2 same_entity_but_health l l' ->
  Forall entity_nonzero l -> Forall entity_nonzero l'.
Proof.
  intros H. induction H as [|a a' l l' Ha Hl IH]; intros F; [constructor|].
  inversion F as [|x xs Hx Hxs]; subst. constructor; [|auto].
  destruct a, a'; simpl in *; try contradiction; auto;
    destruct Ha as (Hi & _); congruence.
Qed.

Lemma same_entities_enemies (l l' : list Entity) (b' : Body.t) :
  Forall2 same_entity_but_health l l' -> In (EEnemy b') l' ->
  exists b, In (EEnemy b) l /\ Body.id b = Body.id b'.
Proof.
  intros H. induction H as [|a a' l l' Ha Hl IH]; simpl; [tauto|].
  intros [->|Hin].
  - destruct a as [|b|b]; simpl in Ha; try contradiction.
    destruct Ha as (Hi & _). exists b. auto.
  - destruct (IH Hin) as (b & Hb & E). exists b. auto.
Qed.

Lemma collisionHandler_update_ok (w : World) :
  registry_ok w ->
  registry_ok (collisionHandler_update w)
  /\ entity_phase w (collisionHandler_update w).
Proof.
  intros (H0 & Hp & Hn & Hr & Hq).
  destruct (collisionHandler_update_frame w) as [].
  destruct cf_player_body0 as (Hid & _).
  destruct cf_queue0 as (a & Ha & Na).
  split.
  - split; [congruence|].
    split; [eapply same_entities_player; eassumption|].
    split; [eapply same_entities_nonzero; eassumption|].
    split; [congruence|].
    rewrite Ha, in_app_iff. tauto.
  - constructor; auto.
    intros b'. apply same_entities_enemies. assumption.
Qed.

Lemma flush_removals_ok (w : World) :
  registry_ok w ->
  registry_ok (flush_removals w) /\ entity_phase w (flush_removals w).
Proof.
  intros (H0 & Hp & Hn & Hr & Hq). split.
  - split; [exact H0|].
    split; [simpl; apply flush_keep; [exact Hp|]|].
    { unfold Entity_id. simpl. rewrite H0. exact Hq. }
    split; [|split; [exact Hr|simpl; tauto]].
    simpl. rewrite Forall_forall in *. intros x Hx.
    apply Hn. eapply flush_In. eassumption.
  - constructor; simpl; auto.
    intros b' Hb'. exists b'. split; [|reflexivity].
    eapply flush_In. eassumption.
Qed.

Lemma new_Enemy_ok (rnd : float) (w : World) :
  registry_ok w -> registry_ok (new_Enemy rnd w).
Proof.
  intros (H0 & Hp & Hn & Hr & Hq). unfold new_Enemy.
  split; [exact H0|].
  split; [simpl; apply entities_set_keep; [exact Hp|]|].
  { unfold Entity_id. simpl. rewrite H0. auto. }
  split; [|split; [simpl; discriminate|exact Hq]].
  simpl. rewrite Forall_forall in *. intros x Hx.
  apply entities_set_In in Hx. destruct Hx as [->|Hx]; [exact Hr|auto].
Qed.

Lemma enemySpawner_update_ok (delta_time rnd : float) (s : enemySpawner) (w : World) :
  registry_ok w -> registry_ok (enemySpawner_update delta_time rnd s w).
Proof.
  intros Hw. unfold enemySpawner_update. destruct (JS.geb _ _).
  - apply (new_Enemy_ok rnd (with_enemy_spawner (Some (mkSpawner 0)) w)).
    exact Hw.
  - exact Hw.
Qed.

Lemma start_ok (w : World) : registry_ok (start w).
Proof.
  repeat split; simpl; auto.
  constructor; simpl; auto.
Qed.

Lemma pollController_ok (w : World) :
  registry_ok w ->
  registry_ok (with_player (InputHandler_pollController (player w)) w)
  /\ entity_phase w (with_player (InputHandler_pollController (player w)) w).
Proof.
  intros (H0 & Hp & Hn & Hr & Hq). split.
  - repeat split; simpl; auto.
  - constructor; simpl; auto. intros b' H. exists b'. auto.
Qed.

(** Everything [update] does before the spawner call. *)
Lemma update_before_spawner (delta_time rnd : float) (w : World) :
  registry_ok w ->
  exists w4,
    registry_ok w4 /\ entity_phase w w4
    /\ update_simulate delta_time rnd w
         = Some match enemy_spawner w4 with
                | Some s => enemySpawner_update delta_time rnd s w4
                | None => w4
                end.
Proof.
  intros Hw. unfold update_simulate.
  destruct (pollController_ok w Hw) as [H1 P1].
  set (w1 := with_player (InputHandler_pollController (player w)) w) in *.
  assert (Hsnap : Forall entity_nonzero (Object_values w1)).
  { destruct H1 as (_ & _ & Hn & _). exact Hn. }
  destruct (forEach_update_ok delta_time _ w1 Hsnap H1) as (w2 & E & H2 & P2).
  rewrite E.
  assert (H3 : registry_ok (if collision_handler w2
                            then collisionHandler_update w2 else w2)
               /\ entity_phase w2 (if collision_handler w2
                                   then collisionHandler_update w2 else w2)).
  { destruct (collision_handler w2);
      [apply collisionHandler_update_ok; exact H2
      |split; [exact H2|apply entity_phase_refl]]. }
  destruct H3 as [H3 P3].
  destruct (flush_removals_ok _ H3) as [H4 P4].
  eexists. split; [exact H4|]. split; [|reflexivity].
  eapply entity_phase_trans; [exact P1|].
  eapply entity_phase_trans; [exact P2|].
  eapply entity_phase_trans; eassumption.
Qed.

Lemma update_simulate_ok (delta_time rnd : float) (w : World) :
  registry_ok w ->
  exists w1, update_simulate delta_time rnd w = Some w1 /\ registry_ok w1.
Proof.
  intros Hw.
  destruct (update_before_spawner delta_time rnd w Hw) as (w4 & H4 & _ & E).
  rewrite E. eexists. split; [reflexivity|].
  destruct (enemy_spawner w4); [apply enemySpawner_update_ok|]; exact H4.
Qed.

Lemma update_bookkeeping_ok (delta_time : float) (w : World) :
  registry_ok w -> registry_ok (update_bookkeeping delta_time w).
Proof.
  intros Hw. unfold update_bookkeeping.
  assert (H1 : registry_ok (if restart_requested w then start w else w))
    by (destruct (restart_requested w); [apply start_ok|exact Hw]).
  destruct (negb _); exact H1.
Qed.

(** From a state that satisfies the invariant [update] returns, and the
    state it returns satisfies the invariant. *)
Lemma update_ok (delta_time rnd : float) (w : World) :
  registry_ok w ->
  exists w', update delta_time rnd w = Some w' /\ registry_ok w'.
Proof.
  intros Hw. unfold update.
  destruct (update_simulate_ok delta_time rnd w Hw) as (w1 & E & H1).
  rewrite E. eexists. split; [reflexivity|].
  apply update_bookkeeping_ok. exact H1.
Qed.

Lemma draw_ok (w : World) : registry_ok w -> registry_ok (draw w).
Proof. intros Hw. unfold draw. destruct (Body.isDead _); exact Hw. Qed.

(** After [draw] a dead player has no spawner. *)
Lemma draw_spawner (w : World) :
  Body.isDead (body (player (draw w))) = true -> enemy_spawner (draw w) = None.
Proof.
  unfold draw. destruct (Body.isDead (body (player w))) eqn:E; simpl.
  - reflexivity.
  - rewrite E. discriminate.
Qed.

(** Between steps the invariant holds and a dead player has no spawner. *)
Lemma reachable_ok (w : World) :
  reachable w ->
  registry_ok w
  /\ (Body.isDead (body (player w)) = true -> enemy_spawner w = None).
Proof.
  intros R. induction R as [|w k R IH|w k R IH|w t R IH|w w' rnd t R IH U].
  - split; [apply start_ok|]. vm_compute. discriminate.
  - destruct IH as [(H0 & Hp & Hn & Hr & Hq) Hs].
    split; [repeat split; assumption|exact Hs].
  - destruct IH as [(H0 & Hp & Hn & Hr & Hq) Hs].
    split; [repeat split; assumption|exact Hs].
  - destruct IH as [(H0 & Hp & Hn & Hr & Hq) Hs].
    split; [repeat split; assumption|exact Hs].
  - destruct IH as [Hw _]. unfold loop_body in U.
    destruct (update_ok config.update_rate_seconds (rnd (loop_count w)) w Hw)
      as (w1 & E & H1).
    rewrite E in U. injection U as <-.
    split.
    + destruct (draw_ok w1 H1) as (H0 & Hp & Hn & Hr & Hq).
      repeat split; assumption.
    + simpl. apply draw_spawner.
Qed.

(* ------------------------------------------------------------------ *)
(** * The loop *)
(* ------------------------------------------------------------------ *)

Lemma enemySpawner_update_loop_count (delta_time rnd : float) (s : enemySpawner)
  (w : World) :
  loop_count (enemySpawner_update delta_time rnd s w) = loop_count w.
Proof. unfold enemySpawner_update. destruct (JS.geb _ _); reflexivity. Qed.

Lemma update_bookkeeping_loop_count (delta_time : float) (w : World) :
  loop_count (update_bookkeeping delta_time w) = loop_count w.
Proof.
  unfold update_bookkeeping.
  destruct (restart_requested w); simpl;
    try match goal with |- context [if ?c then _ else _] => destruct c end;
    reflexivity.
Qed.

Lemma draw_loop_count (w : World) : loop_count (draw w) = loop_count w.
Proof. unfold draw. destruct (Body.isDead _); reflexivity. Qed.

(** A pass through the loop body from a state that satisfies the
    invariant returns, adds one to the loop count and notes the time. *)
Lemma loop_body_ok (rnd : nat -> float) (curr_time : float) (w : World) :
  registry_ok w ->
  exists w', loop_body rnd curr_time w = Some w'
    /\ registry_ok w'
    /\ loop_count w' = S (loop_count w)
    /\ last_time w' = Some curr_time.
Proof.
  intros Hw. unfold loop_body, update.
  destruct (update_before_spawner config.update_rate_seconds
              (rnd (loop_count w)) w Hw) as (w4 & H4 & P4 & E).
  rewrite E. eexists. split; [reflexivity|].
  set (w5 := match enemy_spawner w4 with
             | Some s => enemySpawner_update _ _ s w4
             | None => w4
             end).
  assert (H5 : registry_ok w5 /\ loop_count w5 = loop_count w).
  { subst w5. destruct (enemy_spawner w4).
    - split; [apply enemySpawner_update_ok; exact H4|].
      rewrite enemySpawner_update_loop_count. apply (ep_loop_count _ _ P4).
    - split; [exact H4|apply (ep_loop_count _ _ P4)]. }
  destruct H5 as [H5 L5].
  destruct (draw_ok _ (update_bookkeeping_ok config.update_rate_seconds w5 H5))
    as (H0 & Hp & Hn & Hr & Hq).
  split; [repeat split; assumption|].
  split; [|reflexivity].
  simpl. f_equal.
  rewrite draw_loop_count, update_bookkeeping_loop_count. exact L5.
Qed.

Lemma loop_while_step (fuel : nat) (rnd : nat -> float)
  (curr_time delta_time : float) (w w' : World) :
  JS.gtb delta_time config.update_rate_seconds = true ->
  loop_body rnd curr_time w = Some w' ->
  loop_while (S fuel) rnd curr_time delta_time w
    = loop_while fuel rnd curr_time (delta_time - config.update_rate_seconds) w'.
Proof. intros Hd Hb. simpl. rewrite Hd, Hb. reflexivity. Qed.

Lemma loop_while_stop (fuel : nat) (rnd : nat -> float)
  (curr_time delta_time : float) (w : World) :
  JS.gtb delta_time config.update_rate_seconds = false ->
  loop_while fuel rnd curr_time delta_time w = Returns (w, delta_time).
Proof. intros Hd. destruct fuel; simpl; rewrite Hd; reflexivity. Qed.

(** What [loop] returns is again a state between steps. *)
Lemma loop_while_reachable (fuel : nat) (rnd : nat -> float)
  (curr_time delta_time d' : float) (w w' : World) :
  reachable w ->
  loop_while fuel rnd curr_time delta_time w = Returns (w', d') ->
  reachable w'.
Proof.
  revert delta_time w. induction fuel as [|fuel IH]; intros delta_time w R; simpl.
  - destruct (JS.gtb _ _); [discriminate|].
    intros H. injection H as <- _. exact R.
  - destruct (JS.gtb _ _).
    + destruct (loop_body rnd curr_time w) as [w1|] eqn:E; [|discriminate].
      apply IH. eapply reach_step; eassumption.
    + intros H. injection H as <- _. exact R.
Qed.

Lemma loop_reachable (fuel : nat) (rnd : nat -> float)
  (curr_time d' : float) (w w' : World) :
  reachable w -> loop fuel rnd curr_time w = Returns (w', d') -> reachable w'.
Proof.
  intros R. unfold loop. apply loop_while_reachable. apply reach_time. exact R.
Qed.

Lemma run_steps_reachable (n : nat) (rnd : nat -> float) (t : float) (w w' : World) :
  reachable w -> run_steps n rnd t w = Some w' -> reachable w'.
Proof.
  revert w. induction n as [|n IH]; intros w R; simpl.
  - intros H. injection H as <-. exact R.
  - destruct (loop_body rnd t w) as [w1|] eqn:E; [|discriminate].
    apply IH. eapply reach_step; eassumption.
Qed.

(** The fixed step, 0.05 s and what is left of it, in binary64: after two
    steps the remainder is still above one step, after three it is not. *)
Lemma remainder_after_steps :
  JS.gtb 0.05 config.update_rate_seconds = true
  /\ JS.gtb (0.05 - config.update_rate_seconds) config.update_rate_seconds = true
  /\ JS.gtb (0.05 - config.update_rate_seconds - config.update_rate_seconds)
            config.update_rate_seconds = true
  /\ JS.gtb (0.05 - config.update_rate_seconds - config.update_rate_seconds
             - config.update_rate_seconds)
            config.update_rate_seconds = false
  /\ (0.05 - config.update_rate_seconds - config.update_rate_seconds
      - config.update_rate_seconds <? config.update_rate_seconds) = true.
Proof. repeat split; vm_compute; reflexivity. Qed.

(** In exact arithmetic the remainder after two steps would be exactly
    one step, which does not exceed it; the third step is an effect of
    rounding. *)
Lemma exact_remainder_after_two_steps :
  ((5 # 100) - (1 # 60) - (1 # 60) == (1 # 60))%Q.
Proof. reflexivity. Qed.

(** C8, as stated, fails: a callback 50 ms after the last processed time
    (accumulated time 0.05 s) runs 3 steps, not 2, because in binary64
    0.05 - 1/60 - 1/60 is 0.016666666666666673, which exceeds
    1/60 = 0.016666666666666666. *)
Lemma C8_two_steps_fails :
  let w := with_last_time (Some 0) (start globals0) in
  50 / 1000 - 0 = 0.05
  /\ loop_count w = 0%nat
  /\ exists w' d, loop 10 (fun _ => 0.5) 50 w = Returns (w', d)
       /\ loop_count w' = 3%nat
       /\ loop_count w' <> 2%nat.
Proof.
  split; [vm_compute; reflexivity|]. split; [reflexivity|].
  eexists. eexists. split; [vm_compute; reflexivity|].
  split; [reflexivity|discriminate].
Qed.

(** C8 (amended): a callback that finds 0.05 s accumulated since the last
    processed time runs exactly 3 simulation steps (given fuel for 3), and
    the accumulated time left is strictly less than one fixed step. *)
Theorem C8_loop_three_steps (fuel : nat) (rnd : nat -> float)
  (curr_time t : float) (w : World) :
  registry_ok w ->
  last_time w = Some t ->
  curr_time / 1000 - t = 0.05 ->
  (3 <= fuel)%nat ->
  exists w' d,
    loop fuel rnd curr_time w = Returns (w', d)
    /\ loop_count w' = (loop_count w + 3)%nat
    /\ (d <? config.update_rate_seconds) = true
    /\ last_time w' = Some (curr_time / 1000)
    /\ registry_ok w'.
Proof.
  intros Hw Hl Hd Hf.
  destruct fuel as [|[|[|fuel]]]; try lia.
  unfold loop. rewrite Hl, Hd.
  assert (H0 : registry_ok (with_last_time (Some t) w)).
  { destruct Hw as (H0 & Hp & Hn & Hr & Hq). repeat split; assumption. }
  destruct remainder_after_steps as (G0 & G1 & G2 & G3 & G4).
  destruct (loop_body_ok rnd (curr_time / 1000) _ H0) as (w1 & E1 & H1 & L1 & _).
  destruct (loop_body_ok rnd (curr_time / 1000) _ H1) as (w2 & E2 & H2 & L2 & _).
  destruct (loop_body_ok rnd (curr_time / 1000) _ H2) as (w3 & E3 & H3 & L3 & T3).
  rewrite (loop_while_step _ rnd _ _ _ _ G0 E1).
  rewrite (loop_while_step _ rnd _ _ _ _ G1 E2).
  rewrite (loop_while_step _ rnd _ _ _ _ G2 E3).
  rewrite (loop_while_stop _ rnd _ _ _ G3).
  exists w3. eexists. split; [reflexivity|].
  split; [rewrite L3, L2, L1; simpl; lia|].
  split; [exact G4|]. split; assumption.
Qed.

(** C8 applies to the first callback 50 ms after a session's start. *)
Lemma C8_loop_three_steps_witness :
  let w := with_last_time (Some 0) (start globals0) in
  exists w' d, loop 3 (fun _ => 0.5) 50 w = Returns (w', d)
    /\ loop_count w' = 3%nat
    /\ (d <? config.update_rate_seconds) = true.
Proof.
  intros w.
  destruct (C8_loop_three_steps 3 (fun _ => 0.5) 50 0 w)
    as (w' & d & E & L & D & _).
  - repeat split; simpl; auto. constructor; simpl; auto.
  - reflexivity.
  - vm_compute. reflexivity.
  - lia.
  - exists w', d. auto.
Defined.

(* ------------------------------------------------------------------ *)
(** * The spawner and the game-over state *)
(* ------------------------------------------------------------------ *)

Lemma update_simulate_split (delta_time rnd : float) (w : World) :
  update_simulate delta_time rnd w
  = match update_to_flush delta_time w with
    | None => None
    | Some w4 =>
        Some match enemy_spawner w4 with
             | Some s => enemySpawner_update delta_time rnd s w4
             | None => w4
             end
    end.
Proof.
  unfold update_simulate, update_to_flush. cbv zeta.
  destruct (forEach_update _ _ _); reflexivity.
Qed.

(** C9, as stated, fails: in the step in which the player dies the
    spawner is called while [player.isDead()] holds, and it can spawn.
    In the session in which every enemy spawns in the player's column and
    "up" (key 87) is held for the first 19 steps, the step with loop
    count 209 begins with the player alive; collision resolution takes
    the player's health to 0; the spawner, which [draw] disables only
    after the step, is then called with the player dead, creates an enemy
    and takes the spawn counter from 4 to 5. *)
Lemma C9_spawn_while_dead :
  exists w w4 s,
    reachable w
    /\ loop_count w = 209%nat
    /\ Body.isDead (body (player w)) = false
    /\ update_to_flush config.update_rate_seconds w = Some w4
    /\ Body.isDead (body (player w4)) = true
    /\ enemy_spawner w4 = Some s
    /\ update_simulate config.update_rate_seconds 0.5 w
         = Some (enemySpawner_update config.update_rate_seconds 0.5 s w4)
    /\ totEnemies w4 = 4%Z
    /\ totEnemies (enemySpawner_update config.update_rate_seconds 0.5 s w4) = 5%Z
    /\ length (entities (enemySpawner_update config.update_rate_seconds 0.5 s w4))
         = S (length (entities w4)).
Proof.
  pose (w1 := with_player (InputHandler_keydown 87 (player (start globals0)))
                (start globals0)).
  assert (R1 : reachable w1) by (apply reach_keydown, reach_start).
  eassert (E2 : run_steps 19 (fun _ => 0.5) 0 w1 = Some _)
    by (vm_compute; reflexivity).
  pose proof (run_steps_reachable _ _ _ _ _ R1 E2) as R2.
  pose proof (reach_keyup _ 87 R2) as R3.
  match type of R3 with
  | reachable ?w3 =>
      eassert (E4 : run_steps 190 (fun _ => 0.5) 0 w3 = Some _)
        by (vm_compute; reflexivity)
  end.
  pose proof (run_steps_reachable _ _ _ _ _ R3 E4) as R4.
  match type of R4 with
  | reachable ?w =>
      eassert (E5 : update_to_flush config.update_rate_seconds w = Some _)
        by (vm_compute; reflexivity)
  end.
  eexists. eexists. eexists. split; [exact R4|].
  split; [reflexivity|]. split; [reflexivity|].
  split; [exact E5|]. split; [reflexivity|]. split; [reflexivity|].
  split; [rewrite update_simulate_split, E5; reflexivity|].
  split; [reflexivity|]. split; vm_compute; reflexivity.
Qed.

(** C9 (amended): a step that the loop runs while the player is dead, that is, a
    step of a session that begins with the player dead, finds the spawner
    disabled (the [draw] that followed the player's death set it to
    null).  The step returns; up to the restart check the spawn counter is
    unchanged and every enemy in the registry was there before the step;
    the spawner is still disabled.  At the end of the step the spawn
    counter is either unchanged or, if the step restarted the session, 0,
    and again no enemy has been added. *)
Theorem C9_no_spawn_when_dead (rnd : float) (w : World) :
  reachable w ->
  Body.isDead (body (player w)) = true ->
  enemy_spawner w = None
  /\ exists w1 w',
       update_simulate config.update_rate_seconds rnd w = Some w1
       /\ update config.update_rate_seconds rnd w = Some w'
       /\ enemy_spawner w1 = None
       /\ totEnemies w1 = totEnemies w
       /\ (forall b', In (EEnemy b') (entities w1) ->
             exists b, In (EEnemy b) (entities w) /\ Body.id b = Body.id b')
       /\ (totEnemies w' = totEnemies w \/ totEnemies w' = 0%Z)
       /\ (forall b', In (EEnemy b') (entities w') ->
             exists b, In (EEnemy b) (entities w) /\ Body.id b = Body.id b').
Proof.
  intros R Hd. destruct (reachable_ok w R) as [Hw Hs].
  specialize (Hs Hd). split; [exact Hs|].
  destruct (update_before_spawner config.update_rate_seconds rnd w Hw)
    as (w4 & H4 & P4 & E).
  assert (S4 : enemy_spawner w4 = None)
    by (rewrite (ep_spawner _ _ P4); exact Hs).
  rewrite S4 in E.
  exists w4, (update_bookkeeping config.update_rate_seconds w4).
  split; [exact E|].
  split; [unfold update; rewrite E; reflexivity|].
  split; [exact S4|].
  split; [apply (ep_totEnemies _ _ P4)|].
  split; [apply (ep_enemies _ _ P4)|].
  unfold update_bookkeeping. destruct (restart_requested w4).
  - split; [right; reflexivity|].
    simpl. intros b' [H|[]]. discriminate.
  - destruct (negb (Body.isDead (body (player w4)))); simpl;
      (split; [left; apply (ep_totEnemies _ _ P4)|apply (ep_enemies _ _ P4)]).
Qed.

(** C9 applies to the session in which every enemy spawns in the player's
    column and nothing is pressed: after 280 steps two enemies have
    reached the player, who is dead; the next step spawns nothing. *)
Lemma C9_no_spawn_when_dead_witness :
  exists w w',
    run_steps 280 (fun _ => 0.5) 0 (start globals0) = Some w
    /\ Body.isDead (body (player w)) = true
    /\ update config.update_rate_seconds 0.5 w = Some w'
    /\ totEnemies w' = 6%Z.
Proof.
  eexists.
  eassert (E : run_steps 280 (fun _ => 0.5) 0 (start globals0) = Some _)
    by (vm_compute; reflexivity).
  assert (R := run_steps_reachable 280 (fun _ => 0.5) 0 _ _ reach_start E).
  destruct (C9_no_spawn_when_dead 0.5 _ R eq_refl)
    as (_ & w1 & w' & _ & U & _ & _ & _ & [T|T] & _).
  - exists w'. split; [exact E|]. split; [reflexivity|]. split; [exact U|].
    rewrite T. reflexivity.
  - exists w'. split; [exact E|]. split; [reflexivity|]. split; [exact U|].
    exfalso. vm_compute in U. injection U as <-. vm_compute in T. discriminate T.
Defined.


(* ------------------------------------------------------------------ *)
(** * The player stays on the canvas *)
(* ------------------------------------------------------------------ *)

Lemma leb_not_nan_l (a b : float) : (a <=? b) = true -> is_nan a = false.
Proof.
  intros H. destruct (is_nan a) eqn:E; [|reflexivity].
  apply is_nan_spec in E. rewrite leb_spec in H. unfold SFleb in H.
  rewrite E in H. discriminate.
Qed.

Lemma in_canvas_numbers (p : Vec.t) :
  in_canvas p -> is_nan (Vec.x p) = false /\ is_nan (Vec.y p) = false.
Proof.
  intros (_ & Hx & _ & Hy). split; eapply leb_not_nan_l; eassumption.
Qed.

Lemma Entity_update_tidy (delta_time : float) (e : Entity) (w w' : World) :
  JS.isFinite delta_time = true ->
  Entity_update delta_time e w = Some w' -> player_tidy w -> player_tidy w'.
Proof.
  intros Hdt Hu (Hv & Hc & Hx & Hy). destruct e as [|b|b]; simpl in Hu.
  - destruct (in_canvas_numbers _ Hc) as [Nx Ny].
    destruct (Player_update_in_canvas delta_time w w' Hu Hx Hy Hv Nx Ny Hdt)
      as [Hc' Hv'].
    unfold Player_update in Hu.
    destruct (Player_fire delta_time _) as [w2|] eqn:E; [|discriminate].
    injection Hu as <-. apply Player_fire_player in E.
    destruct E as (_ & Ec & _). simpl in Ec.
    split; [exact Hv'|]. split; [exact Hc'|].
    simpl. rewrite Ec. split; assumption.
  - injection Hu as <-. unfold player_tidy.
    rewrite Enemy_update_player. auto.
  - injection Hu as <-. unfold player_tidy.
    rewrite projectile_update_player. auto.
Qed.

Lemma forEach_update_tidy (delta_time : float) (l : list Entity) (w w' : World) :
  JS.isFinite delta_time = true ->
  forEach_update delta_time l w = Some w' -> player_tidy w -> player_tidy w'.
Proof.
  intros Hdt. revert w. induction l as [|e l IH]; simpl; intros w H T.
  - injection H as <-. exact T.
  - destruct (Entity_update delta_time e w) as [w1|] eqn:E; [|discriminate].
    apply (IH w1 H). eapply Entity_update_tidy; eassumption.
Qed.

Lemma start_tidy (w : World) : player_tidy (start w).
Proof.
  unfold player_tidy, in_canvas, axis_value. simpl.
  repeat split; auto.
Qed.

(** [player_tidy] looks at the player object only. *)
Lemma player_tidy_player (w w' : World) :
  player w' = player w -> player_tidy w -> player_tidy w'.
Proof. unfold player_tidy. intros ->. auto. Qed.

Lemma player_if_timeElasped (c : bool) (t : float) (w : World) :
  player (if c then with_timeElasped t w else w) = player w.
Proof. destruct c; reflexivity. Qed.

Lemma update_bookkeeping_player (delta_time : float) (w : World) :
  player (update_bookkeeping delta_time w)
    = player (if restart_requested w then start w else w).
Proof.
  unfold update_bookkeeping. cbv zeta.
  change (player (with_score ?s ?x)) with (player x).
  apply player_if_timeElasped.
Qed.

Lemma update_tidy (delta_time rnd : float) (w w' : World) :
  JS.isFinite delta_time = true ->
  update delta_time rnd w = Some w' -> player_tidy w -> player_tidy w'.
Proof.
  intros Hdt Hu (Hv & Hc & _ & _). unfold update, update_simulate in Hu.
  destruct (forEach_update _ _ _) as [w2|] eqn:E; [|discriminate].
  injection Hu as <-.
  assert (T1 : player_tidy (with_player (InputHandler_pollController (player w)) w)).
  { destruct (pollController_axes (player w)) as [Ax Ay].
    split; [exact Hv|]. split; [exact Hc|]. split; assumption. }
  pose proof (forEach_update_tidy delta_time _ _ _ Hdt E T1) as T2.
  assert (T3 : player_tidy (if collision_handler w2
                            then collisionHandler_update w2 else w2)).
  { destruct (collision_handler w2); [|exact T2].
    destruct (collisionHandler_update_frame w2) as [].
    destruct cf_player_body0 as (_ & Hp & Hvel & _).
    destruct T2 as (V2 & C2 & X2 & Y2).
    unfold player_tidy. rewrite Hp, Hvel, cf_controller0. auto. }
  match goal with
  | |- player_tidy (update_bookkeeping _ ?w5) =>
      assert (T5 : player_tidy w5)
  end.
  { match goal with
    | |- context [enemy_spawner ?x] => destruct (enemy_spawner x)
    end.
    - unfold player_tidy. rewrite enemySpawner_update_player. exact T3.
    - exact T3. }
  apply (player_tidy_player _ _ (update_bookkeeping_player delta_time _)).
  match goal with
  | |- context [restart_requested ?x] => destruct (restart_requested x)
  end; [apply start_tidy|exact T5].
Qed.

(** Between steps the player is at rest on the canvas. *)
Lemma reachable_tidy (w : World) : reachable w -> player_tidy w.
Proof.
  intros R. induction R as [|w k R IH|w k R IH|w t R IH|w w' rnd t R IH U].
  - apply start_tidy.
  - exact IH.
  - exact IH.
  - exact IH.
  - unfold loop_body in U.
    destruct (update _ _ w) as [w1|] eqn:E; [|discriminate].
    injection U as <-.
    pose proof (update_tidy config.update_rate_seconds _ _ _ eq_refl E IH) as T.
    unfold player_tidy, draw in *. destruct (Body.isDead _); exact T.
Qed.

(** C6: [Player.update] ends by clamping both axes, each on its own, to
    the canvas: the x the update leaves is the x the player has after
    moving and integrating, clamped to [0, canvas width], and the y
    likewise to [0, canvas height]; nothing else of the body is changed
    by the clamping.  So after the update the position lies within
    [0, canvas width] x [0, canvas height], for every position whose
    coordinates are numbers (clipping maps NaN to NaN), every controller
    state the input handler can produce, the velocity at rest as the
    update leaves it, and any finite [delta_time]; and the player of a
    session is on the canvas whenever the loop is between two steps. *)
Theorem C6_player_in_canvas :
  (forall (delta_time : float) (w w' : World),
      Player_update delta_time w = Some w' ->
      let moved := Body.update delta_time
                     (Player_move (controller (player w)) (body (player w))) in
      let b' := body (player w') in
      clamped (Vec.x (Body.position moved)) config.canvas_size_width
              (Vec.x (Body.position b'))
      /\ clamped (Vec.y (Body.position moved)) config.canvas_size_height
                 (Vec.y (Body.position b'))
      /\ Body.id b' = Body.id moved
      /\ Body.velocity b' = Body.velocity moved
      /\ Body.size b' = Body.size moved
      /\ Body.health b' = Body.health moved
      /\ (axis_value (move_x (controller (player w))) ->
          axis_value (move_y (controller (player w))) ->
          Body.velocity (body (player w)) = Vec.mk 0 0 ->
          is_nan (Vec.x (Body.position (body (player w)))) = false ->
          is_nan (Vec.y (Body.position (body (player w)))) = false ->
          JS.isFinite delta_time = true ->
          in_canvas (Body.position b')))
  /\ (forall w : World,
        reachable w -> in_canvas (Body.position (body (player w)))).
Proof.
  split.
  - intros delta_time w w' Hu moved b'.
    pose proof (Player_update_body delta_time w w' Hu) as Hb.
    fold moved in Hb. fold b' in Hb.
    split; [rewrite Hb;
            apply (clip_clamped (Vec.x (Body.position moved))
                     config.canvas_size_width eq_refl)|].
    split; [rewrite Hb;
            apply (clip_clamped (Vec.y (Body.position moved))
                     config.canvas_size_height eq_refl)|].
    split; [rewrite Hb; reflexivity|]. split; [rewrite Hb; reflexivity|].
    split; [rewrite Hb; reflexivity|]. split; [rewrite Hb; reflexivity|].
    intros Hx Hy Hv Nx Ny Hdt.
    apply (Player_update_in_canvas delta_time w w' Hu Hx Hy Hv Nx Ny Hdt).
  - intros w R. apply (reachable_tidy w R).
Qed.

(** C6 applies to an update of a player at the right border with "right"
    held: the move takes x to 307, the clamping brings it back to 300,
    and y, at 407 inside the canvas, is left alone. *)
Lemma C6_player_in_canvas_witness :
  let p0 := player (start globals0) in
  let w := with_player
             (with_controller (mkController 1 0 false)
                (with_body (Body.with_position (Vec.mk 300 407) (body p0)) p0))
             (start globals0) in
  exists w', Player_update config.update_rate_seconds w = Some w'
    /\ Body.position (body (player w')) = Vec.mk 300 407
    /\ in_canvas (Body.position (body (player w'))).
Proof.
  intros p0 w. eexists.
  eassert (E : Player_update config.update_rate_seconds w = Some _)
    by (vm_compute; reflexivity).
  split; [exact E|].
  destruct C6_player_in_canvas as [H _].
  destruct (H config.update_rate_seconds w _ E) as (_ & _ & _ & _ & _ & _ & Hin).
  split; [reflexivity|].
  apply Hin.
  - unfold axis_value. simpl. auto.
  - unfold axis_value. simpl. auto.
  - reflexivity.
  - reflexivity.
  - reflexivity.
  - reflexivity.
Defined.

(* ------------------------------------------------------------------ *)
(** * Input handling *)
(* ------------------------------------------------------------------ *)

(** X1: polling rebuilds the controller from the keys that are down and
    from nothing else: [action_1] is whether space (32) is down, [move_x]
    is the net of left (65) and right (68), [move_y] the net of up (87)
    and down (83), where two opposite keys cancel to 0.  The rest of the
    player is untouched, and polling twice is polling once. *)
Theorem X1_pollController (p : Player) :
  controller (InputHandler_pollController p)
    = mkController
        (axis_net (raw_input_pressed 65 p) (raw_input_pressed 68 p))
        (axis_net (raw_input_pressed 87 p) (raw_input_pressed 83 p))
        (raw_input_pressed 32 p)
  /\ body (InputHandler_pollController p) = body p
  /\ raw_input (InputHandler_pollController p) = raw_input p
  /\ timer (InputHandler_pollController p) = timer p
  /\ InputHandler_pollController (InputHandler_pollController p)
       = InputHandler_pollController p.
Proof.
  assert (C : forall q : Player,
             InputHandler_pollController q
               = mkPlayer (body q)
                   (mkController
                      (axis_net (raw_input_pressed 65 q) (raw_input_pressed 68 q))
                      (axis_net (raw_input_pressed 87 q) (raw_input_pressed 83 q))
                      (raw_input_pressed 32 q))
                   (raw_input q) (timer q)).
  { intros q. unfold InputHandler_pollController, raw_input_pressed. simpl.
    destruct (existsb (Z.eqb 32) (raw_input q)),
             (existsb (Z.eqb 65) (raw_input q)),
             (existsb (Z.eqb 68) (raw_input q)),
             (existsb (Z.eqb 83) (raw_input q)),
             (existsb (Z.eqb 87) (raw_input q)); reflexivity. }
  rewrite (C (InputHandler_pollController p)). rewrite (C p).
  repeat split.
Qed.

Lemma pressed_keydown_other (k k' : Z) (p : Player) :
  k <> k' ->
  raw_input_pressed k' (InputHandler_keydown k p) = raw_input_pressed k' p.
Proof.
  intros H. unfold raw_input_pressed, InputHandler_keydown. simpl.
  destruct (Z.eqb_spec k' k); [congruence|reflexivity].
Qed.

Lemma pressed_keyup (k k' : Z) (p : Player) :
  raw_input_pressed k' (InputHandler_keyup k p)
    = raw_input_pressed k' p && negb (k' =? k)%Z.
Proof.
  unfold raw_input_pressed, InputHandler_keyup. simpl.
  induction (raw_input p) as [|a l IH]; simpl; [reflexivity|].
  destruct (Z.eqb_spec a k) as [->|Hn]; simpl.
  - rewrite IH. destruct (Z.eqb_spec k' k); simpl.
    + rewrite !andb_false_r. reflexivity.
    + reflexivity.
  - rewrite IH. destruct (Z.eqb_spec k' a) as [->|Hn']; simpl.
    + destruct (Z.eqb_spec a k); [contradiction|reflexivity].
    + reflexivity.
Qed.

(** X2: the raw key state behaves as a set of key codes: after [keydown]
    of a key it is down, after [keyup] it is not (however often it went
    down before), and neither event changes what is recorded for any
    other key. *)
Theorem X2_key_events (k k' : Z) (p : Player) :
  raw_input_pressed k (InputHandler_keydown k p) = true
  /\ raw_input_pressed k (InputHandler_keyup k p) = false
  /\ raw_input_pressed k (InputHandler_keyup k (InputHandler_keydown k p)) = false
  /\ (k <> k' ->
      raw_input_pressed k' (InputHandler_keydown k p) = raw_input_pressed k' p
      /\ raw_input_pressed k' (InputHandler_keyup k p) = raw_input_pressed k' p).
Proof.
  split; [|split; [|split]].
  - unfold raw_input_pressed, InputHandler_keydown. simpl.
    rewrite Z.eqb_refl. reflexivity.
  - rewrite pressed_keyup, Z.eqb_refl. apply andb_false_r.
  - rewrite pressed_keyup, Z.eqb_refl. apply andb_false_r.
  - intros H. split; [apply pressed_keydown_other; exact H|].
    rewrite pressed_keyup.
    destruct (Z.eqb_spec k' k); [congruence|apply andb_true_r].
Qed.

(** X2 applies to releasing "left" while "right" stays down. *)
Lemma X2_key_events_witness :
  let p := InputHandler_keydown 68 (InputHandler_keydown 65 (player (start globals0))) in
  raw_input_pressed 68 (InputHandler_keyup 65 p) = raw_input_pressed 68 p.
Proof.
  intros p.
  destruct (X2_key_events 65 68 p) as (_ & _ & _ & H).
  apply H. discriminate.
Defined.

(* ------------------------------------------------------------------ *)
(** * Projectiles and firing *)
(* ------------------------------------------------------------------ *)

(** A number is below its clipped value exactly when it is negative. *)
Lemma ltb_clip (v bound : float) :
  (0 <? bound) = true -> (v <? clip v bound) = (v <? 0).
Proof.
  intros Hb. destruct (is_nan v) eqn:Hv.
  - rewrite (ltb_nan_l v _ Hv), (ltb_nan_l v _ Hv). reflexivity.
  - destruct (clip_cases v bound Hv Hb) as [(-> & H0 & H1)|[(-> & H0 & H1)|(-> & H0)]].
    + rewrite ltb_irrefl, (ltb_asym _ _ H0). reflexivity.
    + rewrite H1, (ltb_asym _ _ H0). reflexivity.
    + reflexivity.
Qed.

Lemma entities_store_projectile (b b' : Body.t) (es : list Entity) :
  Body.id b' = Body.id b ->
  In (EProjectile b) es -> In (EProjectile b') (entities_store b' es).
Proof.
  intros Hid Hin. unfold entities_store. apply in_map_iff.
  exists (EProjectile b). split; [|assumption].
  rewrite Hid, Nat.eqb_refl. reflexivity.
Qed.

(** X3: on every update a projectile stored in the registry moves up by
    8 and sideways not at all (the inherited integration is not called),
    its velocity is left at 8 upwards, and it is queued for removal
    exactly when its y, so advanced, is negative; on the canvas border
    (y = 0) it stays.  Nothing else is touched. *)
Theorem X3_projectile_update (b : Body.t) (w : World) :
  In (EProjectile b) (entities w) ->
  let y' := Vec.y (Body.position b) + -8 in
  let w' := projectile_update b w in
  (exists b',
      In (EProjectile b') (entities w')
      /\ Body.id b' = Body.id b
      /\ Body.position b' = Vec.mk (Vec.x (Body.position b)) y'
      /\ Body.velocity b' = Vec.mk (Vec.x (Body.velocity b)) (-8)
      /\ Body.health b' = Body.health b)
  /\ queued_entities_for_removal w'
       = (if y' <? 0
          then queued_entities_for_removal w ++ [Body.id b]
          else queued_entities_for_removal w)
  /\ player w' = player w
  /\ running_id w' = running_id w
  /\ hitEnemies w' = hitEnemies w.
Proof.
  intros Hin y' w'. subst w'. unfold projectile_update.
  rewrite ltb_clip by reflexivity.
  change (Vec.y (Body.position b) + Vec.y (Vec.mk (Vec.x (Body.velocity b))
                                           (projectile_speed * -1)))
    with y'.
  set (b2 := Body.with_position _ _).
  assert (Hb2 : In (EProjectile b2) (entities_store b2 (entities w)))
    by (apply entities_store_projectile with (b := b); [reflexivity|exact Hin]).
  simpl. fold y'. destruct (y' <? 0); simpl.
  - split; [exists b2; repeat split; exact Hb2|repeat split].
  - split; [exists b2; repeat split; exact Hb2|repeat split].
Qed.

(** X3 applies to a projectile just below the top border: one update
    takes it off the canvas and queues it. *)
Lemma X3_projectile_update_witness :
  queued_entities_for_removal
    (projectile_update
       (Body.with_position (Vec.mk 150 5) (Body.fresh 1))
       (with_entities
          [EPlayer; EProjectile (Body.with_position (Vec.mk 150 5) (Body.fresh 1))]
          (start globals0)))
  = [1%nat].
Proof.
  destruct (X3_projectile_update
              (Body.with_position (Vec.mk 150 5) (Body.fresh 1))
              (with_entities
                 [EPlayer;
                  EProjectile (Body.with_position (Vec.mk 150 5) (Body.fresh 1))]
                 (start globals0)))
    as (_ & Hq & _).
  - simpl. auto.
  - rewrite Hq. reflexivity.
Defined.

(** ** The registry under insertion and lookup *)

Lemma entities_set_new (p : Player) (k : nat) (e : Entity) (es : list Entity) :
  In e (entities_set p k e es).
Proof.
  induction es as [|a es IH]; simpl; [auto|].
  destruct (Entity_id p a =? k)%nat; [|destruct (k <? Entity_id p a)%nat];
    simpl; auto.
Qed.

Lemma entities_get_none (p : Player) (k : nat) (es : list Entity) :
  entities_get p k es = None <-> (forall e, In e es -> Entity_id p e <> k).
Proof.
  unfold entities_get. split.
  - intros H e He. apply Nat.eqb_neq. apply (find_none _ _ H e He).
  - intros H. induction es as [|a es IH]; simpl; [reflexivity|].
    destruct (Entity_id p a =? k)%nat eqn:E.
    + apply Nat.eqb_eq in E. exfalso. apply (H a); simpl; auto.
    + apply IH. intros e He. apply H. simpl. auto.
Qed.

Lemma entities_get_In (p : Player) (k : nat) (e : Entity) (es : list Entity) :
  entities_get p k es = Some e -> In e es /\ Entity_id p e = k.
Proof.
  unfold entities_get. intros H. apply find_some in H.
  destruct H as [H1 H2]. apply Nat.eqb_eq in H2. auto.
Qed.

(** In a session the entry under key 0 is the player. *)
Lemma entities_get_player (p : Player) (es : list Entity) :
  Body.id (body p) = 0%nat -> In EPlayer es -> Forall entity_nonzero es ->
  entities_get p 0 es = Some EPlayer.
Proof.
  intros H0 Hp Hn.
  destruct (entities_get_some p 0 EPlayer es Hp H0) as [e He].
  rewrite He. f_equal.
  destruct (entities_get_In _ _ _ _ He) as [Hin Hid].
  rewrite Forall_forall in Hn. specialize (Hn e Hin).
  destruct e; simpl in *; [reflexivity|contradiction|contradiction].
Qed.

(** X5: creating a projectile raises the TypeError exactly when, once the
    projectile is registered, nothing is stored under key 0: the next id
    is not 0 and no entry of the registry has id 0. *)
Theorem X5_new_projectile_throws (w : World) :
  new_projectile w = None
  <-> (running_id w <> 0%nat
       /\ forall e, In e (entities w) -> Entity_id (player w) e <> 0%nat).
Proof.
  unfold new_projectile. simpl.
  set (es2 := entities_set (player w) (running_id w)
                (EProjectile (Body.fresh (running_id w))) (entities w)).
  split.
  - destruct (entities_get (player w) 0 es2) as [e0|] eqn:E; [discriminate|].
    intros _. rewrite entities_get_none in E.
    assert (Hr : running_id w <> 0%nat).
    { apply (E (EProjectile (Body.fresh (running_id w)))).
      apply entities_set_new. }
    split; [exact Hr|].
    intros e He H0. apply (E e); [|exact H0].
    apply entities_set_keep; [exact He|congruence].
  - intros [Hr Hn].
    assert (E : entities_get (player w) 0 es2 = None).
    { apply entities_get_none. intros e He.
      apply entities_set_In in He. destruct He as [->|He]; [exact Hr|auto]. }
    rewrite E. reflexivity.
Qed.

(** X5 applies to a registry that has lost its player: the constructor
    fails. *)
Lemma X5_new_projectile_throws_witness :
  new_projectile (with_running_id 3 globals0) = None.
Proof.
  apply (proj2 (X5_new_projectile_throws (with_running_id 3 globals0))).
  split; [discriminate|]. intros e [].
Defined.

(** In a session [new projectile()] registers the projectile under the
    next id, 25 above the player. *)
Lemma new_projectile_spec (w : World) :
  registry_ok w ->
  new_projectile w
  = Some (with_entities
            (entities_store
               (Body.with_position
                  (Vec.mk (Vec.x (Body.position (body (player w))))
                          (Vec.y (Body.position (body (player w))) - 25))
                  (Body.fresh (running_id w)))
               (entities_set (player w) (running_id w)
                  (EProjectile (Body.fresh (running_id w))) (entities w)))
            (with_running_id (S (running_id w)) w)).
Proof.
  intros (H0 & Hp & Hn & Hr & Hq). unfold new_projectile. simpl.
  rewrite entities_get_player; [reflexivity|exact H0| |].
  - apply entities_set_keep; [exact Hp|].
    unfold Entity_id. simpl. rewrite H0. auto.
  - rewrite Forall_forall. intros x Hx.
    apply entities_set_In in Hx. destruct Hx as [->|Hx].
    + simpl. exact Hr.
    + rewrite Forall_forall in Hn. auto.
Qed.

(** X4: the player's update in a session never fails.  Its projectile
    timer restarts from 0 whenever the advanced timer has reached 0.3,
    whether or not a shot is fired.  If it has and the fire button is
    held, the next id is used up for a projectile placed 25 above the
    position the player has moved to (before integration and clipping);
    otherwise the registry and the next id are left as they were. *)
Theorem X4_player_fire (delta_time : float) (w : World) :
  registry_ok w ->
  let t := timer (player w) + delta_time in
  let moved := Body.position (Player_move (controller (player w)) (body (player w))) in
  let shot := Body.with_position (Vec.mk (Vec.x moved) (Vec.y moved - 25))
                (Body.fresh (running_id w)) in
  exists w',
    Player_update delta_time w = Some w'
    /\ timer (player w') = (if JS.geb t Player_spawnRate then 0 else t)
    /\ (if JS.geb t Player_spawnRate && action_1 (controller (player w))
        then running_id w' = S (running_id w)
             /\ In (EProjectile shot) (entities w')
        else running_id w' = running_id w /\ entities w' = entities w).
Proof.
  intros Hw t moved shot.
  destruct (with_body_ok (Player_move (controller (player w)) (body (player w))) w
              (Player_move_id _ _) Hw) as [H1 _].
  unfold Player_update, Player_fire. cbv zeta.
  set (w1 := with_player (with_body _ (player w)) w) in *.
  change (timer (player w1)) with (timer (player w)). fold t.
  destruct (JS.geb t Player_spawnRate).
  - change (action_1 (controller (player (with_player (with_timer 0 (player w1)) w1))))
      with (action_1 (controller (player w))).
    destruct (action_1 (controller (player w))).
    + rewrite (new_projectile_spec _ (proj1 (with_timer_ok 0 _ H1))).
      eexists. split; [reflexivity|]. split; [reflexivity|].
      split; [reflexivity|].
      apply entities_store_projectile with (b := Body.fresh (running_id w));
        [reflexivity|apply entities_set_new].
    + eexists. split; [reflexivity|]. simpl. auto.
  - eexists. split; [reflexivity|]. simpl. auto.
Qed.

(** X4 applies to the player of a fresh session holding the fire button
    when the timer runs out: the shot gets id 1 and starts at (150, 375). *)
Lemma X4_player_fire_witness :
  exists w',
    Player_update 0.3
      (with_player (InputHandler_pollController
                      (InputHandler_keydown 32 (player (start globals0))))
         (start globals0)) = Some w'
    /\ In (EProjectile (Body.with_position (Vec.mk 150 375) (Body.fresh 1)))
          (entities w').
Proof.
  destruct (X4_player_fire 0.3
              (with_player (InputHandler_pollController
                              (InputHandler_keydown 32 (player (start globals0))))
                 (start globals0)))
    as (w' & E & _ & Hin).
  - apply pollController_ok.
    apply (proj1 (with_body_ok (body (player (start globals0)))
                    (with_player (InputHandler_keydown 32 (player (start globals0)))
                       (start globals0)) eq_refl
                    ltac:(repeat split; simpl; auto; repeat constructor))).
  - exists w'. split; [exact E|]. vm_compute in Hin. apply (proj2 Hin).
Defined.

(* ------------------------------------------------------------------ *)
(** * The keys of the registry *)
(* ------------------------------------------------------------------ *)

(** Setting a key above all present keys appends the entry, as a JS
    object lists integer keys in ascending order. *)
Lemma entities_set_append (p : Player) (k : nat) (e : Entity) (es : list Entity) :
  Forall (fun j => (j < k)%nat) (map (Entity_id p) es) ->
  entities_set p k e es = es ++ [e].
Proof.
  induction es as [|a es IH]; simpl; intros H; [reflexivity|].
  inversion H as [|j l Hj Hl]; subst.
  assert (E1 : (Entity_id p a =? k)%nat = false) by (apply Nat.eqb_neq; lia).
  assert (E2 : (k <? Entity_id p a)%nat = false) by (apply Nat.ltb_ge; lia).
  rewrite E1, E2, (IH Hl). reflexivity.
Qed.

Lemma entities_store_keys (p : Player) (b : Body.t) (es : list Entity) :
  map (Entity_id p) (entities_store b es) = map (Entity_id p) es.
Proof.
  unfold entities_store. rewrite map_map. apply map_ext. intros [|b'|b'].
  - reflexivity.
  - destruct (Body.id b' =? Body.id b)%nat eqn:E; [|reflexivity].
    apply Nat.eqb_eq in E. unfold Entity_id. simpl. auto.
  - destruct (Body.id b' =? Body.id b)%nat eqn:E; [|reflexivity].
    apply Nat.eqb_eq in E. unfold Entity_id. simpl. auto.
Qed.

Lemma keys_player (p p' : Player) (es : list Entity) :
  Body.id (body p') = Body.id (body p) ->
  map (Entity_id p') es = map (Entity_id p) es.
Proof. intros H. apply map_ext. intros e. apply Entity_id_player. exact H. Qed.

Lemma sorted_snoc (l : list nat) (k : nat) :
  StronglySorted lt l -> Forall (fun j => (j < k)%nat) l ->
  StronglySorted lt (l ++ [k]).
Proof.
  induction 1 as [|a l Hs IH Ha]; simpl; intros Hk.
  - repeat constructor.
  - inversion Hk; subst. constructor; [auto|].
    apply Forall_app. split; [assumption|]. repeat constructor. assumption.
Qed.

Lemma sorted_filter (A : Type) (f : A -> nat) (g : A -> bool) (l : list A) :
  StronglySorted lt (map f l) -> StronglySorted lt (map f (filter g l)).
Proof.
  induction l as [|a l IH]; simpl; intros H; [constructor|].
  inversion H as [|x xs Hs Ha]; subst.
  destruct (g a); simpl; [|auto].
  constructor; [auto|].
  rewrite Forall_forall in *. intros x Hx. apply Ha.
  apply in_map_iff in Hx. destruct Hx as (y & <- & Hy).
  apply filter_In in Hy. apply in_map. tauto.
Qed.

Lemma Forall_map_filter (A : Type) (f : A -> nat) (g : A -> bool) (P : nat -> Prop)
  (l : list A) :
  Forall P (map f l) -> Forall P (map f (filter g l)).
Proof.
  rewrite !Forall_forall. intros H x Hx. apply H.
  apply in_map_iff in Hx. destruct Hx as (y & <- & Hy).
  apply filter_In in Hy. apply in_map. tauto.
Qed.

(** The invariant in terms of a registry, a player and a next id. *)
Lemma keys_ok_intro (w w' : World) :
  map (Entity_id (player w')) (entities w') = map (Entity_id (player w)) (entities w) ->
  running_id w' = running_id w ->
  keys_ok w -> keys_ok w'.
Proof.
  unfold keys_ok, keys. intros -> ->. auto.
Qed.

Lemma keys_ok_append (w w' : World) (e : Entity) :
  Body.id (body (player w')) = Body.id (body (player w)) ->
  Entity_id (player w) e = running_id w ->
  entities w' = entities_set (player w) (running_id w) e (entities w) ->
  running_id w' = S (running_id w) ->
  keys_ok w ->
  keys_ok w' /\ entities w' = entities w ++ [e].
Proof.
  unfold keys_ok, keys. intros Hp He Hes Hr [Hs Hb].
  rewrite (entities_set_append _ _ _ _ Hb) in Hes.
  split; [|exact Hes].
  rewrite Hes, Hr, (keys_player _ _ _ Hp), map_app. simpl. rewrite He. split.
  - apply sorted_snoc; assumption.
  - apply Forall_app. split.
    + eapply Forall_impl; [|exact Hb]. simpl. intros. lia.
    + repeat constructor.
Qed.

Lemma store_keys (b : Body.t) (w : World) :
  keys_ok w -> keys_ok (with_entities (entities_store b (entities w)) w).
Proof.
  apply keys_ok_intro; [|reflexivity]. simpl. apply entities_store_keys.
Qed.

Lemma with_body_keys (b : Body.t) (w : World) :
  Body.id b = Body.id (body (player w)) ->
  keys_ok w -> keys_ok (with_player (with_body b (player w)) w).
Proof.
  intros Hb. apply keys_ok_intro; [|reflexivity]. simpl.
  apply keys_player. exact Hb.
Qed.

Lemma Body_remove_keys (i : nat) (w : World) :
  keys_ok w -> keys_ok (Body_remove i w).
Proof. apply keys_ok_intro; reflexivity. Qed.

Lemma Enemy_update_keys (delta_time : float) (b : Body.t) (w : World) :
  keys_ok w -> keys_ok (Enemy_update delta_time b w).
Proof.
  intros H. unfold Enemy_update. cbv zeta. apply store_keys.
  destruct (JS.gtb _ _); [apply Body_remove_keys|]; exact H.
Qed.

Lemma projectile_update_keys (b : Body.t) (w : World) :
  keys_ok w -> keys_ok (projectile_update b w).
Proof.
  intros H. unfold projectile_update. cbv zeta.
  destruct (_ <? _); [apply Body_remove_keys|]; apply store_keys; exact H.
Qed.

Lemma new_projectile_keys (w w' : World) :
  keys_ok w -> new_projectile w = Some w' -> keys_ok w'.
Proof.
  intros H. unfold new_projectile. cbv zeta.
  match goal with |- context [entities_get ?p ?k ?l] =>
    destruct (entities_get p k l) end; [|discriminate].
  intros E. injection E as <-.
  apply (keys_ok_intro (with_entities
            (entities_set (player w) (running_id w)
               (EProjectile (Body.fresh (running_id w))) (entities w))
            (with_running_id (S (running_id w)) w))).
  - simpl. apply entities_store_keys.
  - reflexivity.
  - apply (keys_ok_append w _ (EProjectile (Body.fresh (running_id w))));
      [reflexivity|reflexivity|reflexivity|reflexivity|exact H].
Qed.

Lemma Player_update_keys (delta_time : float) (w w' : World) :
  keys_ok w -> Player_update delta_time w = Some w' -> keys_ok w'.
Proof.
  intros H. unfold Player_update. cbv zeta.
  pose proof (with_body_keys _ w (Player_move_id (controller (player w))
                                    (body (player w))) H) as H1.
  set (w1 := with_player (with_body _ (player w)) w) in *.
  assert (H2 : forall w2, Player_fire delta_time w1 = Some w2 ->
                          keys_ok w2 ).
  { unfold Player_fire. intros w2.
    destruct (JS.geb _ _).
    - destruct (action_1 _).
      + apply new_projectile_keys.
        revert H1. apply keys_ok_intro; reflexivity.
      + intros E. injection E as <-. revert H1. apply keys_ok_intro; reflexivity.
    - intros E. injection E as <-. revert H1. apply keys_ok_intro; reflexivity. }
  destruct (Player_fire delta_time w1) as [w2|]; [|discriminate].
  intros E. injection E as <-.
  apply with_body_keys; [reflexivity|]. apply H2. reflexivity.
Qed.

Lemma Entity_update_keys (delta_time : float) (e : Entity) (w w' : World) :
  keys_ok w -> Entity_update delta_time e w = Some w' -> keys_ok w'.
Proof.
  intros H. destruct e as [|b|b]; simpl.
  - apply Player_update_keys. exact H.
  - intros E. injection E as <-. apply Enemy_update_keys. exact H.
  - intros E. injection E as <-. apply projectile_update_keys. exact H.
Qed.

Lemma forEach_update_keys (delta_time : float) (l : list Entity) (w w' : World) :
  keys_ok w -> forEach_update delta_time l w = Some w' -> keys_ok w'.
Proof.
  revert w. induction l as [|e l IH]; simpl; intros w H.
  - intros E. injection E as <-. exact H.
  - destruct (Entity_update delta_time e w) as [w1|] eqn:E1; [|discriminate].
    apply IH. eapply Entity_update_keys; eassumption.
Qed.

Lemma collisionHandler_update_keys (w : World) :
  keys_ok w -> keys_ok (collisionHandler_update w).
Proof.
  pose proof (collisionHandler_update_frame w) as F.
  apply keys_ok_intro.
  - apply same_entities_ids; [|apply (cf_entities _ _ F)].
    destruct (cf_player_body _ _ F) as (Hid & _). exact Hid.
  - apply (cf_running_id _ _ F).
Qed.

Lemma flush_keys (p : Player) (q : list nat) (es : list Entity) (n : nat) :
  StronglySorted lt (map (Entity_id p) es)
  /\ Forall (fun k => (k < n)%nat) (map (Entity_id p) es) ->
  StronglySorted lt
    (map (Entity_id p) (fold_left (fun l i => entities_delete p i l) q es))
  /\ Forall (fun k => (k < n)%nat)
       (map (Entity_id p) (fold_left (fun l i => entities_delete p i l) q es)).
Proof.
  revert es. induction q as [|i q IH]; simpl; intros es H; [exact H|].
  apply IH. destruct H as [Hs Hb]. unfold entities_delete. split.
  - apply sorted_filter. exact Hs.
  - apply Forall_map_filter. exact Hb.
Qed.

Lemma flush_removals_keys (w : World) :
  keys_ok w -> keys_ok (flush_removals w).
Proof.
  unfold keys_ok, keys, flush_removals. simpl. apply flush_keys.
Qed.

Lemma new_Enemy_keys (rnd : float) (w : World) :
  keys_ok w ->
  keys_ok (new_Enemy rnd w)
  /\ entities (new_Enemy rnd w)
     = entities w
       ++ [EEnemy (Body.with_position
                     (Vec.mk (config.canvas_size_width * rnd)
                             (config.canvas_size_height - 500))
                     (Body.fresh (running_id w)))].
Proof.
  intros H. apply (keys_ok_append w); try reflexivity. exact H.
Qed.

Lemma enemySpawner_update_keys (delta_time rnd : float) (s : enemySpawner)
  (w : World) :
  keys_ok w -> keys_ok (enemySpawner_update delta_time rnd s w).
Proof.
  intros H. unfold enemySpawner_update. destruct (JS.geb _ _).
  - cbv zeta.
    apply (keys_ok_intro (new_Enemy rnd (with_enemy_spawner (Some (mkSpawner 0)) w)));
      [reflexivity|reflexivity|].
    apply new_Enemy_keys. revert H. apply keys_ok_intro; reflexivity.
  - revert H. apply keys_ok_intro; reflexivity.
Qed.

Lemma start_keys (w : World) : keys_ok (start w).
Proof.
  unfold keys_ok, keys. simpl. split; repeat constructor.
Qed.

Lemma update_simulate_keys (delta_time rnd : float) (w w' : World) :
  keys_ok w -> update_simulate delta_time rnd w = Some w' -> keys_ok w'.
Proof.
  intros H. unfold update_simulate. cbv zeta.
  set (w1 := with_player (InputHandler_pollController (player w)) w).
  assert (H1 : keys_ok w1) by (revert H; apply keys_ok_intro; reflexivity).
  destruct (forEach_update delta_time (Object_values w1) w1) as [w2|] eqn:E;
    [|discriminate].
  pose proof (forEach_update_keys _ _ _ _ H1 E) as H2.
  intros E'. injection E' as <-.
  assert (H3 : keys_ok (if collision_handler w2
                        then collisionHandler_update w2 else w2))
    by (destruct (collision_handler w2);
        [apply collisionHandler_update_keys|]; exact H2).
  apply flush_removals_keys in H3.
  match goal with |- context [enemy_spawner ?x] => destruct (enemy_spawner x) end;
    [apply enemySpawner_update_keys|]; exact H3.
Qed.

Lemma update_bookkeeping_keys (delta_time : float) (w : World) :
  keys_ok w -> keys_ok (update_bookkeeping delta_time w).
Proof.
  intros H. unfold update_bookkeeping. cbv zeta.
  assert (H1 : keys_ok (if restart_requested w then start w else w))
    by (destruct (restart_requested w); [apply start_keys|exact H]).
  set (w1 := if restart_requested w then start w else w) in *.
  apply (keys_ok_intro
           (if negb (Body.isDead (body (player w1)))
            then with_timeElasped (timeElasped w1 + delta_time) w1 else w1));
    [reflexivity|reflexivity|].
  destruct (negb _); [revert H1; apply keys_ok_intro; reflexivity|exact H1].
Qed.

Lemma draw_keys (w : World) : keys_ok w -> keys_ok (draw w).
Proof.
  intros H. unfold draw. destruct (Body.isDead _); [|exact H].
  revert H. apply keys_ok_intro; reflexivity.
Qed.

Lemma loop_body_keys (rnd : nat -> float) (t : float) (w w' : World) :
  keys_ok w -> loop_body rnd t w = Some w' -> keys_ok w'.
Proof.
  intros H. unfold loop_body, update.
  destruct (update_simulate _ _ w) as [w1|] eqn:E; [|discriminate].
  intros E'. injection E' as <-.
  apply (keys_ok_intro (draw (update_bookkeeping config.update_rate_seconds w1)));
    [reflexivity|reflexivity|].
  apply draw_keys, update_bookkeeping_keys.
  eapply update_simulate_keys; eassumption.
Qed.

Lemma reachable_keys (w : World) : reachable w -> keys_ok w.
Proof.
  intros R. induction R as [|w k R IH|w k R IH|w t R IH|w w' rnd t R IH U].
  - apply start_keys.
  - revert IH. apply keys_ok_intro; reflexivity.
  - revert IH. apply keys_ok_intro; reflexivity.
  - revert IH. apply keys_ok_intro; reflexivity.
  - eapply loop_body_keys; eassumption.
Qed.

(* ------------------------------------------------------------------ *)
(** * The spawner *)
(* ------------------------------------------------------------------ *)

(** X6: one call of the spawner, in a registry whose keys are ascending
    and below the next id.  When the advanced timer has reached 0.7 the
    call resets the timer to 0, adds one to the spawn counter and creates
    one enemy: it takes the next id, is listed last by [Object.values],
    has the defaults of a body (no velocity, health 100) and sits on the
    top border at x = 300 * [Math.random()].  Otherwise the call only
    stores the advanced timer. *)
Theorem X6_enemy_spawn (delta_time rnd : float) (s : enemySpawner) (w : World) :
  keys_ok w ->
  let t := spawner_timer s + delta_time in
  let w' := enemySpawner_update delta_time rnd s w in
  if JS.geb t enemySpawner_spawnRate
  then entities w'
         = entities w
           ++ [EEnemy (Body.with_position (Vec.mk (300 * rnd) 0)
                         (Body.fresh (running_id w)))]
       /\ running_id w' = S (running_id w)
       /\ totEnemies w' = (totEnemies w + 1)%Z
       /\ enemy_spawner w' = Some (mkSpawner 0)
       /\ keys_ok w'
  else w' = with_enemy_spawner (Some (mkSpawner t)) w.
Proof.
  intros H t w'. subst w'. unfold enemySpawner_update. fold t.
  destruct (JS.geb t enemySpawner_spawnRate); [|reflexivity].
  cbv zeta.
  destruct (new_Enemy_keys rnd (with_enemy_spawner (Some (mkSpawner 0)) w))
    as [K E].
  { revert H. apply keys_ok_intro; reflexivity. }
  split; [exact E|]. split; [reflexivity|]. split; [reflexivity|].
  split; [reflexivity|].
  revert K. apply keys_ok_intro; reflexivity.
Qed.

(** X6 applies to a fresh session: with the timer run out the first
    enemy gets id 1. *)
Lemma X6_enemy_spawn_witness :
  running_id (enemySpawner_update 0.7 0.5 (mkSpawner 0) (start globals0)) = 2%nat.
Proof.
  pose proof (X6_enemy_spawn 0.7 0.5 (mkSpawner 0) (start globals0)
                (start_keys globals0)) as H.
  cbv zeta in H.
  change (JS.geb (spawner_timer (mkSpawner 0) + 0.7) enemySpawner_spawnRate)
    with true in H.
  cbv iota in H.
  destruct H as (_ & H & _). exact H.
Defined.

(** ** The spawn period at the fixed step *)

Lemma spawner_calls_add (n m : nat) (rnd : float) (w : World) :
  spawner_calls (n + m) rnd w = spawner_calls n rnd (spawner_calls m rnd w).
Proof.
  induction n as [|n IH]; simpl; [reflexivity|]. rewrite IH. reflexivity.
Qed.

(** From 0 the timer stays below the spawn rate for 41 steps. *)
Lemma timer_after_below (n : nat) :
  (n < 42)%nat -> JS.geb (timer_after n 0) enemySpawner_spawnRate = false.
Proof.
  intros H.
  assert (A : forallb (fun k => negb (JS.geb (timer_after k 0) enemySpawner_spawnRate))
                (seq 0 42) = true) by (vm_compute; reflexivity).
  rewrite forallb_forall in A. specialize (A n).
  apply negb_true_iff, A, in_seq. lia.
Qed.

Lemma spawner_calls_quiet (n : nat) (rnd : float) (w : World) :
  (n < 42)%nat -> enemy_spawner w = Some (mkSpawner 0) ->
  spawner_calls n rnd w = with_enemy_spawner (Some (mkSpawner (timer_after n 0))) w.
Proof.
  intros Hn Hs. induction n as [|n IH].
  - destruct w. simpl in *. rewrite Hs. reflexivity.
  - cbn [spawner_calls]. rewrite IH by lia. cbv zeta.
    change (enemy_spawner (with_enemy_spawner (Some (mkSpawner (timer_after n 0))) w))
      with (Some (mkSpawner (timer_after n 0))).
    cbv iota. unfold enemySpawner_update.
    change (spawner_timer (mkSpawner (timer_after n 0)) + config.update_rate_seconds)
      with (timer_after (S n) 0).
    rewrite (timer_after_below (S n) Hn). reflexivity.
Qed.

Lemma spawner_calls_period (rnd : float) (w : World) :
  enemy_spawner w = Some (mkSpawner 0) ->
  spawner_calls 42 rnd w
  = with_totEnemies (totEnemies w + 1)
      (new_Enemy rnd (with_enemy_spawner (Some (mkSpawner 0)) w)).
Proof.
  intros Hs. change 42%nat with (1 + 41)%nat.
  rewrite spawner_calls_add, (spawner_calls_quiet 41 rnd w) by (lia || exact Hs).
  cbn [spawner_calls]. cbv zeta.
  change (enemy_spawner (with_enemy_spawner (Some (mkSpawner (timer_after 41 0))) w))
    with (Some (mkSpawner (timer_after 41 0))).
  cbv iota. unfold enemySpawner_update.
  change (spawner_timer (mkSpawner (timer_after 41 0)) + config.update_rate_seconds)
    with (timer_after 42 0).
  assert (G : JS.geb (timer_after 42 0) enemySpawner_spawnRate = true)
    by (vm_compute; reflexivity).
  rewrite G. reflexivity.
Qed.

(** X7: at the fixed step of 1/60 s an enabled spawner whose timer is at
    0 creates an enemy on every 42nd call and on no other: after
    42 * k + r calls (r < 42) it has created exactly k enemies, used up k
    ids, and its timer holds r steps. *)
Theorem X7_spawn_period (k r : nat) (rnd : float) (w : World) :
  (r < 42)%nat ->
  enemy_spawner w = Some (mkSpawner 0) ->
  let w' := spawner_calls (42 * k + r) rnd w in
  totEnemies w' = (totEnemies w + Z.of_nat k)%Z
  /\ running_id w' = (running_id w + k)%nat
  /\ enemy_spawner w' = Some (mkSpawner (timer_after r 0)).
Proof.
  intros Hr. revert w. induction k as [|k IH]; intros w Hs; cbv zeta.
  - replace (42 * 0 + r)%nat with r by lia.
    rewrite (spawner_calls_quiet r rnd w Hr Hs). simpl.
    split; [lia|]. split; [lia|reflexivity].
  - replace (42 * S k + r)%nat with ((42 * k + r) + 42)%nat by lia.
    rewrite spawner_calls_add, (spawner_calls_period rnd w Hs).
    match goal with |- context [spawner_calls _ rnd ?x] => set (w1 := x) end.
    destruct (IH w1 eq_refl) as (T & R & S).
    rewrite T, R, S. subst w1. simpl. split; [lia|]. split; [lia|reflexivity].
Qed.

(** X7 applies to a fresh session: 100 calls of the spawner create two
    enemies. *)
Lemma X7_spawn_period_witness :
  totEnemies (spawner_calls (42 * 2 + 16) 0.5 (start globals0)) = 2%Z.
Proof.
  destruct (X7_spawn_period 2 16 0.5 (start globals0)) as (T & _).
  - lia.
  - reflexivity.
  - exact T.
Defined.

(* ------------------------------------------------------------------ *)
(** * The registry and the queue between steps *)
(* ------------------------------------------------------------------ *)

Lemma sorted_NoDup (l : list nat) : StronglySorted lt l -> NoDup l.
Proof.
  induction 1 as [|a l Hs IH Ha]; constructor; [|exact IH].
  intros Hin. rewrite Forall_forall in Ha. specialize (Ha a Hin). lia.
Qed.

Lemma enemySpawner_update_queue (delta_time rnd : float) (s : enemySpawner)
  (w : World) :
  queued_entities_for_removal (enemySpawner_update delta_time rnd s w)
  = queued_entities_for_removal w.
Proof. unfold enemySpawner_update. destruct (JS.geb _ _); reflexivity. Qed.

Lemma update_simulate_queue (delta_time rnd : float) (w w' : World) :
  update_simulate delta_time rnd w = Some w' ->
  queued_entities_for_removal w' = [].
Proof.
  unfold update_simulate. cbv zeta.
  destruct (forEach_update _ _ _) as [w2|]; [|discriminate].
  intros E. injection E as <-.
  match goal with |- context [enemy_spawner ?x] => destruct (enemy_spawner x) end;
    [rewrite enemySpawner_update_queue|]; reflexivity.
Qed.

Lemma queue_if_timeElasped (c : bool) (t : float) (w : World) :
  queued_entities_for_removal (if c then with_timeElasped t w else w)
  = queued_entities_for_removal w.
Proof. destruct c; reflexivity. Qed.

Lemma update_bookkeeping_queue (delta_time : float) (w : World) :
  queued_entities_for_removal w = [] ->
  queued_entities_for_removal (update_bookkeeping delta_time w) = [].
Proof.
  intros H. unfold update_bookkeeping. cbv zeta.
  change (queued_entities_for_removal (with_score ?s ?x))
    with (queued_entities_for_removal x).
  rewrite queue_if_timeElasped.
  destruct (restart_requested w); [reflexivity|exact H].
Qed.

Lemma draw_queue (w : World) :
  queued_entities_for_removal (draw w) = queued_entities_for_removal w.
Proof. unfold draw. destruct (Body.isDead _); reflexivity. Qed.

Lemma reachable_queue (w : World) :
  reachable w -> queued_entities_for_removal w = [].
Proof.
  intros R. induction R as [|w k R IH|w k R IH|w t R IH|w w' rnd t R IH U];
    try assumption.
  - reflexivity.
  - unfold loop_body, update in U.
    destruct (update_simulate _ _ w) as [w1|] eqn:E; [|discriminate].
    injection U as <-.
    change (queued_entities_for_removal
              (draw (update_bookkeeping config.update_rate_seconds w1)) = []).
    rewrite draw_queue. apply update_bookkeeping_queue.
    eapply update_simulate_queue. eassumption.
Qed.

(** X12: between the steps of a session the keys of the registry, in the
    order [Object.values] lists them, are strictly ascending, so no two
    entries share an id; every key is below the next id to be given out;
    the player is registered under key 0; and the removal queue is
    empty. *)
Theorem X12_session_registry (w : World) :
  reachable w ->
  StronglySorted lt (keys w)
  /\ NoDup (keys w)
  /\ Forall (fun k => (k < running_id w)%nat) (keys w)
  /\ entities_get (player w) 0 (entities w) = Some EPlayer
  /\ queued_entities_for_removal w = [].
Proof.
  intros R. destruct (reachable_keys w R) as [Hs Hb].
  destruct (reachable_ok w R) as [(H0 & Hp & Hn & _) _].
  split; [exact Hs|]. split; [apply sorted_NoDup; exact Hs|].
  split; [exact Hb|]. split; [|apply reachable_queue; exact R].
  apply entities_get_player; assumption.
Qed.

(** X12 applies to the session after 100 steps in which nothing is
    pressed and every enemy spawns in the middle column. *)
Lemma X12_session_registry_witness :
  exists w,
    run_steps 100 (fun _ => 0.5) 0 (start globals0) = Some w
    /\ NoDup (keys w).
Proof.
  eexists.
  eassert (E : run_steps 100 (fun _ => 0.5) 0 (start globals0) = Some _)
    by (vm_compute; reflexivity).
  split; [exact E|].
  apply (X12_session_registry _
           (run_steps_reachable 100 (fun _ => 0.5) 0 _ _ reach_start E)).
Defined.

(* ------------------------------------------------------------------ *)
(** * A session raises no error *)
(* ------------------------------------------------------------------ *)

Lemma loop_while_no_throw (fuel : nat) (rnd : nat -> float)
  (curr_time delta_time : float) (w : World) :
  registry_ok w -> loop_while fuel rnd curr_time delta_time w <> Throws.
Proof.
  revert delta_time w. induction fuel as [|fuel IH]; intros delta_time w Hw; simpl.
  - destruct (JS.gtb _ _); discriminate.
  - destruct (JS.gtb _ _); [|discriminate].
    destruct (loop_body_ok rnd curr_time w Hw) as (w' & E & Hw' & _).
    rewrite E. apply IH. exact Hw'.
Qed.

(** X13: in a session the projectile constructor always finds the player
    under key 0: from a state between steps [update] returns, for every
    step length and every random number, and a call of [loop] does not
    end in an exception, whatever the timestamp. *)
Theorem X13_session_never_throws (w : World) :
  reachable w ->
  (forall delta_time rnd, exists w', update delta_time rnd w = Some w')
  /\ (forall fuel rnd curr_time, loop fuel rnd curr_time w <> Throws).
Proof.
  intros R. destruct (reachable_ok w R) as [Hw _]. split.
  - intros delta_time rnd.
    destruct (update_ok delta_time rnd w Hw) as (w' & E & _). eauto.
  - intros fuel rnd curr_time. unfold loop. apply loop_while_no_throw.
    destruct Hw as (H0 & Hp & Hn & Hr & Hq). repeat split; assumption.
Qed.

(** X13 applies to a fresh session with the fire button held. *)
Lemma X13_session_never_throws_witness :
  exists w',
    update 0.3 0.5
      (with_player (InputHandler_keydown 32 (player (start globals0)))
         (start globals0)) = Some w'.
Proof.
  apply (X13_session_never_throws _ (reach_keydown _ 32 reach_start)).
Defined.

(* ------------------------------------------------------------------ *)
(** * The hit counter is even *)
(* ------------------------------------------------------------------ *)

Lemma length_filter_pairs_l (A : Type) (f : A * A -> bool) (a : A) (m : list A) :
  length (filter f (map (fun y => (a, y)) m))
  = length (filter (fun y => f (a, y)) m).
Proof.
  induction m as [|b m IH]; simpl; [reflexivity|].
  destruct (f (a, b)); simpl; rewrite IH; reflexivity.
Qed.

Lemma length_filter_prod_cons_r (A : Type) (f : A * A -> bool) (a : A)
  (l m : list A) :
  length (filter f (list_prod l (a :: m)))
  = (length (filter (fun x => f (x, a)) l) + length (filter f (list_prod l m)))%nat.
Proof.
  induction l as [|x l IH]; [reflexivity|].
  cbn [list_prod map filter app].
  destruct (f (x, a)); cbn [length];
    rewrite !filter_app, !length_app, IH, length_filter_pairs_l; lia.
Qed.

(** A symmetric, irreflexive test holds for an even number of the
    ordered pairs of a list. *)
Lemma sym_pairs_even (A : Type) (f : A * A -> bool) (l : list A) :
  (forall a b, f (b, a) = f (a, b)) -> (forall a, f (a, a) = false) ->
  exists k, length (filter f (list_prod l l)) = (2 * k)%nat.
Proof.
  intros Hs Hi. induction l as [|a l [k IH]]; simpl; [exists 0%nat; reflexivity|].
  rewrite Hi, filter_app, length_app, length_filter_pairs_l.
  rewrite length_filter_prod_cons_r, IH.
  rewrite (filter_ext (fun x => f (x, a)) (fun y => f (a, y)) (fun x => Hs a x)).
  exists (length (filter (fun y => f (a, y)) l) + k)%nat. lia.
Qed.

Lemma hit_visit_irrefl (p : Player) (e : Entity) : hit_visit p (e, e) = false.
Proof.
  unfold hit_visit. simpl. rewrite Nat.eqb_refl.
  rewrite andb_false_r. reflexivity.
Qed.

Lemma collisionHandler_update_even (w : World) :
  exists k : nat,
    hitEnemies (collisionHandler_update w) = (hitEnemies w + 2 * Z.of_nat k)%Z.
Proof.
  destruct (sym_pairs_even Entity (hit_visit (player w)) (Object_values w)
              (fun a b => hit_visit_sym (player w) a b)
              (hit_visit_irrefl (player w))) as [k Hk].
  exists k. rewrite collisionHandler_update_hits. unfold visits. rewrite Hk. lia.
Qed.

Lemma Player_update_hits (delta_time : float) (w w' : World) :
  Player_update delta_time w = Some w' -> hitEnemies w' = hitEnemies w.
Proof.
  unfold Player_update, Player_fire, new_projectile. cbv zeta.
  destruct (JS.geb _ _).
  - destruct (action_1 _).
    + match goal with |- context [entities_get ?p ?k ?l] =>
        destruct (entities_get p k l) end; [|discriminate].
      intros E. injection E as <-. reflexivity.
    + intros E. injection E as <-. reflexivity.
  - intros E. injection E as <-. reflexivity.
Qed.

Lemma Entity_update_hits (delta_time : float) (e : Entity) (w w' : World) :
  Entity_update delta_time e w = Some w' -> hitEnemies w' = hitEnemies w.
Proof.
  destruct e as [|b|b]; simpl.
  - apply Player_update_hits.
  - intros E. injection E as <-. unfold Enemy_update. cbv zeta.
    destruct (JS.gtb _ _); reflexivity.
  - intros E. injection E as <-. unfold projectile_update. cbv zeta.
    destruct (_ <? _); reflexivity.
Qed.

Lemma forEach_update_hits (delta_time : float) (l : list Entity) (w w' : World) :
  forEach_update delta_time l w = Some w' -> hitEnemies w' = hitEnemies w.
Proof.
  revert w. induction l as [|e l IH]; simpl; intros w H.
  - injection H as <-. reflexivity.
  - destruct (Entity_update delta_time e w) as [w1|] eqn:E; [|discriminate].
    rewrite (IH _ H). eapply Entity_update_hits. eassumption.
Qed.

Lemma enemySpawner_update_hits (delta_time rnd : float) (s : enemySpawner)
  (w : World) :
  hitEnemies (enemySpawner_update delta_time rnd s w) = hitEnemies w.
Proof. unfold enemySpawner_update. destruct (JS.geb _ _); reflexivity. Qed.

(** Up to the restart check a step adds an even number to the hit
    counter. *)
Lemma update_simulate_hits (delta_time rnd : float) (w w' : World) :
  update_simulate delta_time rnd w = Some w' ->
  exists k : nat, hitEnemies w' = (hitEnemies w + 2 * Z.of_nat k)%Z.
Proof.
  unfold update_simulate. cbv zeta.
  destruct (forEach_update _ _ _) as [w2|] eqn:E; [|discriminate].
  apply forEach_update_hits in E. simpl in E.
  intros E'. injection E' as <-.
  assert (H3 : exists k : nat,
             hitEnemies (if collision_handler w2
                         then collisionHandler_update w2 else w2)
             = (hitEnemies w + 2 * Z.of_nat k)%Z).
  { destruct (collision_handler w2).
    - destruct (collisionHandler_update_even w2) as [k Hk].
      exists k. rewrite Hk, E. reflexivity.
    - exists 0%nat. rewrite E. simpl. lia. }
  destruct H3 as [k Hk]. exists k. rewrite <- Hk.
  match goal with |- context [enemy_spawner ?x] => destruct (enemy_spawner x) end;
    [rewrite enemySpawner_update_hits|]; reflexivity.
Qed.

Lemma hits_if_timeElasped (c : bool) (t : float) (w : World) :
  hitEnemies (if c then with_timeElasped t w else w) = hitEnemies w.
Proof. destruct c; reflexivity. Qed.

Lemma update_bookkeeping_hits (delta_time : float) (w : World) :
  hitEnemies (update_bookkeeping delta_time w)
  = if restart_requested w then 0%Z else hitEnemies w.
Proof.
  unfold update_bookkeeping. cbv zeta.
  change (hitEnemies (with_score ?s ?x)) with (hitEnemies x).
  rewrite hits_if_timeElasped.
  destruct (restart_requested w); reflexivity.
Qed.

Lemma draw_hits (w : World) : hitEnemies (draw w) = hitEnemies w.
Proof. unfold draw. destruct (Body.isDead _); reflexivity. Qed.

Lemma reachable_hits (w : World) :
  reachable w -> exists k : nat, hitEnemies w = (2 * Z.of_nat k)%Z.
Proof.
  intros R. induction R as [|w k R IH|w k R IH|w t R IH|w w' rnd t R IH U];
    try exact IH.
  - exists 0%nat. reflexivity.
  - unfold loop_body, update in U.
    destruct (update_simulate _ _ w) as [w1|] eqn:E; [|discriminate].
    injection U as <-.
    change (exists k : nat,
               hitEnemies (draw (update_bookkeeping config.update_rate_seconds w1))
               = (2 * Z.of_nat k)%Z).
    rewrite draw_hits, update_bookkeeping_hits.
    destruct (restart_requested w1); [exists 0%nat; reflexivity|].
    destruct (update_simulate_hits _ _ _ _ E) as [k Hk].
    destruct IH as [k0 Hk0]. exists (k0 + k)%nat. lia.
Qed.

(** X8: a run of [collisionHandler.update] adds an even number to the hit
    counter, because every colliding pair that counts is visited in both
    orders; and so in a session the hit counter is even and not negative
    between steps: the hits / 2 of the score formula is a whole number. *)
Theorem X8_hits_even (w : World) :
  (exists k : nat,
      hitEnemies (collisionHandler_update w) = (hitEnemies w + 2 * Z.of_nat k)%Z)
  /\ (reachable w ->
      Z.even (hitEnemies w) = true /\ (0 <= hitEnemies w)%Z).
Proof.
  split; [apply collisionHandler_update_even|].
  intros R. destruct (reachable_hits w R) as [k ->].
  split; [|lia]. rewrite Z.even_mul. reflexivity.
Qed.

(** X8 applies to the session in which the fire button is held and every
    enemy spawns in the player's column: after 100 steps two enemies have
    been shot and the hit counter is 4. *)
Lemma X8_hits_even_witness :
  exists w,
    run_steps 100 (fun _ => 0.5) 0
      (with_player (InputHandler_keydown 32 (player (start globals0)))
         (start globals0)) = Some w
    /\ hitEnemies w = 4%Z
    /\ Z.even (hitEnemies w) = true.
Proof.
  eexists.
  eassert (E : run_steps 100 (fun _ => 0.5) 0
                 (with_player (InputHandler_keydown 32 (player (start globals0)))
                    (start globals0)) = Some _)
    by (vm_compute; reflexivity).
  split; [exact E|]. split; [reflexivity|].
  apply (proj2 (X8_hits_even _)
           (run_steps_reachable 100 (fun _ => 0.5) 0 _ _
              (reach_keydown _ 32 reach_start) E)).
Defined.

(* ------------------------------------------------------------------ *)
(** * The collision test *)
(* ------------------------------------------------------------------ *)

(** X9: the collision test does not depend on the order of its two
    arguments, and it fails as soon as one of the four coordinates it
    reads is not a number. *)
Theorem X9_checkCollision_sym_nan (e1 e2 : Body.t) :
  checkCollision e1 e2 = checkCollision e2 e1
  /\ (is_nan (Vec.x (Body.position e1)) || is_nan (Vec.y (Body.position e1))
      || is_nan (Vec.x (Body.position e2)) || is_nan (Vec.y (Body.position e2))
      = true ->
      checkCollision e1 e2 = false).
Proof.
  split; [apply checkCollision_sym|].
  unfold checkCollision, JS.gtb. intros H.
  apply orb_true_iff in H. destruct H as [H|H].
  - apply orb_true_iff in H. destruct H as [H|H].
    + apply orb_true_iff in H. destruct H as [H|H].
      * rewrite (ltb_nan_l _ _ H). reflexivity.
      * rewrite (ltb_nan_l _ _ H). rewrite !andb_false_r. reflexivity.
    + rewrite (ltb_nan_l _ (Vec.x (Body.position e1) + 12) H).
      rewrite !andb_false_r. reflexivity.
  - rewrite (ltb_nan_l _ (Vec.y (Body.position e1) + 12) H).
    rewrite !andb_false_r. reflexivity.
Qed.

(** X9 applies to a body whose x is not a number. *)
Lemma X9_checkCollision_sym_nan_witness :
  checkCollision (Body.with_position (Vec.mk nan 0) (Body.fresh 1)) (Body.fresh 2)
  = false.
Proof.
  apply (proj2 (X9_checkCollision_sym_nan
                  (Body.with_position (Vec.mk nan 0) (Body.fresh 1))
                  (Body.fresh 2))).
  reflexivity.
Defined.

(* ------------------------------------------------------------------ *)
(** * Removal *)
(* ------------------------------------------------------------------ *)

Lemma flush_not_In (p : Player) (q : list nat) (x : Entity) (es : list Entity) :
  In x (fold_left (fun l i => entities_delete p i l) q es) ->
  ~ In (Entity_id p x) q.
Proof.
  revert es. induction q as [|i q IH]; simpl; intros es H; [tauto|].
  intros [E|Hq]; [|exact (IH _ H Hq)].
  apply flush_In in H. unfold entities_delete in H. apply filter_In in H.
  destruct H as [_ H]. apply negb_true_iff, Nat.eqb_neq in H. congruence.
Qed.

(** X11: flushing the removal queue deletes exactly the entries whose key
    is in the queue (an id queued twice, or one with no entry, does no
    harm), leaves every other entry as it is, and empties the queue.  The
    next id is not touched, so the id of a removed body is never given
    out again. *)
Theorem X11_flush_removals (w : World) (e : Entity) :
  let w' := flush_removals w in
  (In e (entities w')
   <-> In e (entities w)
       /\ ~ In (Entity_id (player w) e) (queued_entities_for_removal w))
  /\ queued_entities_for_removal w' = []
  /\ running_id w' = running_id w
  /\ player w' = player w.
Proof.
  cbv zeta. split; [|repeat split].
  unfold flush_removals. simpl. split.
  - intros H. split; [eapply flush_In; exact H|eapply flush_not_In; exact H].
  - intros [H1 H2]. apply flush_keep; assumption.
Qed.

(** X11 applies to a registry from which a queued enemy is deleted while
    the player stays. *)
Lemma X11_flush_removals_witness :
  In EPlayer
    (entities (flush_removals
                 (with_queue [1%nat; 1%nat; 7%nat]
                    (new_Enemy 0.5 (start globals0))))).
Proof.
  apply (proj1 (X11_flush_removals
                  (with_queue [1%nat; 1%nat; 7%nat] (new_Enemy 0.5 (start globals0)))
                  EPlayer)).
  split.
  - simpl. auto.
  - simpl. intros [H|[H|[H|[]]]]; discriminate H.
Defined.

(** ** What collision resolution queues *)

Lemma queues_first_frame (p p' : Player) (e1 e2 e1' e2' : Entity) :
  same_body_but_health (body p) (body p') ->
  same_entity_but_health e1 e1' -> same_entity_but_health e2 e2' ->
  queues_first p' (e1', e2') = queues_first p (e1, e2).
Proof.
  intros Hp H1 H2.
  destruct (same_entity_geometry p p' _ _ Hp H1) as [I1 P1].
  destruct (same_entity_geometry p p' _ _ Hp H2) as [I2 P2].
  unfold queues_first, Entity_id. simpl. rewrite I1, I2.
  rewrite (checkCollision_position _ _ _ _ P1 P2). reflexivity.
Qed.

Lemma Forall2_In_l (A : Type) (R : A -> A -> Prop) (l l' : list A) (x : A) :
  Forall2 R l l' -> In x l -> exists y, In y l' /\ R x y.
Proof.
  induction 1 as [|a b l l' Hab Hl IH]; simpl; [tauto|].
  intros [->|H]; [eauto|]. destruct (IH H) as (y & Hy & Hr). eauto.
Qed.

Lemma collision_resolve_queues_first (e1 e2 : Entity) (w : World) :
  queues_first (player w) (e1, e2) = true ->
  In (Entity_id (player w) e1)
     (queued_entities_for_removal (collision_resolve e1 e2 w)).
Proof.
  unfold queues_first, collision_resolve, Entity_id. simpl. intros H.
  apply andb_prop in H. destruct H as [H N1].
  rewrite H. apply negb_true_iff in N1. rewrite N1.
  destruct (Body.id (Entity_body (player w) e2) =? 0)%nat; simpl;
    rewrite ?in_app_iff; simpl; auto.
Qed.

Lemma collision_inner_queues_first (e1 e2 : Entity) (l : list Entity) (w : World) :
  (exists e2', In e2' l /\ same_entity_but_health e2 e2') ->
  queues_first (player w) (e1, e2) = true ->
  In (Entity_id (player w) e1)
     (queued_entities_for_removal
        (fold_left (fun w2 e => collision_resolve e1 e w2) l w)).
Proof.
  revert w. induction l as [|a l IH]; simpl; intros w (e2' & Hin & Hs) Hq;
    [contradiction|].
  pose proof (collision_resolve_frame e1 a w) as F.
  destruct Hin as [->|Hin].
  - eapply frame_queue_mono; [apply collision_inner_frame|].
    apply collision_resolve_queues_first.
    rewrite (queues_first_frame (player w) (player w) e1 e2 e1 e2'
               (same_body_but_health_refl _) (same_entity_but_health_refl _) Hs).
    exact Hq.
  - rewrite <- (frame_ids _ _ e1 F). apply IH; [eauto|].
    rewrite (queues_first_frame (player w) _ e1 e2 e1 e2
               (cf_player_body _ _ F) (same_entity_but_health_refl _)
               (same_entity_but_health_refl _)).
    exact Hq.
Qed.

Lemma collision_outer_queues_first (e1 e2 : Entity) (l : list Entity) (w : World) :
  (exists e1', In e1' l /\ same_entity_but_health e1 e1') ->
  (exists e2', In e2' (Object_values w) /\ same_entity_but_health e2 e2') ->
  queues_first (player w) (e1, e2) = true ->
  In (Entity_id (player w) e1)
     (queued_entities_for_removal
        (fold_left
           (fun w1 e =>
              fold_left (fun w2 e' => collision_resolve e e' w2)
                        (Object_values w1) w1)
           l w)).
Proof.
  revert w. induction l as [|a l IH]; simpl; intros w (e1' & H1 & S1) H2 Hq;
    [contradiction|].
  pose proof (collision_inner_frame a (Object_values w) w) as F.
  destruct H1 as [->|H1].
  - eapply frame_queue_mono; [apply collision_outer_frame|].
    destruct (same_entity_geometry (player w) (player w) e1 e1'
                (same_body_but_health_refl _) S1) as [I1 _].
    unfold Entity_id at 1. rewrite <- I1.
    apply (collision_inner_queues_first e1' e2 _ w H2).
    rewrite (queues_first_frame (player w) (player w) e1 e2 e1' e2
               (same_body_but_health_refl _) S1 (same_entity_but_health_refl _)).
    exact Hq.
  - rewrite <- (frame_ids _ _ e1 F). apply IH; [eauto| |].
    + destruct H2 as (e2' & Hin & S2). unfold Object_values in *.
      destruct (Forall2_In_l _ _ _ _ e2' (cf_entities _ _ F) Hin) as (y & Hy & Sy).
      exists y. split; [exact Hy|].
      eapply same_entity_but_health_trans; eassumption.
    + rewrite (queues_first_frame (player w) _ e1 e2 e1 e2
                 (cf_player_body _ _ F) (same_entity_but_health_refl _)
                 (same_entity_but_health_refl _)).
      exact Hq.
Qed.

(** X10: an entity other than the object with id 0 that, when collisions
    are resolved, overlaps an entity with another id is deleted at the
    end of the step: after collision resolution and the flush of the
    queue the registry has no entry under its key.  This holds for an
    enemy that touches the player as for an enemy and a projectile that
    meet.  The player's entry is never deleted this way. *)
Theorem X10_colliding_entities_removed (w : World) (e1 e2 : Entity) :
  In e1 (entities w) -> In e2 (entities w) ->
  queues_first (player w) (e1, e2) = true ->
  let w' := flush_removals (collisionHandler_update w) in
  entities_get (player w') (Entity_id (player w) e1) (entities w') = None
  /\ (registry_ok w -> entities_get (player w') 0 (entities w') = Some EPlayer).
Proof.
  intros H1 H2 Hq. cbv zeta.
  pose proof (collisionHandler_update_frame w) as F.
  split.
  - apply entities_get_none. intros e He.
    change (player (flush_removals (collisionHandler_update w)))
      with (player (collisionHandler_update w)).
    unfold flush_removals in He. simpl in He. apply flush_not_In in He.
    intros E. apply He. rewrite E.
    apply (collision_outer_queues_first e1 e2);
      [exists e1|exists e2|exact Hq];
      (split; [assumption|apply same_entity_but_health_refl]).
  - intros Hw.
    destruct (collisionHandler_update_ok w Hw) as [H3 _].
    destruct (flush_removals_ok _ H3) as [(H0 & Hp & Hn & _) _].
    apply entities_get_player; assumption.
Qed.

(** X10 applies to an enemy that sits on the player. *)
Lemma X10_colliding_entities_removed_witness :
  entities_get (player (start globals0)) 1
    (entities
       (flush_removals
          (collisionHandler_update
             (with_entities
                [EPlayer; EEnemy (Body.with_position (Vec.mk 150 400) (Body.fresh 1))]
                (start globals0)))))
  = None.
Proof.
  apply (X10_colliding_entities_removed
           (with_entities
              [EPlayer; EEnemy (Body.with_position (Vec.mk 150 400) (Body.fresh 1))]
              (start globals0))
           (EEnemy (Body.with_position (Vec.mk 150 400) (Body.fresh 1)))
           EPlayer).
  - simpl. auto.
  - simpl. auto.
  - vm_compute. reflexivity.
Defined.

(* ------------------------------------------------------------------ *)
(** * The frame callback *)
(* ------------------------------------------------------------------ *)

(** A number minus itself is zero or not a number. *)
Lemma sub_self_cases (x : float) :
  Prim2SF (x - x) = S754_nan \/ Prim2SF (x - x) = S754_zero false.
Proof.
  rewrite sub_spec. unfold SF64sub, SFsub.
  destruct (Prim2SF x) as [s|s| |s m e].
  - right. destruct s; reflexivity.
  - left. destruct s; reflexivity.
  - left. reflexivity.
  - right. cbv zeta. rewrite Z.sub_diag. reflexivity.
Qed.

Lemma gtb_sub_self (x : float) :
  JS.gtb (x - x) config.update_rate_seconds = false.
Proof.
  unfold JS.gtb. rewrite ltb_spec.
  destruct (sub_self_cases x) as [-> | ->]; vm_compute; reflexivity.
Qed.

(** X14: the first callback of a page (no frame time noted yet) runs no
    simulation step, whatever timestamp it is given: it only notes the
    time, and it returns without entering the loop. *)
Theorem X14_first_callback (fuel : nat) (rnd : nat -> float) (curr_time : float)
  (w : World) :
  last_time w = None ->
  loop fuel rnd curr_time w
  = Returns (with_last_time (Some (curr_time / 1000)) w,
             curr_time / 1000 - curr_time / 1000).
Proof.
  intros H. unfold loop. rewrite H. cbv zeta.
  apply loop_while_stop. apply gtb_sub_self.
Qed.

(** X14 applies to the state [start()] leaves when the script is
    loaded. *)
Lemma X14_first_callback_witness :
  loop 0 (fun _ => 0.5) 1234.5 (start globals0)
  = Returns (with_last_time (Some (1234.5 / 1000)) (start globals0),
             1234.5 / 1000 - 1234.5 / 1000).
Proof.
  apply (X14_first_callback 0 (fun _ => 0.5) 1234.5 (start globals0)).
  reflexivity.
Defined.

(** What a run of the [while] loop that returns has done. *)
Lemma loop_while_returns (fuel : nat) (rnd : nat -> float)
  (curr_time delta_time d' : float) (w w' : World) :
  registry_ok w ->
  loop_while fuel rnd curr_time delta_time w = Returns (w', d') ->
  JS.gtb d' config.update_rate_seconds = false
  /\ exists n : nat,
       (n <= fuel)%nat
       /\ run_steps n rnd curr_time w = Some w'
       /\ loop_count w' = (loop_count w + n)%nat
       /\ (n = 0%nat <-> JS.gtb delta_time config.update_rate_seconds = false)
       /\ (n = 0%nat -> w' = w /\ d' = delta_time)
       /\ ((0 < n)%nat -> last_time w' = Some curr_time).
Proof.
  revert delta_time w. induction fuel as [|fuel IH]; intros delta_time w Hw; simpl.
  - destruct (JS.gtb delta_time _) eqn:G; [discriminate|].
    intros E. injection E as <- <-. split; [exact G|].
    exists 0%nat. simpl. repeat split; auto; lia.
  - destruct (JS.gtb delta_time _) eqn:G.
    + destruct (loop_body_ok rnd curr_time w Hw) as (w1 & E1 & H1 & L1 & T1).
      rewrite E1. intros E.
      destruct (IH _ _ H1 E) as (Gd & n & Hn & R & L & _ & Z0 & P).
      split; [exact Gd|]. exists (S n). simpl. rewrite E1.
      split; [lia|]. split; [exact R|]. split; [lia|].
      split; [split; [lia|discriminate]|]. split; [lia|].
      intros _. destruct n as [|n].
      * destruct (Z0 eq_refl) as [-> _]. exact T1.
      * apply P. lia.
    + intros E. injection E as <- <-. split; [exact G|].
      exists 0%nat. simpl. repeat split; auto; lia.
Qed.

(** X15: a callback of a session that returns has run some number n of
    steps, each with the same noted time, and has added n to the loop
    count; the time left over does not exceed one step.  It has run no
    step exactly when the time since the noted frame time does not
    exceed one step, and then the noted time is kept (so short frames
    add up); otherwise the noted time is the callback's, and the time
    left over is dropped. *)
Theorem X15_loop_steps (fuel : nat) (rnd : nat -> float) (curr_time t d' : float)
  (w w' : World) :
  reachable w ->
  last_time w = Some t ->
  loop fuel rnd curr_time w = Returns (w', d') ->
  JS.gtb d' config.update_rate_seconds = false
  /\ exists n : nat,
       (n <= fuel)%nat
       /\ run_steps n rnd (curr_time / 1000) w = Some w'
       /\ loop_count w' = (loop_count w + n)%nat
       /\ (n = 0%nat
           <-> JS.gtb (curr_time / 1000 - t) config.update_rate_seconds = false)
       /\ (n = 0%nat -> w' = w /\ d' = curr_time / 1000 - t)
       /\ ((0 < n)%nat -> last_time w' = Some (curr_time / 1000)).
Proof.
  intros R Ht. unfold loop. rewrite Ht. cbv zeta.
  assert (Ew : with_last_time (Some t) w = w)
    by (destruct w; simpl in Ht; rewrite Ht; reflexivity).
  rewrite Ew. apply loop_while_returns.
  apply (reachable_ok w R).
Qed.

(** X15 applies to a callback 40 ms after the noted time: two steps. *)
Lemma X15_loop_steps_witness :
  exists w' d',
    loop 5 (fun _ => 0.5) 40 (with_last_time (Some 0) (start globals0))
    = Returns (w', d')
    /\ loop_count w' = 2%nat.
Proof.
  eexists. eexists.
  eassert (E : loop 5 (fun _ => 0.5) 40 (with_last_time (Some 0) (start globals0))
               = Returns (_, _)) by (vm_compute; reflexivity).
  split; [exact E|].
  destruct (X15_loop_steps 5 (fun _ => 0.5) 40 0 _ _ _
              (reach_time _ 0 reach_start) eq_refl E)
    as (_ & n & _ & _ & L & _).
  reflexivity.
Defined.

(* ------------------------------------------------------------------ *)
(** * The step in which a projectile is fired *)
(* ------------------------------------------------------------------ *)

Lemma pollController_action_1 (p : Player) :
  action_1 (controller (InputHandler_pollController p)) = raw_input_pressed 32 p.
Proof.
  unfold InputHandler_pollController, raw_input_pressed. simpl.
  destruct (existsb (Z.eqb 32) (raw_input p)),
           (existsb (Z.eqb 65) (raw_input p)),
           (existsb (Z.eqb 68) (raw_input p)),
           (existsb (Z.eqb 83) (raw_input p)),
           (existsb (Z.eqb 87) (raw_input p)); reflexivity.
Qed.

(** In a session [Object.values] lists the player first, and every other
    entry is an enemy or projectile with an id of its own below the next
    id. *)
Lemma registry_player_first (w : World) :
  registry_ok w -> keys_ok w ->
  exists rest,
    entities w = EPlayer :: rest
    /\ Forall (fun e => e <> EPlayer
                        /\ (Body.id (Entity_body (player w) e) < running_id w)%nat)
              rest.
Proof.
  intros (H0 & Hp & Hn & _) [Hs Hb]. unfold keys in *.
  destruct (entities w) as [|a l]; [contradiction|].
  simpl in Hs, Hb. inversion Hs as [|k ks Hks Hk]; subst.
  inversion Hb as [|k ks Hka Hkl]; subst.
  assert (Ha : a = EPlayer).
  { destruct Hp as [Hp|Hp]; [exact Hp|].
    rewrite Forall_forall in Hk.
    specialize (Hk _ (in_map (Entity_id (player w)) _ _ Hp)).
    unfold Entity_id in Hk at 2. simpl in Hk. lia. }
  subst a. exists l. split; [reflexivity|].
  rewrite Forall_forall in *. intros e He. split.
  - intros ->. specialize (Hk _ (in_map (Entity_id (player w)) _ _ He)). lia.
  - apply Hkl. apply (in_map (Entity_id (player w)) _ _ He).
Qed.

Lemma entities_store_other (b b' : Body.t) (es : list Entity) :
  In (EProjectile b') es -> Body.id b' <> Body.id b ->
  In (EProjectile b') (entities_store b es).
Proof.
  intros Hin Hx. unfold entities_store. apply in_map_iff.
  exists (EProjectile b'). split; [|exact Hin].
  apply Nat.eqb_neq in Hx. rewrite Hx. reflexivity.
Qed.

(** The update of an enemy or projectile leaves the entries of the other
    bodies as they are. *)
Lemma Entity_update_other (delta_time : float) (e : Entity) (b : Body.t)
  (w w' : World) :
  e <> EPlayer -> Body.id (Entity_body (player w) e) <> Body.id b ->
  Entity_update delta_time e w = Some w' ->
  In (EProjectile b) (entities w) ->
  In (EProjectile b) (entities w') /\ player w' = player w
  /\ running_id w' = running_id w.
Proof.
  intros He Hid. destruct e as [|b0|b0]; [contradiction| |]; simpl in *;
    intros E Hin; injection E as <-.
  - unfold Enemy_update. cbv zeta.
    destruct (JS.gtb _ _); simpl;
      (split; [apply entities_store_other; [exact Hin|simpl; congruence]
              |split; reflexivity]).
  - unfold projectile_update. cbv zeta.
    destruct (_ <? _); simpl;
      (split; [apply entities_store_other; [exact Hin|simpl; congruence]
              |split; reflexivity]).
Qed.

Lemma forEach_update_other (delta_time : float) (b : Body.t) (l : list Entity)
  (w w' : World) :
  Forall (fun e => e <> EPlayer
                   /\ Body.id (Entity_body (player w) e) <> Body.id b) l ->
  forEach_update delta_time l w = Some w' ->
  In (EProjectile b) (entities w) ->
  In (EProjectile b) (entities w') /\ running_id w' = running_id w.
Proof.
  revert w. induction l as [|e l IH]; simpl; intros w Hl.
  - intros E Hin. injection E as <-. auto.
  - inversion Hl as [|x xs [He Hid] Hrest]; subst.
    destruct (Entity_update delta_time e w) as [w1|] eqn:E1; [|discriminate].
    intros E Hin.
    destruct (Entity_update_other _ _ _ _ _ He Hid E1 Hin) as (Hin1 & P1 & R1).
    rewrite <- R1. apply (IH w1); [|exact E|exact Hin1].
    rewrite P1. exact Hrest.
Qed.

(** X16: a projectile is not moved in the step that creates it.  In a
    session, if the player's timer runs out in this step and space is
    down, the entity updates of the step return, use up one id, and leave
    in the registry the new projectile exactly where its constructor put
    it, 25 above the position the player has moved to: [Object.values]
    was taken before the projectile was registered, so its own update is
    first called in the next step. *)
Theorem X16_fresh_projectile_waits (delta_time : float) (w : World) :
  reachable w ->
  JS.geb (timer (player w) + delta_time) Player_spawnRate = true ->
  raw_input_pressed 32 (player w) = true ->
  let w1 := with_player (InputHandler_pollController (player w)) w in
  let moved := Body.position (Player_move (controller (player w1)) (body (player w))) in
  let shot := Body.with_position (Vec.mk (Vec.x moved) (Vec.y moved - 25))
                (Body.fresh (running_id w)) in
  exists w2,
    forEach_update delta_time (Object_values w1) w1 = Some w2
    /\ In (EProjectile shot) (entities w2)
    /\ running_id w2 = S (running_id w).
Proof.
  intros R Hg Ha w1 moved shot.
  destruct (reachable_ok w R) as [Hw _].
  pose proof (reachable_keys w R) as Hk.
  destruct (pollController_ok w Hw) as [H1 _]. fold w1 in H1.
  assert (K1 : keys_ok w1) by (revert Hk; apply keys_ok_intro; reflexivity).
  destruct (registry_player_first w1 H1 K1) as (rest & Hes & Hrest).
  unfold Object_values. rewrite Hes. cbn [forEach_update Entity_update].
  destruct (with_body_ok (Player_move (controller (player w1)) (body (player w1))) w1
              (Player_move_id _ _) H1) as [H2 _].
  unfold Player_update, Player_fire. cbv zeta.
  set (w1' := with_player (with_body _ (player w1)) w1) in *.
  change (timer (player w1')) with (timer (player w)). rewrite Hg.
  change (action_1 (controller (player (with_player (with_timer 0 (player w1')) w1'))))
    with (action_1 (controller (InputHandler_pollController (player w)))).
  rewrite pollController_action_1, Ha.
  rewrite (new_projectile_spec _ (proj1 (with_timer_ok 0 _ H2))).
  match goal with |- context [forEach_update delta_time rest ?x] => set (w3 := x) end.
  assert (Hin : In (EProjectile shot) (entities w3)).
  { subst w3. cbn [entities with_player with_entities].
    apply entities_store_projectile with (b := Body.fresh (running_id w));
      [reflexivity|apply entities_set_new]. }
  assert (Hl : Forall (fun e => e <> EPlayer
                         /\ Body.id (Entity_body (player w3) e) <> Body.id shot)
                 rest).
  { eapply Forall_impl; [|exact Hrest]. simpl. intros e [He Hid].
    split; [exact He|].
    destruct e as [|b0|b0]; [contradiction| |]; simpl in *; lia. }
  destruct (forEach_update_ok delta_time rest w3) as (w2 & E & _).
  - rewrite Forall_forall in *. intros e He.
    destruct (Hrest e He) as [Hne _].
    destruct H1 as (_ & _ & Hn & _). rewrite Hes in Hn.
    rewrite Forall_forall in Hn. apply Hn. right. exact He.
  - destruct (Player_update_ok delta_time w1 H1) as (w' & E' & Hw' & _).
    unfold Player_update, Player_fire in E'. cbv zeta in E'. fold w1' in E'.
    change (timer (player w1')) with (timer (player w)) in E'. rewrite Hg in E'.
    change (action_1 (controller (player (with_player (with_timer 0 (player w1')) w1'))))
      with (action_1 (controller (InputHandler_pollController (player w)))) in E'.
    rewrite pollController_action_1, Ha in E'.
    rewrite (new_projectile_spec _ (proj1 (with_timer_ok 0 _ H2))) in E'.
    injection E' as <-. exact Hw'.
  - exists w2. split; [exact E|].
    destruct (forEach_update_other delta_time shot rest w3 w2 Hl E Hin) as [I2 R2].
    split; [exact I2|]. rewrite R2. reflexivity.
Qed.

(** X16 applies to a fresh session in which space is pressed and the
    step is long enough for the timer to run out. *)
Lemma X16_fresh_projectile_waits_witness :
  let w := with_player (InputHandler_keydown 32 (player (start globals0)))
             (start globals0) in
  let w1 := with_player (InputHandler_pollController (player w)) w in
  exists w2,
    forEach_update 0.3 (Object_values w1) w1 = Some w2
    /\ In (EProjectile (Body.with_position (Vec.mk 150 375) (Body.fresh 1)))
          (entities w2).
Proof.
  intros w w1.
  assert (G : JS.geb (timer (player w) + 0.3) Player_spawnRate = true)
    by (vm_compute; reflexivity).
  assert (A : raw_input_pressed 32 (player w) = true)
    by (vm_compute; reflexivity).
  destruct (X16_fresh_projectile_waits 0.3 w (reach_keydown _ 32 reach_start) G A)
    as (w2 & E & Hin & _).
  exists w2. split; [exact E|]. vm_compute in Hin. exact Hin.
Defined.
